(** * TravelPlan02: src/config/db.js

    A shallow embedding of the database bootstrapper (promise wrapper around
    the callback driver, process-wide connection singleton, schema
    initialiser, points-ledger migration) together with a model of the
    fragment of SQLite that the module's statements exercise. *)

From Stdlib Require Import ZArith QArith.Qcanon.
From stdpp Require Import base option list strings gmap numbers.

(** ** Values and schema vocabulary *)

(** The five storage classes of SQLite. *)
Inductive value :=
  | VNull
  | VInt (n : Z)
  | VReal (q : Qc)
  | VText (s : string)
  | VBlob (b : string).

#[global] Instance value_eq_dec : EqDecision value.
Proof. solve_decision. Defined.

(** Declared column types that occur in the module's DDL. *)
Inductive decl_type := INTEGER | TEXT | REAL.

#[global] Instance decl_type_eq_dec : EqDecision decl_type.
Proof. solve_decision. Defined.

Inductive fk_action := NoAction | Cascade.

#[global] Instance fk_action_eq_dec : EqDecision fk_action.
Proof. solve_decision. Defined.

(** One column of a CREATE TABLE.  [col_dflt] keeps the SQL text of the
    DEFAULT expression and the value it denotes; [col_pk] marks a
    column-level INTEGER PRIMARY KEY (an alias of the rowid). *)
Record column := Column {
  col_name : string;
  col_type : decl_type;
  col_notnull : bool;
  col_dflt : option (string * value);
  col_pk : bool;
  col_unique : bool
}.

(** FOREIGN KEY(fk_from) REFERENCES fk_table(fk_to) [ON DELETE CASCADE]. *)
Record foreign_key := ForeignKey {
  fk_from : string;
  fk_table : string;
  fk_to : string;
  fk_on_delete : fk_action
}.

Record table_def := TableDef {
  td_columns : list column;
  td_autoincrement : bool;
  td_primary_key : list string;
  td_foreign_keys : list foreign_key
}.

(** ** Statements

    One constructor per SQL statement text that db.js sends to the driver. *)
Inductive statement :=
  (* PRAGMA foreign_keys = ON; *)
  | PragmaForeignKeysOn
  (* CREATE TABLE IF NOT EXISTS name ( ... ); *)
  | CreateTableIfNotExists (name : string) (def : table_def)
  (* SELECT COUNT( * ) as c FROM users *)
  | SelectCountUsers
  (* INSERT INTO users (username, password_hash, display_name, is_admin,
     created_at) VALUES (?,?,?,?,?) *)
  | InsertUser
  (* PRAGMA table_info(table); *)
  | PragmaTableInfo (table : string)
  (* ALTER TABLE table ADD COLUMN col ty; *)
  | AlterTableAddColumn (table : string) (col : string) (ty : decl_type)
  (* UPDATE points_ledger
        SET series_id = (SELECT m.series_id FROM matches m
                         WHERE m.id = points_ledger.match_id)
      WHERE (series_id IS NULL OR series_id = '') AND match_id IS NOT NULL; *)
  | BackfillSeriesId
  (* CREATE INDEX IF NOT EXISTS name ON table(cols); *)
  | CreateIndexIfNotExists (name : string) (table : string) (cols : list string).

(** ** JavaScript side *)

Definition handle := nat.

(** Values a promise of this module can be rejected with.  [SqliteError] is
    the Error object the driver hands to a callback.  [DatabaseError] is the
    wrapping error class that the specification names; db.js defines no such
    class and no definition below constructs it. *)
Inductive js_error :=
  | SqliteError (code message : string)
  | DatabaseError (cause : js_error).

(** The statement object bound to [this] in the callback of [run]. *)
Record run_info := RunInfo { changes : Z; lastID : Z }.

(** A result row: a JavaScript object, properties in column order. *)
Definition row_obj := list (string * value).

Fixpoint obj_get (k : string) (o : row_obj) : option value :=
  match o with
  | [] => None
  | (k', v) :: o' => if String.eqb k k' then Some v else obj_get k o'
  end.

Inductive settled (A : Type) :=
  | Fulfilled (a : A)
  | Rejected (e : js_error).
Arguments Fulfilled {A} a.
Arguments Rejected {A} e.

(** The callback interface of a sqlite3 Database handle.  Every operation
    takes the store of the driver (files and connections) to a new store
    and to what the callback receives: [inl err] for cb(err), [inr x] for
    cb(null, x); [exec] and [close] call back with the error or null. *)
Class Sqlite3 (S : Type) := {
  drv_open : string → S → S * handle;
  drv_exec : handle → list statement → S → S * option js_error;
  drv_run : handle → statement → list value → S → S * (js_error + run_info);
  drv_get : handle → statement → list value → S → S * (js_error + option row_obj);
  drv_all : handle → statement → list value → S → S * (js_error + list row_obj);
  drv_close : handle → S → S * option js_error
}.

(** The object returned by [wrapDb]: its methods are the functions [run],
    [get], [all], [exec], [close] below applied to it. *)
Record wrapper := Wrapper { raw : handle; file : string }.

#[global] Instance wrapper_eq_dec : EqDecision wrapper.
Proof. solve_decision. Defined.

(** Everything observable from outside the module, in order. *)
Inductive event :=
  | EvOpen (path : string) (h : handle)
  | EvExec (h : handle) (script : list statement)
  | EvRun (h : handle) (sql : statement) (params : list value)
  | EvGet (h : handle) (sql : statement) (params : list value)
  | EvAll (h : handle) (sql : statement) (params : list value)
  | EvClose (h : handle)
  | EvHash (password : string) (rounds : Z)
  | EvLog (line : string).

(** What the module reads from its surroundings. *)
Record environment := Environment {
  process_env : string → option string;
  path_resolve : string → string;
  defaultDbPath : string;
  bcrypt_hash : string → Z → string;
  now_iso : string
}.

(** [process.env.K || dflt] *)
Definition env_or (env : environment) (k dflt : string) : string :=
  match process_env env k with
  | Some s => if String.eqb s "" then dflt else s
  | None => dflt
  end.

Definition dbPath (env : environment) : string :=
  match process_env env "SQLITE_DB_PATH" with
  | Some p => if String.eqb p "" then defaultDbPath env else path_resolve env p
  | None => defaultDbPath env
  end.

(** ** The schema script of initDb *)

Definition col (n : string) (t : decl_type) (notnull : bool) : column :=
  Column n t notnull None false false.

Definition col_id : column := Column "id" INTEGER false None true false.

Definition users_def : table_def :=
  TableDef
    [ col_id;
      Column "username" TEXT true None false true;
      col "password_hash" TEXT true;
      col "display_name" TEXT true;
      Column "is_admin" INTEGER true (Some ("0", VInt 0)) false false;
      col "created_at" TEXT true ]
    true [] [].

Definition series_def : table_def :=
  TableDef
    [ col_id;
      Column "name" TEXT true None false true;
      col "description" TEXT false;
      col "start_date_utc" TEXT true;
      col "end_date_utc" TEXT false;
      Column "is_locked" INTEGER true (Some ("0", VInt 0)) false false;
      col "created_by" INTEGER true;
      col "created_at" TEXT true ]
    true []
    [ ForeignKey "created_by" "users" "id" NoAction ].

Definition series_members_def : table_def :=
  TableDef
    [ col "series_id" INTEGER true;
      col "user_id" INTEGER true;
      col "joined_at" TEXT true ]
    false ["series_id"; "user_id"]
    [ ForeignKey "series_id" "series" "id" Cascade;
      ForeignKey "user_id" "users" "id" Cascade ].

Definition matches_def : table_def :=
  TableDef
    [ col_id;
      col "series_id" INTEGER true;
      col "name" TEXT true;
      col "sport" TEXT true;
      col "team_a" TEXT true;
      col "team_b" TEXT true;
      col "start_time_utc" TEXT true;
      Column "cutoff_minutes_before" INTEGER true (Some ("30", VInt 30)) false false;
      Column "entry_points" REAL true (Some ("50", VReal (Qc_of_Z 50))) false false;
      Column "status" TEXT true (Some ("'scheduled'", VText "scheduled")) false false;
      col "winner" TEXT false;
      col "admin_declared_at" TEXT false ]
    true []
    [ ForeignKey "series_id" "series" "id" Cascade ].

Definition predictions_def : table_def :=
  TableDef
    [ col "match_id" INTEGER true;
      col "user_id" INTEGER true;
      col "predicted_team" TEXT true;
      col "predicted_at_utc" TEXT true;
      Column "locked" INTEGER true (Some ("0", VInt 0)) false false ]
    false ["match_id"; "user_id"]
    [ ForeignKey "match_id" "matches" "id" Cascade;
      ForeignKey "user_id" "users" "id" Cascade ].

Definition points_ledger_def : table_def :=
  TableDef
    [ col_id;
      col "user_id" INTEGER true;
      col "match_id" INTEGER true;
      col "series_id" INTEGER true;
      col "points" REAL true;
      col "reason" TEXT true;
      col "created_at" TEXT true ]
    true []
    [ ForeignKey "user_id" "users" "id" NoAction;
      ForeignKey "match_id" "matches" "id" NoAction;
      ForeignKey "series_id" "series" "id" NoAction ].

Definition schema_tables : list (string * table_def) :=
  [ ("users", users_def);
    ("series", series_def);
    ("series_members", series_members_def);
    ("matches", matches_def);
    ("predictions", predictions_def);
    ("points_ledger", points_ledger_def) ].

Definition schema_script : list statement :=
  PragmaForeignKeysOn
    :: map (λ nd, CreateTableIfNotExists nd.1 nd.2) schema_tables.

Definition idx_series_user : statement :=
  CreateIndexIfNotExists "idx_points_ledger_series_user" "points_ledger"
    ["series_id"; "user_id"].

Definition idx_match : statement :=
  CreateIndexIfNotExists "idx_points_ledger_match" "points_ledger" ["match_id"].

(** ** The module, over any driver *)

Section Module.
Context {S : Type} `{!Sqlite3 S}.
Variable env : environment.

(** Module state ([let dbInstance]), the driver's store, and the
    observable history. *)
Record world := World {
  store : S;
  dbInstance : option wrapper;
  trace : list event
}.

(** An async function: it runs against the world and settles. *)
Definition async (A : Type) : Type := world → world * settled A.

Definition ret {A} (a : A) : async A := λ w, (w, Fulfilled a).

(** [await]: a rejected promise aborts the rest of the async function. *)
Definition bind {A B} (m : async A) (k : A → async B) : async B :=
  λ w, match m w with
       | (w', Fulfilled a) => k a w'
       | (w', Rejected e) => (w', Rejected e)
       end.

Definition emit (e : event) (w : world) : world :=
  World (store w) (dbInstance w) (trace w ++ [e]).

Definition with_store (s : S) (w : world) : world :=
  World s (dbInstance w) (trace w).

Definition console_log (line : string) : async unit :=
  λ w, (emit (EvLog line) w, Fulfilled tt).

(** *** wrapDb *)

Definition wrapDb (db : handle) : wrapper :=
  {| raw := db; file := dbPath env |}.

Definition run (self : wrapper) (sql : statement) (params : list value)
  : async run_info :=
  λ w, let '(s, r) := drv_run (raw self) sql params (store w) in
       (emit (EvRun (raw self) sql params) (with_store s w),
        match r with
        | inl err => Rejected err
        | inr this => Fulfilled {| changes := changes this; lastID := lastID this |}
        end).

Definition get (self : wrapper) (sql : statement) (params : list value)
  : async (option row_obj) :=
  λ w, let '(s, r) := drv_get (raw self) sql params (store w) in
       (emit (EvGet (raw self) sql params) (with_store s w),
        match r with
        | inl err => Rejected err
        | inr row => Fulfilled row
        end).

Definition all (self : wrapper) (sql : statement) (params : list value)
  : async (list row_obj) :=
  λ w, let '(s, r) := drv_all (raw self) sql params (store w) in
       (emit (EvAll (raw self) sql params) (with_store s w),
        match r with
        | inl err => Rejected err
        | inr rows => Fulfilled rows
        end).

Definition exec (self : wrapper) (sql : list statement) : async unit :=
  λ w, let '(s, r) := drv_exec (raw self) sql (store w) in
       (emit (EvExec (raw self) sql) (with_store s w),
        match r with
        | Some err => Rejected err
        | None => Fulfilled tt
        end).

Definition close (self : wrapper) : async unit :=
  λ w, let '(s, r) := drv_close (raw self) (store w) in
       (emit (EvClose (raw self)) (with_store s w),
        match r with
        | Some err => Rejected err
        | None => Fulfilled tt
        end).

(** *** getDb *)

(** [native.exec('PRAGMA foreign_keys = ON;')] is called without a
    callback: whatever the driver reports is dropped.  The driver queues
    the statement ahead of everything a caller can send to the handle, so
    it is run here. *)
Definition getDb : async wrapper :=
  λ w, match dbInstance w with
       | Some inst => (w, Fulfilled inst)
       | None =>
           let '(s1, native) := drv_open (dbPath env) (store w) in
           let '(s2, _) := drv_exec native [PragmaForeignKeysOn] s1 in
           let inst := wrapDb native in
           (World s2 (Some inst)
              (trace w ++ [EvOpen (dbPath env) native;
                           EvExec native [PragmaForeignKeysOn]]),
            Fulfilled inst)
       end.

(** *** ensurePointsLedgerSchema *)

(** [names.includes(k)] where [names = cols.map(c => c.name)] *)
Definition includes (names : list (option value)) (k : string) : bool :=
  existsb (λ n, match n with
                | Some (VText s) => String.eqb s k
                | _ => false
                end) names.

Definition when (b : bool) (m : async unit) : async unit :=
  if b then m else ret tt.

Definition ensurePointsLedgerSchema (db : wrapper) : async unit :=
  bind (all db (PragmaTableInfo "points_ledger") []) (λ cols,
  let names := map (obj_get "name") cols in
  let hasSeriesId := includes names "series_id" in
  let hasMatchId := includes names "match_id" in
  bind (when (negb hasSeriesId)
          (bind (run db (AlterTableAddColumn "points_ledger" "series_id" INTEGER) [])
             (λ _, console_log "[Migration] Added points_ledger.series_id"))) (λ _,
  bind (when (negb hasMatchId)
          (bind (run db (AlterTableAddColumn "points_ledger" "match_id" INTEGER) [])
             (λ _, console_log "[Migration] Added points_ledger.match_id"))) (λ _,
  bind (run db BackfillSeriesId []) (λ _,
  bind (run db idx_series_user []) (λ _,
  bind (run db idx_match []) (λ _,
  console_log "[Migration] points_ledger schema ensured and backfilled.")))))).

(** *** initDb *)

(** [!count || count.c === 0] *)
Definition no_users (count : option row_obj) : bool :=
  match count with
  | None => true
  | Some row =>
      match obj_get "c" row with
      | Some (VInt n) => Z.eqb n 0
      | Some (VReal q) => bool_decide (q = Qc_of_Z 0)
      | _ => false
      end
  end.

Definition hash (password : string) (rounds : Z) : async string :=
  λ w, (emit (EvHash password rounds) w,
        Fulfilled (bcrypt_hash env password rounds)).

Definition bootstrap_admin (db : wrapper) : async unit :=
  let username := env_or env "BOOTSTRAP_ADMIN_USERNAME" "admin" in
  let password := env_or env "BOOTSTRAP_ADMIN_PASSWORD" "Admin@123" in
  let displayName := env_or env "BOOTSTRAP_ADMIN_DISPLAY_NAME" "Admin" in
  bind (hash password 10) (λ h,
  let now := now_iso env in
  bind (run db InsertUser
          [VText username; VText h; VText displayName; VInt 1; VText now]) (λ _,
  console_log ("Bootstrapped admin user: " +:+ username))).

Definition initDb : async unit :=
  bind getDb (λ db,
  bind (exec db schema_script) (λ _,
  bind (get db SelectCountUsers []) (λ count,
  bind (when (no_users count) (bootstrap_admin db)) (λ _,
  ensurePointsLedgerSchema db)))).

End Module.

Arguments world : clear implicits.
Arguments async : clear implicits.

(** ** SQLite, as far as the module's statements reach

    Identifiers are compared exactly (the module spells every identifier in
    lower case).  Stored values are kept as bound or copied: the module
    binds TEXT to TEXT columns and INTEGER to INTEGER columns, and the
    backfill copies between two INTEGER columns, where type affinity
    converts nothing. *)

Abbreviation row := (list value).

(** [t_seq] is the table's entry in sqlite_sequence (AUTOINCREMENT). *)
Record table := Table {
  t_def : table_def;
  t_rows : list row;
  t_seq : Z
}.

Record index_def := IndexDef { ix_table : string; ix_columns : list string }.

(** The catalogue and contents of the database file. *)
Record database := Database {
  db_tables : gmap string table;
  db_indexes : gmap string index_def
}.

(** Per-connection state: foreign-key enforcement is a property of the
    connection, off until the PRAGMA runs; [c_changes] and [c_last_rowid]
    are sqlite3_changes() and sqlite3_last_insert_rowid(). *)
Record connection := Connection {
  c_open : bool;
  c_foreign_keys : bool;
  c_changes : Z;
  c_last_rowid : Z
}.

(** The driver's store: the file at [dbPath] and the handles opened on it. *)
Record sqlite := Sqlite {
  db_file : database;
  conns : list connection
}.

Definition empty_database : database := Database ∅ ∅.

Definition sqlite_error (msg : string) : js_error := SqliteError "SQLITE_ERROR" msg.
Definition constraint_error (msg : string) : js_error := SqliteError "SQLITE_CONSTRAINT" msg.
Definition misuse_error : js_error := SqliteError "SQLITE_MISUSE" "Database is closed".
Definition range_error : js_error := SqliteError "SQLITE_RANGE" "column index out of range".

Definition ebind {A B} (m : js_error + A) (k : A → js_error + B) : js_error + B :=
  match m with
  | inl e => inl e
  | inr a => k a
  end.

Notation "'let?' x := m 'in' k" := (ebind m (λ x, k))
  (at level 10, x pattern, m at level 100, k at level 200).

Definition require (b : bool) (e : js_error) : js_error + unit :=
  if b then inr tt else inl e.

Definition or_fail {A} (o : option A) (e : js_error) : js_error + A :=
  match o with
  | Some a => inr a
  | None => inl e
  end.

Fixpoint col_index (n : string) (cs : list column) : option nat :=
  match cs with
  | [] => None
  | c :: cs' => if String.eqb (col_name c) n then Some 0%nat else S <$> col_index n cs'
  end.

Definition has_column (n : string) (cs : list column) : bool :=
  bool_decide (is_Some (col_index n cs)).

(** A record shorter than the column list reads NULL in the missing
    columns (the columns that ALTER TABLE added after it was written). *)
Definition cell (i : nat) (r : row) : value := default VNull (r !! i).

Definition set_cell (i : nat) (v : value) (r : row) : row :=
  <[i := v]> (r ++ replicate (Datatypes.S i - length r) VNull).

Definition is_null (v : value) : bool :=
  match v with
  | VNull => true
  | _ => false
  end.

(** The comparison operator [=]: NULL when an operand is NULL. *)
Definition sql_eq (a b : value) : option bool :=
  match a, b with
  | VNull, _ | _, VNull => None
  | VInt x, VInt y => Some (Z.eqb x y)
  | VInt x, VReal q | VReal q, VInt x => Some (bool_decide (Qc_of_Z x = q))
  | VReal p, VReal q => Some (bool_decide (p = q))
  | VText s, VText t => Some (String.eqb s t)
  | VBlob s, VBlob t => Some (String.eqb s t)
  | _, _ => Some false
  end.

(** A WHERE clause keeps a row when its condition is true (not NULL). *)
Definition sql_true (b : option bool) : bool := default false b.

Definition type_name (t : decl_type) : string :=
  match t with
  | INTEGER => "INTEGER"
  | TEXT => "TEXT"
  | REAL => "REAL"
  end.

Fixpoint index_of (n : string) (l : list string) : option nat :=
  match l with
  | [] => None
  | x :: l' => if String.eqb x n then Some 0%nat else S <$> index_of n l'
  end.

(** *** PRAGMA table_info *)

Definition pk_position (d : table_def) (c : column) : Z :=
  if col_pk c then 1%Z
  else match index_of (col_name c) (td_primary_key d) with
       | Some k => Z.of_nat (Datatypes.S k)
       | None => 0%Z
       end.

Definition table_info_row (d : table_def) (cid : nat) (c : column) : row_obj :=
  [ ("cid", VInt (Z.of_nat cid));
    ("name", VText (col_name c));
    ("type", VText (type_name (col_type c)));
    ("notnull", VInt (if col_notnull c then 1 else 0));
    ("dflt_value", match col_dflt c with Some (txt, _) => VText txt | None => VNull end);
    ("pk", VInt (pk_position d c)) ].

Definition table_info (db : database) (t : string) : list row_obj :=
  match db_tables db !! t with
  | Some tb => imap (table_info_row (t_def tb)) (td_columns (t_def tb))
  | None => []
  end.

(** *** Constraints *)

Definition notnull_ok (cs : list column) (r : row) : bool :=
  forallb (λ ic, negb (col_notnull ic.2) || negb (is_null (cell ic.1 r)))
    (imap pair cs).

Definition unique_ok (d : table_def) (old : list row) (r : row) : bool :=
  forallb (λ ic, negb (col_unique ic.2 || col_pk ic.2)
                 || forallb (λ o, negb (sql_true (sql_eq (cell ic.1 o) (cell ic.1 r)))) old)
    (imap pair (td_columns d))
  && match td_primary_key d with
     | [] => true
     | pk => forallb (λ o, negb (forallb (λ n,
               match col_index n (td_columns d) with
               | Some i => sql_true (sql_eq (cell i o) (cell i r))
               | None => false
               end) pk)) old
     end.

(** One foreign key of a child row: a NULL child key refers to nothing,
    any other value needs a parent row with an equal key. *)
Definition fk_holds (db : database) (cs : list column) (r : row) (fk : foreign_key) : bool :=
  match col_index (fk_from fk) cs with
  | None => true
  | Some i =>
      is_null (cell i r)
      || match db_tables db !! fk_table fk with
         | None => false
         | Some p =>
             match col_index (fk_to fk) (td_columns (t_def p)) with
             | None => false
             | Some j => existsb (λ pr, sql_true (sql_eq (cell j pr) (cell i r))) (t_rows p)
             end
         end
  end.

Definition fks_ok (db : database) (d : table_def) (on : foreign_key → bool) (r : row) : bool :=
  forallb (λ fk, negb (on fk) || fk_holds db (td_columns d) r fk) (td_foreign_keys d).

(** *** INSERT INTO users *)

Definition insert_user_columns : list string :=
  ["username"; "password_hash"; "display_name"; "is_admin"; "created_at"].

Definition max_rowid (cs : list column) (rows : list row) : Z :=
  match list_find (λ c, col_pk c = true) cs with
  | Some (i, _) =>
      foldr (λ r acc, match cell i r with VInt n => Z.max n acc | _ => acc end) 0%Z rows
  | None => 0%Z
  end.

Definition new_user_row (cs : list column) (params : list value) (rowid : Z) : row :=
  map (λ c, match index_of (col_name c) insert_user_columns with
            | Some j => default VNull (params !! j)
            | None =>
                if col_pk c then VInt rowid
                else match col_dflt c with
                     | Some (_, v) => v
                     | None => VNull
                     end
            end) cs.

Definition set_table (n : string) (t : table) (db : database) : database :=
  Database (<[n := t]> (db_tables db)) (db_indexes db).

(** What a statement leaves behind: the file, the connection, and the
    result rows handed to [get] and [all]. *)
Record outcome := Outcome {
  o_db : database;
  o_conn : connection;
  o_rows : list row_obj
}.

Definition insert_user (c : connection) (params : list value) (db : database)
  : js_error + outcome :=
  let? _ := require (length params <=? 5)%nat range_error in
  let? t := or_fail (db_tables db !! "users") (sqlite_error "no such table: users") in
  let d := t_def t in
  let? _ := require (forallb (λ n, has_column n (td_columns d)) insert_user_columns)
              (sqlite_error "table users has no column named") in
  let rowid := (1 + Z.max (t_seq t) (max_rowid (td_columns d) (t_rows t)))%Z in
  let r := new_user_row (td_columns d) params rowid in
  let? _ := require (notnull_ok (td_columns d) r)
              (constraint_error "NOT NULL constraint failed: users") in
  let? _ := require (unique_ok d (t_rows t) r)
              (constraint_error "UNIQUE constraint failed: users") in
  let? _ := require (negb (c_foreign_keys c) || fks_ok db d (λ _, true) r)
              (constraint_error "FOREIGN KEY constraint failed") in
  let t' := Table d (t_rows t ++ [r]) (if td_autoincrement d then rowid else t_seq t) in
  inr (Outcome (set_table "users" t' db)
         (Connection (c_open c) (c_foreign_keys c) 1 rowid) []).

(** *** ALTER TABLE ADD COLUMN

    The stored records are not rewritten; see [cell]. *)
Definition add_column (t cname : string) (ty : decl_type) (db : database)
  : js_error + database :=
  let? tb := or_fail (db_tables db !! t) (sqlite_error ("no such table: " +:+ t)) in
  let d := t_def tb in
  let? _ := require (negb (has_column cname (td_columns d)))
              (sqlite_error ("duplicate column name: " +:+ cname)) in
  let d' := TableDef (td_columns d ++ [col cname ty false]) (td_autoincrement d)
              (td_primary_key d) (td_foreign_keys d) in
  inr (set_table t (Table d' (t_rows tb) (t_seq tb)) db).

(** *** The backfill UPDATE *)

(** WHERE (series_id IS NULL OR series_id = '') AND match_id IS NOT NULL *)
Definition needs_backfill (sid mid : nat) (r : row) : bool :=
  (is_null (cell sid r) || sql_true (sql_eq (cell sid r) (VText "")))
  && negb (is_null (cell mid r)).

(** (SELECT m.series_id FROM matches m WHERE m.id = points_ledger.match_id):
    the value in the first row found, NULL when there is none. *)
Definition match_series (m_id m_sid : nat) (ms : list row) (match_id : value) : value :=
  match List.find (λ m, sql_true (sql_eq (cell m_id m) match_id)) ms with
  | Some m => cell m_sid m
  | None => VNull
  end.

Definition backfill_row (sid mid m_id m_sid : nat) (ms : list row) (r : row) : row :=
  if needs_backfill sid mid r
  then set_cell sid (match_series m_id m_sid ms (cell mid r)) r
  else r.

(** Only the series_id column is assigned, so only its NOT NULL
    declaration and the foreign keys on it are checked, on the rows the
    WHERE clause selected and against the state the statement leaves. *)
Definition backfill (c : connection) (db : database) : js_error + outcome :=
  let? pl := or_fail (db_tables db !! "points_ledger")
               (sqlite_error "no such table: points_ledger") in
  let cs := td_columns (t_def pl) in
  let? sid := or_fail (col_index "series_id" cs) (sqlite_error "no such column: series_id") in
  let? m := or_fail (db_tables db !! "matches") (sqlite_error "no such table: matches") in
  let mcs := td_columns (t_def m) in
  let? m_sid := or_fail (col_index "series_id" mcs) (sqlite_error "no such column: m.series_id") in
  let? m_id := or_fail (col_index "id" mcs) (sqlite_error "no such column: m.id") in
  let? mid := or_fail (col_index "match_id" cs) (sqlite_error "no such column: match_id") in
  let selected := filter (λ r, needs_backfill sid mid r = true) (t_rows pl) in
  let rows' := map (backfill_row sid mid m_id m_sid (t_rows m)) (t_rows pl) in
  let updated := map (backfill_row sid mid m_id m_sid (t_rows m)) selected in
  let db' := set_table "points_ledger" (Table (t_def pl) rows' (t_seq pl)) db in
  let? _ := require (forallb (λ r, match cs !! sid with
                                   | Some cl => negb (col_notnull cl && is_null (cell sid r))
                                   | None => true
                                   end) updated)
              (constraint_error "NOT NULL constraint failed: points_ledger.series_id") in
  let? _ := require (negb (c_foreign_keys c)
                     || forallb (fks_ok db' (t_def pl)
                                   (λ fk, String.eqb (fk_from fk) "series_id")) updated)
              (constraint_error "FOREIGN KEY constraint failed") in
  inr (Outcome db'
         (Connection (c_open c) (c_foreign_keys c) (Z.of_nat (length selected))
            (c_last_rowid c)) []).

(** *** CREATE TABLE / CREATE INDEX ... IF NOT EXISTS *)

Definition distinct_names (cs : list column) : bool :=
  bool_decide (NoDup (map col_name cs)).

Definition create_table (n : string) (d : table_def) (db : database)
  : js_error + database :=
  match db_tables db !! n with
  | Some _ => inr db
  | None =>
      let? _ := require (bool_decide (db_indexes db !! n = None))
                  (sqlite_error ("there is already an index named " +:+ n)) in
      let? _ := require (distinct_names (td_columns d))
                  (sqlite_error "duplicate column name") in
      inr (set_table n (Table d [] 0) db)
  end.

Definition create_index (n t : string) (cols : list string) (db : database)
  : js_error + database :=
  let? tb := or_fail (db_tables db !! t) (sqlite_error ("no such table: main." +:+ t)) in
  let? _ := require (bool_decide (db_tables db !! n = None))
              (sqlite_error ("there is already a table named " +:+ n)) in
  match db_indexes db !! n with
  | Some _ => inr db
  | None =>
      let? _ := require (forallb (λ cn, has_column cn (td_columns (t_def tb))) cols)
                  (sqlite_error ("table " +:+ t +:+ " has no column named")) in
      inr (Database (db_tables db) (<[n := IndexDef t cols]> (db_indexes db)))
  end.

(** *** One statement on one connection *)

Definition unchanged (c : connection) (db : database) (rows : list row_obj) : outcome :=
  Outcome db c rows.

Definition no_params (params : list value) : js_error + unit :=
  require (bool_decide (params = [])) range_error.

Definition step (c : connection) (sql : statement) (params : list value) (db : database)
  : js_error + outcome :=
  match sql with
  | PragmaForeignKeysOn =>
      let? _ := no_params params in
      inr (Outcome db (Connection (c_open c) true (c_changes c) (c_last_rowid c)) [])
  | CreateTableIfNotExists n d =>
      let? _ := no_params params in
      let? db' := create_table n d db in
      inr (unchanged c db' [])
  | SelectCountUsers =>
      let? _ := no_params params in
      let? t := or_fail (db_tables db !! "users") (sqlite_error "no such table: users") in
      inr (unchanged c db [[("c", VInt (Z.of_nat (length (t_rows t))))]])
  | InsertUser => insert_user c params db
  | PragmaTableInfo t =>
      let? _ := no_params params in
      inr (unchanged c db (table_info db t))
  | AlterTableAddColumn t cname ty =>
      let? _ := no_params params in
      let? db' := add_column t cname ty db in
      inr (unchanged c db' [])
  | BackfillSeriesId =>
      let? _ := no_params params in
      backfill c db
  | CreateIndexIfNotExists n t cols =>
      let? _ := no_params params in
      let? db' := create_index n t cols db in
      inr (unchanged c db' [])
  end.

(** *** The driver over this model *)

Definition open_conn (s : sqlite) (h : handle) : js_error + connection :=
  match conns s !! h with
  | Some c => if c_open c then inr c else inl misuse_error
  | None => inl misuse_error
  end.

Definition commit (h : handle) (o : outcome) (s : sqlite) : sqlite :=
  Sqlite (o_db o) (<[h := o_conn o]> (conns s)).

Definition sqlite_statement {A} (result : outcome → A) (h : handle) (sql : statement)
    (params : list value) (s : sqlite) : sqlite * (js_error + A) :=
  match open_conn s h with
  | inl e => (s, inl e)
  | inr c =>
      match step c sql params (db_file s) with
      | inl e => (s, inl e)
      | inr o => (commit h o s, inr (result o))
      end
  end.

(** [exec] runs the statements of the script one after the other and stops
    at the first error; what ran before it stays. *)
Fixpoint sqlite_exec (h : handle) (script : list statement) (s : sqlite)
  : sqlite * option js_error :=
  match script with
  | [] => (s, match open_conn s h with inl e => Some e | inr _ => None end)
  | sql :: rest =>
      match sqlite_statement (λ _, tt) h sql [] s with
      | (s', inl e) => (s', Some e)
      | (s', inr _) => sqlite_exec h rest s'
      end
  end.

Definition sqlite_close (h : handle) (s : sqlite) : sqlite * option js_error :=
  match open_conn s h with
  | inl e => (s, Some e)
  | inr c =>
      (Sqlite (db_file s)
         (<[h := Connection false (c_foreign_keys c) (c_changes c) (c_last_rowid c)]> (conns s)),
       None)
  end.

Definition sqlite_open (path : string) (s : sqlite) : sqlite * handle :=
  (Sqlite (db_file s) (conns s ++ [Connection true false 0 0]), length (conns s)).

#[global] Instance sqlite_driver : Sqlite3 sqlite := {
  drv_open := sqlite_open;
  drv_exec := sqlite_exec;
  drv_run := sqlite_statement (λ o, RunInfo (c_changes (o_conn o)) (c_last_rowid (o_conn o)));
  drv_get := sqlite_statement (λ o, head (o_rows o));
  drv_all := sqlite_statement o_rows;
  drv_close := sqlite_close
}.

(** A process that has just loaded the module, on an empty database file. *)
Definition fresh_sqlite : sqlite := Sqlite empty_database [].

Definition fresh_world : world sqlite := World fresh_sqlite None [].

(** ** Calls from the rest of the application

    The module exports [getDb] and [initDb]; the wrapper is reachable only
    as the result of [getDb], that is as the cached instance. *)
Inductive api_call :=
  | CallGetDb
  | CallInitDb
  | CallRun (sql : statement) (params : list value)
  | CallGet (sql : statement) (params : list value)
  | CallAll (sql : statement) (params : list value)
  | CallExec (script : list statement)
  | CallClose.

(** The four wrapped operations of the claim on error reporting. *)
Inductive operation :=
  | OpRun (sql : statement) (params : list value)
  | OpGet (sql : statement) (params : list value)
  | OpAll (sql : statement) (params : list value)
  | OpExec (script : list statement).

Definition rejection {A} (r : settled A) : option js_error :=
  match r with
  | Fulfilled _ => None
  | Rejected e => Some e
  end.

Definition is_open_event (e : event) : bool :=
  match e with
  | EvOpen _ _ => true
  | _ => false
  end.

Definition opens (t : list event) : nat := length (List.filter is_open_event t).

Section Calls.
Context {S : Type} `{!Sqlite3 S}.
Variable env : environment.

Definition on_instance {A} (f : wrapper → async S A) (w : world S) : world S :=
  match dbInstance w with
  | Some db => (f db w).1
  | None => w
  end.

Definition api_step (w : world S) (c : api_call) : world S :=
  match c with
  | CallGetDb => (getDb env w).1
  | CallInitDb => (initDb env w).1
  | CallRun sql params => on_instance (λ db, run db sql params) w
  | CallGet sql params => on_instance (λ db, get db sql params) w
  | CallAll sql params => on_instance (λ db, all db sql params) w
  | CallExec script => on_instance (λ db, exec db script) w
  | CallClose => on_instance close w
  end.

Definition api_run (cs : list api_call) (w : world S) : world S := foldl api_step w cs.

(** The error the driver passes to the callback of an operation. *)
Definition driver_error (db : wrapper) (op : operation) (s : S) : option js_error :=
  match op with
  | OpRun sql params =>
      match (drv_run (raw db) sql params s).2 with inl e => Some e | inr _ => None end
  | OpGet sql params =>
      match (drv_get (raw db) sql params s).2 with inl e => Some e | inr _ => None end
  | OpAll sql params =>
      match (drv_all (raw db) sql params s).2 with inl e => Some e | inr _ => None end
  | OpExec script => (drv_exec (raw db) script s).2
  end.

(** What the promise returned by the wrapped operation is rejected with. *)
Definition wrapped_rejection (db : wrapper) (op : operation) (w : world S)
  : option js_error :=
  match op with
  | OpRun sql params => rejection (run db sql params w).2
  | OpGet sql params => rejection (get db sql params w).2
  | OpAll sql params => rejection (all db sql params w).2
  | OpExec script => rejection (exec db script w).2
  end.

(** An async computation that neither opens a connection nor touches
    the cached instance. *)
Definition quiet {A} (m : async S A) : Prop :=
  ∀ w, dbInstance (m w).1 = dbInstance w ∧ opens (trace (m w).1) = opens (trace w).

(** The history only grows. *)
Definition appends {A} (m : async S A) : Prop :=
  ∀ w, ∃ t, trace (m w).1 = trace w ++ t.

(** The world a wrapped operation leaves behind. *)
Definition perform (db : wrapper) (op : operation) (w : world S) : world S :=
  match op with
  | OpRun sql params => (run db sql params w).1
  | OpGet sql params => (get db sql params w).1
  | OpAll sql params => (all db sql params w).1
  | OpExec script => (exec db script w).1
  end.

(** The entry a wrapped operation adds to the history. *)
Definition event_of (db : wrapper) (op : operation) : event :=
  match op with
  | OpRun sql params => EvRun (raw db) sql params
  | OpGet sql params => EvGet (raw db) sql params
  | OpAll sql params => EvAll (raw db) sql params
  | OpExec script => EvExec (raw db) script
  end.

(** An async computation over the wrapper [db] that is rejected only with
    the error the driver reported for the operation it issued last. *)
Definition rejects_as_driver {A} (db : wrapper) (m : async S A) : Prop :=
  ∀ w w' e, m w = (w', Rejected e) →
    ∃ op w0 t, trace w0 = trace w ++ t
               ∧ driver_error db op (store w0) = Some e
               ∧ w' = perform db op w0.
End Calls.

(** A driver whose database file cannot be opened: the handle exists, and
    every operation on it reports SQLITE_CANTOPEN. *)
Definition cantopen_error : js_error :=
  SqliteError "SQLITE_CANTOPEN" "unable to open database file".

Definition unopenable_driver : Sqlite3 unit := {|
  drv_open := λ _ s, (s, 0%nat);
  drv_exec := λ _ _ s, (s, Some cantopen_error);
  drv_run := λ _ _ _ s, (s, inl cantopen_error);
  drv_get := λ _ _ _ s, (s, inl cantopen_error);
  drv_all := λ _ _ _ s, (s, inl cantopen_error);
  drv_close := λ _ s, (s, Some cantopen_error)
|}.

Definition test_env : environment :=
  Environment (λ _, None) (λ p, p) "/app/data/db.sqlite"
    (λ password rounds, "$2b$10$" +:+ password) "2024-01-01T00:00:00.000Z".

(** ** Deleting referenced rows

    db.js issues no DELETE; the rest of the application does, against the
    schema above.  This is SQLite's treatment of DELETE FROM t WHERE col =
    key under the declared foreign keys: with enforcement off on the
    connection nothing but the named rows goes; with enforcement on, ON
    DELETE CASCADE removes the referring rows in turn, and a reference left
    behind under NO ACTION fails the statement. *)







(** ** Vocabulary of the properties *)

(** The world in which the handle of [inst], one of the handles [conns0],
    is in the state [c] and the file holds [db]. *)
Definition on_handle (conns0 : list connection) (inst : wrapper)
    (cached : option wrapper) (c : connection) (db : database) (t : list event)
  : world sqlite :=
  World (Sqlite db (<[raw inst := c]> conns0)) cached t.

(** A script that runs to its end, statement by statement. *)
Fixpoint script_steps (c : connection) (script : list statement) (db : database)
  : js_error + (connection * database) :=
  match script with
  | [] => inr (c, db)
  | sql :: rest =>
      let? o := step c sql [] db in
      script_steps (o_conn o) rest (o_db o)
  end.

(** CREATE TABLE IF NOT EXISTS on the catalogue. *)
Definition ensure_table (m : gmap string table) (nd : string * table_def)
  : gmap string table :=
  match m !! nd.1 with
  | Some _ => m
  | None => <[nd.1 := Table nd.2 [] 0]> m
  end.

Definition with_foreign_keys (c : connection) : connection :=
  Connection (c_open c) true (c_changes c) (c_last_rowid c).

Definition ledger_names (db : database) : list (option value) :=
  map (obj_get "name") (table_info db "points_ledger").

Definition add_series_id : statement :=
  AlterTableAddColumn "points_ledger" "series_id" INTEGER.

Definition add_match_id : statement :=
  AlterTableAddColumn "points_ledger" "match_id" INTEGER.

(** The statements of ensurePointsLedgerSchema on one connection. *)
Definition migrate_steps (c : connection) (db : database) : js_error + outcome :=
  let names := ledger_names db in
  let? o1 := (if includes names "series_id" then inr (Outcome db c [])
              else step c add_series_id [] db) in
  let? o2 := (if includes names "match_id" then inr o1
              else step (o_conn o1) add_match_id [] (o_db o1)) in
  let? o3 := step (o_conn o2) BackfillSeriesId [] (o_db o2) in
  let? o4 := step (o_conn o3) idx_series_user [] (o_db o3) in
  step (o_conn o4) idx_match [] (o_db o4).

(** What a completed migration adds to the history. *)
Definition migrate_trace (h : handle) (names : list (option value)) : list event :=
  [EvAll h (PragmaTableInfo "points_ledger") []]
  ++ (if includes names "series_id" then []
      else [EvRun h add_series_id []; EvLog "[Migration] Added points_ledger.series_id"])
  ++ (if includes names "match_id" then []
      else [EvRun h add_match_id []; EvLog "[Migration] Added points_ledger.match_id"])
  ++ [EvRun h BackfillSeriesId []; EvRun h idx_series_user []; EvRun h idx_match [];
      EvLog "[Migration] points_ledger schema ensured and backfilled."].

Definition admin_params (env : environment) : list value :=
  [VText (env_or env "BOOTSTRAP_ADMIN_USERNAME" "admin");
   VText (bcrypt_hash env (env_or env "BOOTSTRAP_ADMIN_PASSWORD" "Admin@123") 10);
   VText (env_or env "BOOTSTRAP_ADMIN_DISPLAY_NAME" "Admin");
   VInt 1;
   VText (now_iso env)].

Definition bootstrap_trace (env : environment) (h : handle) : list event :=
  [EvHash (env_or env "BOOTSTRAP_ADMIN_PASSWORD" "Admin@123") 10;
   EvRun h InsertUser (admin_params env);
   EvLog ("Bootstrapped admin user: " +:+ env_or env "BOOTSTRAP_ADMIN_USERNAME" "admin")].

Definition index_added (n t : string) (cols : list string) (db : database) : database :=
  match db_indexes db !! n with
  | Some _ => db
  | None => Database (db_tables db) (<[n := IndexDef t cols]> (db_indexes db))
  end.

Definition add_col (n : string) (tb : table) : table :=
  Table (TableDef (td_columns (t_def tb) ++ [col n INTEGER false])
           (td_autoincrement (t_def tb)) (td_primary_key (t_def tb))
           (td_foreign_keys (t_def tb)))
    (t_rows tb) (t_seq tb).

(** The ledger table once the column [n] has been ensured. *)
Definition ledger_with (n : string) (tb : table) : table :=
  if has_column n (td_columns (t_def tb)) then tb else add_col n tb.

(** The ledger table after both guarded ALTERs. *)
Definition ledger_ready (tb : table) : table :=
  ledger_with "match_id" (ledger_with "series_id" tb).

Definition is_alter (e : event) : bool :=
  match e with
  | EvRun _ (AlterTableAddColumn _ _ _) _ => true
  | _ => false
  end.

Definition schema_only : database :=
  Database (list_to_map (map (λ nd, (nd.1, Table nd.2 [] 0)) schema_tables)) ∅.

Definition admin_row (env : environment) : row := VInt 1 :: admin_params env.

(** The file after the first initDb on an empty file: the six tables as
    declared, the two ledger indexes, and the one bootstrap user. *)
Definition bootstrapped_database (env : environment) : database :=
  Database
    (<["users" := Table users_def [admin_row env] 1]> (db_tables schema_only))
    (list_to_map
       [("idx_points_ledger_series_user", IndexDef "points_ledger" ["series_id"; "user_id"]);
        ("idx_points_ledger_match", IndexDef "points_ledger" ["match_id"])]).

(** The history a repeated initDb adds: no INSERT, no ALTER TABLE. *)
Definition repeat_trace (h : handle) : list event :=
  [EvExec h schema_script;
   EvGet h SelectCountUsers [];
   EvAll h (PragmaTableInfo "points_ledger") [];
   EvRun h BackfillSeriesId [];
   EvRun h idx_series_user [];
   EvRun h idx_match [];
   EvLog "[Migration] points_ledger schema ensured and backfilled."].

Definition declared_not_null (n : string) (d : table_def) : Prop :=
  ∃ c, c ∈ td_columns d ∧ col_name c = n ∧ col_notnull c = true.

(** The WHERE clause of the backfill, on a row of the migrated ledger. *)
Definition selected (sid mid : nat) (r : row) : Prop :=
  (cell sid r = VNull ∨ cell sid r = VText "") ∧ cell mid r ≠ VNull.



Definition rows_of (t : string) (db : database) : list row :=
  match db_tables db !! t with
  | Some tb => t_rows tb
  | None => []
  end.


(** The file once the schema script has run: the tables that were there,
    and the missing ones of the six, empty. *)
Definition with_schema (db : database) : database :=
  Database (foldl ensure_table (db_tables db) schema_tables) (db_indexes db).

(** The events of bootstrapping the admin: the bcrypt hash and the INSERT. *)
Definition is_bootstrap (e : event) : bool :=
  match e with
  | EvHash _ _ => true
  | EvRun _ InsertUser _ => true
  | _ => false
  end.

(** The value a row of [tb] holds in the column called [n]. *)
Definition field (tb : table) (n : string) (r : row) : option value :=
  (λ i, cell i r) <$> col_index n (td_columns (t_def tb)).

(** ** Sample databases *)

Definition enforcing : connection := Connection true true 0 0.

Definition with_rows (t : string) (rows : list row) (db : database) : database :=
  match db_tables db !! t with
  | Some tb => set_table t (Table (t_def tb) rows (t_seq tb)) db
  | None => db
  end.

(** One series (id 7) created by the admin, with one member, one match
    (id 3), one prediction on it and, optionally, one ledger entry. *)
Definition league (ledger : list row) : database :=
  with_rows "points_ledger" ledger
    (with_rows "predictions"
       [[VInt 3; VInt 1; VText "A"; VText "2024-01-02T00:00:00.000Z"; VInt 0]]
       (with_rows "matches"
          [[VInt 3; VInt 7; VText "Final"; VText "cricket"; VText "X"; VText "Y";
            VText "2024-01-03T00:00:00.000Z"; VInt 30; VReal (Qc_of_Z 50);
            VText "scheduled"; VNull; VNull]]
          (with_rows "series_members" [[VInt 7; VInt 1; VText "2024-01-01T00:00:00.000Z"]]
             (with_rows "series"
                [[VInt 7; VText "Cup"; VNull; VText "2024-01-01"; VNull; VInt 0; VInt 1;
                  VText "2024-01-01T00:00:00.000Z"]]
                (bootstrapped_database test_env))))).


(** A ledger created before series_id existed: one entry for match 3 (of
    series 7) and one for a match that is gone. *)
Definition legacy_ledger_def : table_def :=
  TableDef
    [ col_id;
      col "user_id" INTEGER true;
      col "match_id" INTEGER false;
      col "points" REAL true;
      col "reason" TEXT true;
      col "created_at" TEXT true ]
    true [] [].

Definition legacy_ledger : table :=
  Table legacy_ledger_def
    [ [VInt 1; VInt 1; VInt 3; VReal (Qc_of_Z 50); VText "win";
       VText "2024-01-04T00:00:00.000Z"];
      [VInt 2; VInt 1; VInt 99; VReal (Qc_of_Z 50); VText "win";
       VText "2024-01-05T00:00:00.000Z"] ]
    2.

Definition legacy_matches : table :=
  Table matches_def
    [ [VInt 3; VInt 7; VText "Final"; VText "cricket"; VText "X"; VText "Y";
       VText "2024-01-03T00:00:00.000Z"; VInt 30; VReal (Qc_of_Z 50);
       VText "scheduled"; VNull; VNull] ]
    3.

Definition legacy_database : database :=
  Database (<["points_ledger" := legacy_ledger]> {["matches" := legacy_matches]}) ∅.

Definition legacy_world : world sqlite :=
  World (Sqlite legacy_database [enforcing]) (Some (wrapDb test_env 0)) [].

Definition opened_world : world sqlite := (getDb test_env fresh_world).1.

(** A ledger from before match_id and series_id existed. *)
Definition oldest_ledger : table :=
  Table
    (TableDef
       [ col_id;
         col "user_id" INTEGER true;
         col "points" REAL true;
         col "reason" TEXT true;
         col "created_at" TEXT true ]
       true [] [])
    [ [VInt 1; VInt 1; VReal (Qc_of_Z 50); VText "win"; VText "2024-01-04T00:00:00.000Z"] ]
    1.

Definition oldest_world : world sqlite :=
  World
    (Sqlite (Database (<["points_ledger" := oldest_ledger]> {["matches" := legacy_matches]}) ∅)
       [enforcing])
    (Some (wrapDb test_env 0)) [].

(** A ledger as the module creates it, with an entry whose series_id is the
    empty string and whose match (99) does not exist. *)
Definition stale_entry : row :=
  [VInt 1; VInt 1; VInt 99; VText ""; VReal (Qc_of_Z 50); VText "win";
   VText "2024-01-04T00:00:00.000Z"].

Definition stale_world : world sqlite :=
  World (Sqlite (league [stale_entry]) [enforcing]) (Some (wrapDb test_env 0)) [].

(** The process after its first initDb on an empty file. *)
Definition initialised_world : world sqlite := (initDb test_env fresh_world).1.

(** * Properties *)

(** ** The promise wrapper and the singleton, for every driver *)

Section Generic.
Context {S : Type} `{!Sqlite3 S}.
Variable env : environment.



Lemma opens_snoc t e : opens (t ++ [e]) = (opens t + (if is_open_event e then 1 else 0))%nat.
Proof.
  unfold opens. rewrite List.filter_app, length_app. simpl.
  by destruct (is_open_event e).
Qed.

Lemma quiet_ret {A} (a : A) : quiet (ret (S := S) a).
Proof. by intros w. Qed.

Lemma quiet_bind {A B} (m : async S A) (k : A → async S B) :
  quiet m → (∀ a, quiet (k a)) → quiet (bind m k).
Proof.
  intros Hm Hk w. unfold bind. specialize (Hm w).
  destruct (m w) as [w1 [a|e]]; simpl in *; [|done].
  destruct (Hk a w1) as [-> ->]. done.
Qed.

Lemma quiet_when b (m : async S unit) : quiet m → quiet (when b m).
Proof. destruct b; [done | intros _; apply quiet_ret]. Qed.

Lemma quiet_console_log line : quiet (console_log (S := S) line).
Proof. intros w. simpl. rewrite opens_snoc. simpl. split; [done | lia]. Qed.

Lemma quiet_hash p r : quiet (hash (S := S) env p r).
Proof. intros w. simpl. rewrite opens_snoc. simpl. split; [done | lia]. Qed.

Lemma quiet_run db sql params : quiet (run db sql params).
Proof.
  intros w. unfold run. destruct (drv_run _ _ _ _) as [s r]. simpl.
  rewrite opens_snoc. simpl. split; [done | lia].
Qed.

Lemma quiet_get db sql params : quiet (get db sql params).
Proof.
  intros w. unfold get. destruct (drv_get _ _ _ _) as [s r]. simpl.
  rewrite opens_snoc. simpl. split; [done | lia].
Qed.

Lemma quiet_all db sql params : quiet (all db sql params).
Proof.
  intros w. unfold all. destruct (drv_all _ _ _ _) as [s r]. simpl.
  rewrite opens_snoc. simpl. split; [done | lia].
Qed.

Lemma quiet_exec db script : quiet (exec db script).
Proof.
  intros w. unfold exec. destruct (drv_exec _ _ _) as [s r]. simpl.
  rewrite opens_snoc. simpl. split; [done | lia].
Qed.

Lemma quiet_close db : quiet (close db).
Proof.
  intros w. unfold close. destruct (drv_close _ _) as [s r]. simpl.
  rewrite opens_snoc. simpl. split; [done | lia].
Qed.

Lemma quiet_ensurePointsLedgerSchema db : quiet (ensurePointsLedgerSchema db).
Proof.
  unfold ensurePointsLedgerSchema.
  repeat first
    [ apply quiet_bind; [|intros ?] | apply quiet_when | apply quiet_all
    | apply quiet_run | apply quiet_console_log ].
Qed.

Lemma quiet_bootstrap_admin db : quiet (bootstrap_admin env db).
Proof.
  unfold bootstrap_admin.
  repeat first
    [ apply quiet_bind; [|intros ?] | apply quiet_hash
    | apply quiet_run | apply quiet_console_log ].
Qed.

Lemma getDb_cached w inst :
  dbInstance w = Some inst → getDb env w = (w, Fulfilled inst).
Proof. intros H. unfold getDb. by rewrite H. Qed.

Lemma bind_getDb_cached {B} (k : wrapper → async S B) w inst :
  dbInstance w = Some inst → bind (getDb env) k w = k inst w.
Proof. intros H. unfold bind. by rewrite (getDb_cached _ _ H). Qed.

Lemma initDb_cached w inst :
  dbInstance w = Some inst →
  dbInstance (initDb env w).1 = Some inst
  ∧ opens (trace (initDb env w).1) = opens (trace w).
Proof.
  intros H. unfold initDb. rewrite (bind_getDb_cached _ _ _ H).
  rewrite <- H.
  apply (quiet_bind (exec inst schema_script)); [apply quiet_exec | intros _].
  apply quiet_bind; [apply quiet_get | intros count].
  apply quiet_bind; [apply quiet_when, quiet_bootstrap_admin | intros _].
  apply quiet_ensurePointsLedgerSchema.
Qed.

Lemma api_step_cached w inst c :
  dbInstance w = Some inst →
  dbInstance (api_step env w c) = Some inst
  ∧ opens (trace (api_step env w c)) = opens (trace w).
Proof.
  intros H. destruct c; simpl; unfold on_instance; rewrite ?H.
  - by rewrite (getDb_cached _ _ H).
  - by apply initDb_cached.
  - rewrite <- H. apply quiet_run.
  - rewrite <- H. apply quiet_get.
  - rewrite <- H. apply quiet_all.
  - rewrite <- H. apply quiet_exec.
  - rewrite <- H. apply quiet_close.
Qed.

Lemma api_run_cached cs w inst :
  dbInstance w = Some inst →
  dbInstance (api_run env cs w) = Some inst
  ∧ opens (trace (api_run env cs w)) = opens (trace w).
Proof.
  revert w. induction cs as [|c cs IH]; intros w H; [done|].
  simpl. destruct (api_step_cached w inst c H) as [H1 H2].
  destruct (IH _ H1) as [H3 H4]. split; [done | congruence].
Qed.

Lemma getDb_sets_instance w :
  ∃ inst, getDb env w = ((getDb env w).1, Fulfilled inst)
          ∧ dbInstance (getDb env w).1 = Some inst.
Proof.
  unfold getDb. destruct (dbInstance w) as [inst|] eqn:H; [by eauto|].
  destruct (drv_open _ _) as [s1 native].
  destruct (drv_exec _ _ _) as [s2 r]. simpl. eauto.
Qed.

(** C2, as the code has it: for each of run, get, all and exec, and for
    every query and parameter list, when the driver calls back with an
    error the returned promise is rejected with that very error object. *)
Theorem wrapped_operation_rejects_with_driver_error db op (w : world S) e :
  driver_error db op (store w) = Some e →
  wrapped_rejection db op w = Some e.
Proof.
  destruct op as [sql params|sql params|sql params|script]; simpl.
  - unfold run. destruct (drv_run _ _ _ _) as [s [e'|x]]; simpl; congruence.
  - unfold get. destruct (drv_get _ _ _ _) as [s [e'|x]]; simpl; congruence.
  - unfold all. destruct (drv_all _ _ _ _) as [s [e'|x]]; simpl; congruence.
  - unfold exec. destruct (drv_exec _ _ _) as [s [e'|]]; simpl; congruence.
Qed.

Lemma getDb_first_opens (w : world S) :
  dbInstance w = None →
  ∃ inst, dbInstance (getDb env w).1 = Some inst
          ∧ opens (trace (getDb env w).1) = Datatypes.S (opens (trace w)).
Proof.
  intros Hw. unfold getDb. rewrite Hw.
  destruct (drv_open _ _) as [s1 native]. destruct (drv_exec _ _ _) as [s2 r].
  simpl. eexists. split; [done|].
  change (trace w ++ [EvOpen (dbPath env) native; EvExec native [PragmaForeignKeysOn]])
    with (trace w ++ [EvOpen (dbPath env) native] ++ [EvExec native [PragmaForeignKeysOn]]).
  rewrite app_assoc, !opens_snoc. simpl. lia.
Qed.

Lemma api_run_opens_once cs : ∀ (w : world S),
  dbInstance w = None → (opens (trace (api_run env cs w)) ≤ Datatypes.S (opens (trace w)))%nat.
Proof.
  induction cs as [|c cs IH]; intros w Hw; [simpl; lia|].
  assert (∀ w1 inst, dbInstance w1 = Some inst →
                     opens (trace w1) = Datatypes.S (opens (trace w)) →
                     (opens (trace (api_run env cs w1)) ≤ Datatypes.S (opens (trace w)))%nat)
    as Hdone.
  { intros w1 inst H1 H2. destruct (api_run_cached cs w1 inst H1) as [_ ->]. lia. }
  destruct c; simpl; unfold on_instance; rewrite ?Hw; try by apply IH.
  - destruct (getDb_first_opens w Hw) as (inst & H1 & H2). by eapply Hdone.
  - destruct (getDb_first_opens w Hw) as (inst & H1 & H2).
    destruct (getDb_sets_instance w) as (inst' & Hget & Hinst').
    destruct (initDb_cached (getDb env w).1 inst H1) as [H3 H4].
    assert (initDb env w = initDb env (getDb env w).1) as Heq.
    { unfold initDb at 1. unfold bind at 1. rewrite Hget.
      unfold initDb. rewrite (bind_getDb_cached _ _ inst') by done. done. }
    rewrite Heq. eapply Hdone; [exact H3|]. by rewrite H4.
Qed.

(** C7: getDb settles with the cached wrapper; whatever the application
    calls afterwards, every later getDb settles with that same wrapper and
    no further connection is opened.  Only a call that finds no cached
    instance opens a connection, and the statement it issues on the new
    handle straight away is PRAGMA foreign_keys = ON.  From the state in
    which the module is loaded, no sequence of calls opens more than one
    connection. *)
Theorem getDb_singleton (w : world S) :
  ∃ inst,
    getDb env w = ((getDb env w).1, Fulfilled inst)
    ∧ (∀ cs, let w' := api_run env cs (getDb env w).1 in
             getDb env w' = (w', Fulfilled inst)
             ∧ opens (trace w') = opens (trace (getDb env w).1))
    ∧ match dbInstance w with
      | Some cached => inst = cached ∧ (getDb env w).1 = w
      | None =>
          let '(s1, native) := drv_open (dbPath env) (store w) in
          inst = wrapDb env native
          ∧ (getDb env w).1
            = World (drv_exec native [PragmaForeignKeysOn] s1).1 (Some inst)
                (trace w ++ [EvOpen (dbPath env) native;
                             EvExec native [PragmaForeignKeysOn]])
      end
    ∧ ∀ cs, (opens (trace (api_run env cs (World (store w) None []))) ≤ 1)%nat.
Proof.
  destruct (getDb_sets_instance w) as (inst & Hget & Hinst).
  exists inst. split; [done|]. split; [|split].
  - intros cs w'. destruct (api_run_cached cs _ _ Hinst) as [H1 H2].
    split; [by apply getDb_cached | done].
  - revert Hget Hinst. unfold getDb.
    destruct (dbInstance w) as [cached|] eqn:Hw; simpl.
    + intros [= <-] _. done.
    + destruct (drv_open _ _) as [s1 native].
      destruct (drv_exec _ _ _) as [s2 r]. simpl. intros [= <-] _. done.
  - intros cs. by apply (api_run_opens_once cs (World (store w) None [])).
Qed.


Lemma close_keeps_instance (w : world S) inst :
  dbInstance w = Some inst →
  let w' := (close inst w).1 in
  dbInstance w' = Some inst
  ∧ getDb env w' = (w', Fulfilled inst)
  ∧ ∀ cs, let w'' := api_run env cs w' in
          getDb env w'' = (w'', Fulfilled inst)
          ∧ opens (trace w'') = opens (trace w').
Proof.
  intros Hw w'.
  assert (dbInstance w' = Some inst) as Hw'.
  { subst w'. destruct (quiet_close inst w) as [-> _]. done. }
  split; [done|]. split; [by apply getDb_cached|].
  intros cs w''. destruct (api_run_cached cs _ _ Hw') as [H1 H2].
  split; [by apply getDb_cached | done].
Qed.

Lemma appends_ret {A} (a : A) : appends (ret (S := S) a).
Proof. intros w. exists []. simpl. by rewrite app_nil_r. Qed.

Lemma appends_bind {A B} (m : async S A) (k : A → async S B) :
  appends m → (∀ a, appends (k a)) → appends (bind m k).
Proof.
  intros Hm Hk w. unfold bind. destruct (Hm w) as [t Ht].
  destruct (m w) as [w1 [a|e]]; simpl in *; [|by eauto].
  destruct (Hk a w1) as [t' Ht']. exists (t ++ t').
  by rewrite Ht', Ht, app_assoc.
Qed.

Lemma appends_when b (m : async S unit) : appends m → appends (when b m).
Proof. destruct b; [done | intros _; apply appends_ret]. Qed.

Lemma appends_console_log line : appends (console_log (S := S) line).
Proof. intros w. by eexists. Qed.

Lemma appends_run db sql params : appends (run (S := S) db sql params).
Proof.
  intros w. unfold run. destruct (drv_run _ _ _ _) as [s r]. by eexists.
Qed.



End Generic.

(** ** What the calls add up to, for every driver *)

Section Composition.
Context {S : Type} `{!Sqlite3 S}.
Variable env : environment.

Lemma appends_get db sql params : appends (get (S := S) db sql params).
Proof. intros w. unfold get. destruct (drv_get _ _ _ _) as [s r]. by eexists. Qed.

Lemma appends_all db sql params : appends (all (S := S) db sql params).
Proof. intros w. unfold all. destruct (drv_all _ _ _ _) as [s r]. by eexists. Qed.

Lemma appends_exec db script : appends (exec (S := S) db script).
Proof. intros w. unfold exec. destruct (drv_exec _ _ _) as [s r]. by eexists. Qed.

Lemma appends_close db : appends (close (S := S) db).
Proof. intros w. unfold close. destruct (drv_close _ _) as [s r]. by eexists. Qed.

Lemma appends_hash p n : appends (hash (S := S) env p n).
Proof. intros w. by eexists. Qed.

Lemma appends_getDb : appends (getDb (S := S) env).
Proof.
  intros w. unfold getDb. destruct (dbInstance w).
  - exists []. simpl. by rewrite app_nil_r.
  - destruct (drv_open _ _) as [s1 native]. destruct (drv_exec _ _ _) as [s2 r].
    by eexists.
Qed.

Lemma appends_ensurePointsLedgerSchema db : appends (ensurePointsLedgerSchema (S := S) db).
Proof.
  unfold ensurePointsLedgerSchema.
  repeat first
    [ apply appends_bind; [|intros ?] | apply appends_when | apply appends_all
    | apply appends_run | apply appends_console_log ].
Qed.

Lemma appends_bootstrap_admin db : appends (bootstrap_admin (S := S) env db).
Proof.
  unfold bootstrap_admin.
  repeat first
    [ apply appends_bind; [|intros ?] | apply appends_hash
    | apply appends_run | apply appends_console_log ].
Qed.

Lemma appends_initDb : appends (initDb (S := S) env).
Proof.
  unfold initDb.
  repeat first
    [ apply appends_getDb | apply appends_exec | apply appends_get
    | apply appends_bootstrap_admin | apply appends_ensurePointsLedgerSchema
    | apply appends_when | apply appends_bind; [|intros ?] ].
Qed.

Lemma rejects_ret {A} db (a : A) : rejects_as_driver db (ret (S := S) a).
Proof. intros w w' e. discriminate. Qed.

Lemma rejects_console_log db line : rejects_as_driver db (console_log (S := S) line).
Proof. intros w w' e. discriminate. Qed.

Lemma rejects_hash db p n : rejects_as_driver db (hash (S := S) env p n).
Proof. intros w w' e. discriminate. Qed.

Lemma rejects_bind {A B} db (m : async S A) (k : A → async S B) :
  appends m → rejects_as_driver db m → (∀ a, rejects_as_driver db (k a)) →
  rejects_as_driver db (bind m k).
Proof.
  intros Ha Hm Hk w w' e. unfold bind. destruct (Ha w) as [t1 Ht1].
  destruct (m w) as [w1 [a|e1]] eqn:Hmw.
  - intros H. destruct (Hk a w1 w' e H) as (op & w0 & t & Ht & He & Hw).
    exists op, w0, (t1 ++ t). simpl in Ht1. rewrite Ht, Ht1, app_assoc. done.
  - intros [= <- <-]. by apply Hm.
Qed.

Lemma rejects_when db b (m : async S unit) :
  rejects_as_driver db m → rejects_as_driver db (when b m).
Proof. destruct b; [done | intros _; apply rejects_ret]. Qed.

Lemma rejects_run db sql params : rejects_as_driver db (run db sql params).
Proof.
  intros w w' e H. exists (OpRun sql params), w, []. rewrite app_nil_r.
  split; [done|]. revert H. simpl. unfold run.
  destruct (drv_run _ _ _ _) as [s [e'|x]]; simpl; [|discriminate].
  by intros [= <- <-].
Qed.

Lemma rejects_get db sql params : rejects_as_driver db (get db sql params).
Proof.
  intros w w' e H. exists (OpGet sql params), w, []. rewrite app_nil_r.
  split; [done|]. revert H. simpl. unfold get.
  destruct (drv_get _ _ _ _) as [s [e'|x]]; simpl; [|discriminate].
  by intros [= <- <-].
Qed.

Lemma rejects_all db sql params : rejects_as_driver db (all db sql params).
Proof.
  intros w w' e H. exists (OpAll sql params), w, []. rewrite app_nil_r.
  split; [done|]. revert H. simpl. unfold all.
  destruct (drv_all _ _ _ _) as [s [e'|x]]; simpl; [|discriminate].
  by intros [= <- <-].
Qed.

Lemma rejects_exec db script : rejects_as_driver db (exec db script).
Proof.
  intros w w' e H. exists (OpExec script), w, []. rewrite app_nil_r.
  split; [done|]. revert H. simpl. unfold exec.
  destruct (drv_exec _ _ _) as [s [e'|]]; simpl; [|discriminate].
  by intros [= <- <-].
Qed.

Lemma rejects_ensurePointsLedgerSchema db :
  rejects_as_driver db (ensurePointsLedgerSchema db).
Proof.
  unfold ensurePointsLedgerSchema.
  repeat first
    [ apply rejects_bind; [| |intros ?] | apply rejects_when | apply rejects_all
    | apply rejects_run | apply rejects_console_log
    | apply appends_bind; [|intros ?] | apply appends_when | apply appends_all
    | apply appends_run | apply appends_console_log ].
Qed.

Lemma rejects_bootstrap_admin db : rejects_as_driver db (bootstrap_admin env db).
Proof.
  unfold bootstrap_admin.
  repeat first
    [ apply rejects_bind; [| |intros ?] | apply rejects_hash
    | apply rejects_run | apply rejects_console_log
    | apply appends_hash | apply appends_run ].
Qed.

Lemma perform_trace db op (w : world S) :
  trace (perform db op w) = trace w ++ [event_of db op]
  ∧ dbInstance (perform db op w) = dbInstance w.
Proof.
  destruct op as [sql params|sql params|sql params|script]; simpl.
  - unfold run. by destruct (drv_run _ _ _ _) as [s r].
  - unfold get. by destruct (drv_get _ _ _ _) as [s r].
  - unfold all. by destruct (drv_all _ _ _ _) as [s r].
  - unfold exec. by destruct (drv_exec _ _ _) as [s r].
Qed.

(** X2: the module raises no error of its own.  When the migration or
    initDb is rejected, the error is the one the driver reported for the
    statement sent last: that statement is the last entry of the history,
    nothing is sent after it, and (for initDb) the connection stays cached.
    getDb itself is never rejected. *)
Theorem rejection_is_last_driver_error :
  (∀ db (w w' : world S) e,
     ensurePointsLedgerSchema db w = (w', Rejected e) →
     ∃ op w0 t,
       trace w0 = trace w ++ t
       ∧ driver_error db op (store w0) = Some e
       ∧ w' = perform db op w0
       ∧ trace w' = trace w ++ t ++ [event_of db op])
  ∧ (∀ (w w' : world S) e,
       initDb env w = (w', Rejected e) →
       ∃ db op w0 t,
         dbInstance w' = Some db
         ∧ trace w0 = trace w ++ t
         ∧ driver_error db op (store w0) = Some e
         ∧ w' = perform db op w0
         ∧ trace w' = trace w ++ t ++ [event_of db op])
  ∧ ∀ (w : world S), rejection (getDb env w).2 = None.
Proof.
  split; [|split].
  - intros db w w' e H.
    destruct (rejects_ensurePointsLedgerSchema db w w' e H) as (op & w0 & t & Ht & He & ->).
    exists op, w0, t. repeat split; try done.
    destruct (perform_trace db op w0) as [-> _]. by rewrite Ht, app_assoc.
  - intros w w' e H. unfold initDb in H.
    destruct (getDb_sets_instance env w) as (db & Hget & Hinst).
    destruct (appends_getDb w) as [t0 Ht0].
    unfold bind at 1 in H. rewrite Hget in H.
    assert (rejects_as_driver db
              (bind (exec db schema_script) (λ _,
               bind (get db SelectCountUsers []) (λ count,
               bind (when (no_users count) (bootstrap_admin env db)) (λ _,
               ensurePointsLedgerSchema db))))) as Hrest.
    { repeat first
        [ apply rejects_exec | apply rejects_get | apply rejects_bootstrap_admin
        | apply rejects_ensurePointsLedgerSchema
        | apply appends_exec | apply appends_get | apply appends_bootstrap_admin
        | apply rejects_when | apply appends_when
        | apply rejects_bind; [| |intros ?] ]. }
    assert (dbInstance w' = Some db) as Hw'.
    { destruct (initDb_cached env (getDb env w).1 db Hinst) as [Hi _].
      unfold initDb in Hi. rewrite (bind_getDb_cached env _ _ db Hinst) in Hi.
      by rewrite H in Hi. }
    destruct (Hrest _ _ _ H) as (op & w0 & t & Ht & He & ->).
    destruct (perform_trace db op w0) as [Htr _].
    exists db, op, w0, (t0 ++ t). rewrite Htr, Ht, Ht0, !app_assoc.
    done.
  - intros w. by destruct (getDb_sets_instance env w) as (db & -> & _).
Qed.

Lemma api_step_appends (w : world S) c : ∃ t, trace (api_step env w c) = trace w ++ t.
Proof.
  destruct c; simpl; unfold on_instance.
  - apply appends_getDb.
  - apply appends_initDb.
  - destruct (dbInstance w) as [db|]; [apply appends_run|].
    exists []. by rewrite app_nil_r.
  - destruct (dbInstance w) as [db|]; [apply appends_get|].
    exists []. by rewrite app_nil_r.
  - destruct (dbInstance w) as [db|]; [apply appends_all|].
    exists []. by rewrite app_nil_r.
  - destruct (dbInstance w) as [db|]; [apply appends_exec|].
    exists []. by rewrite app_nil_r.
  - destruct (dbInstance w) as [db|]; [apply appends_close|].
    exists []. by rewrite app_nil_r.
Qed.

Lemma api_run_appends cs : ∀ (w : world S), ∃ t, trace (api_run env cs w) = trace w ++ t.
Proof.
  induction cs as [|c cs IH]; intros w; simpl.
  - exists []. by rewrite app_nil_r.
  - destruct (api_step_appends w c) as [t1 H1].
    destruct (IH (api_step env w c)) as [t2 H2].
    exists (t1 ++ t2). by rewrite H2, H1, app_assoc.
Qed.

Lemma initDb_through_getDb (w : world S) : initDb env w = initDb env (getDb env w).1.
Proof.
  destruct (getDb_sets_instance env w) as (inst & Hget & Hinst).
  unfold initDb at 1. unfold bind at 1. rewrite Hget.
  unfold initDb. by rewrite (bind_getDb_cached env _ _ inst Hinst).
Qed.

Lemma api_run_from_load cs : ∀ (w : world S),
  dbInstance w = None →
  match dbInstance (api_run env cs w) with
  | None => api_run env cs w = w
  | Some inst =>
      dbInstance (getDb env w).1 = Some inst
      ∧ ∃ t, trace (api_run env cs w) = trace (getDb env w).1 ++ t
  end.
Proof.
  induction cs as [|c cs IH]; intros w Hw; [simpl; by rewrite Hw|].
  assert (∀ w1, dbInstance w1 = dbInstance (getDb env w).1 →
                (∃ t, trace w1 = trace (getDb env w).1 ++ t) →
                match dbInstance (api_run env cs w1) with
                | None => api_run env cs w1 = w
                | Some inst =>
                    dbInstance (getDb env w).1 = Some inst
                    ∧ ∃ t, trace (api_run env cs w1) = trace (getDb env w).1 ++ t
                end) as Hdone.
  { intros w1 H1 [t1 Ht1].
    destruct (getDb_sets_instance env w) as (inst & _ & Hinst).
    rewrite Hinst in H1.
    destruct (api_run_cached env cs w1 inst H1) as [-> _].
    split; [done|]. destruct (api_run_appends cs w1) as [t2 Ht2].
    exists (t1 ++ t2). by rewrite Ht2, Ht1, app_assoc. }
  destruct c; simpl; unfold on_instance; rewrite ?Hw; try by apply IH.
  - apply Hdone; [done|]. exists []. by rewrite app_nil_r.
  - apply Hdone.
    + rewrite initDb_through_getDb.
      destruct (getDb_sets_instance env w) as (inst & _ & Hinst).
      destruct (initDb_cached env _ inst Hinst) as [-> _]. done.
    + rewrite initDb_through_getDb. apply appends_initDb.
Qed.

(** X1: from the state in which the module is loaded, and whatever the
    application calls, either nothing has reached the driver yet and no
    wrapper is cached, or the cached wrapper is the wrapper of the handle
    that was opened first: its file is the path that was opened, and the
    open and PRAGMA foreign_keys = ON on that handle are the first two
    things the driver saw. *)
Theorem cached_wrapper_is_the_opened_handle s cs :
  let w := api_run env cs (World s None []) in
  match dbInstance w with
  | None => w = World s None []
  | Some inst =>
      inst = wrapDb env (drv_open (dbPath env) s).2
      ∧ file inst = dbPath env
      ∧ ∃ t, trace w
             = EvOpen (dbPath env) (raw inst)
                 :: EvExec (raw inst) [PragmaForeignKeysOn] :: t
  end.
Proof.
  intros w. subst w.
  pose proof (api_run_from_load cs (World s None []) eq_refl) as H.
  destruct (dbInstance (api_run env cs (World s None []))) as [inst|]; [|done].
  destruct H as [Hinst [t Ht]]. revert Hinst Ht. unfold getDb. simpl.
  destruct (drv_open (dbPath env) s) as [s1 native].
  destruct (drv_exec native [PragmaForeignKeysOn] s1) as [s2 r]. simpl.
  intros [= <-] Ht. split; [done|]. split; [done|]. by exists t.
Qed.
End Composition.

(** ** The module on the SQLite model *)

Lemma ebind_inr {A B} (m : js_error + A) (k : A → js_error + B) b :
  ebind m k = inr b → ∃ a, m = inr a ∧ k a = inr b.
Proof. destruct m as [e|a]; simpl; [discriminate | eauto]. Qed.

Lemma require_inr b e u : require b e = inr u → b = true.
Proof. by destruct b. Qed.

Lemma or_fail_inr {A} (o : option A) e a : or_fail o e = inr a → o = Some a.
Proof. destruct o; simpl; congruence. Qed.

Ltac inv_ebind H :=
  repeat match type of H with
    | ebind _ _ = inr _ =>
        let a := fresh "a" in
        let Ha := fresh "Ha" in
        apply ebind_inr in H as (a & Ha & H)
    end.

Ltac inv_checks :=
  repeat match goal with
    | H : or_fail _ _ = inr _ |- _ => apply or_fail_inr in H
    | H : require _ _ = inr _ |- _ => apply require_inr in H
    | H : no_params _ = inr _ |- _ => clear H
    end.

Ltac inv_steps H := inv_ebind H; inv_checks.

(** No statement of the module closes the connection. *)
Lemma step_open c sql params db o :
  step c sql params db = inr o → c_open (o_conn o) = c_open c.
Proof.
  destruct sql; simpl; intros H.
  all: try (inv_ebind H; by injection H as <-).
  - unfold insert_user in H. inv_ebind H. by injection H as <-.
  - inv_ebind H. unfold backfill in H. inv_ebind H. by injection H as <-.
Qed.

Section OnHandle.
Variable conns0 : list connection.
Variable inst : wrapper.
Hypothesis handle_valid : (raw inst < length conns0)%nat.

Lemma open_conn_on_handle c db :
  open_conn (Sqlite db (<[raw inst := c]> conns0)) (raw inst)
  = if c_open c then inr c else inl misuse_error.
Proof. unfold open_conn. simpl. by rewrite list_lookup_insert_eq. Qed.

Lemma statement_on_handle {A} (res : outcome → A) c db sql params :
  c_open c = true →
  sqlite_statement res (raw inst) sql params (Sqlite db (<[raw inst := c]> conns0))
  = match step c sql params db with
    | inl e => (Sqlite db (<[raw inst := c]> conns0), inl e)
    | inr o => (Sqlite (o_db o) (<[raw inst := o_conn o]> conns0), inr (res o))
    end.
Proof.
  intros Hc. unfold sqlite_statement. rewrite open_conn_on_handle, Hc. simpl.
  destruct (step c sql params db) as [e|o]; [done|].
  unfold commit. simpl. by rewrite list_insert_insert_eq.
Qed.

Lemma run_on_handle cached c db t sql params :
  c_open c = true →
  run inst sql params (on_handle conns0 inst cached c db t)
  = match step c sql params db with
    | inl e => (on_handle conns0 inst cached c db (t ++ [EvRun (raw inst) sql params]), Rejected e)
    | inr o => (on_handle conns0 inst cached (o_conn o) (o_db o) (t ++ [EvRun (raw inst) sql params]),
                Fulfilled (RunInfo (c_changes (o_conn o)) (c_last_rowid (o_conn o))))
    end.
Proof.
  intros Hc. unfold run, on_handle. simpl.
  rewrite (statement_on_handle _ c db sql params Hc).
  by destruct (step c sql params db).
Qed.

Lemma get_on_handle cached c db t sql params :
  c_open c = true →
  get inst sql params (on_handle conns0 inst cached c db t)
  = match step c sql params db with
    | inl e => (on_handle conns0 inst cached c db (t ++ [EvGet (raw inst) sql params]), Rejected e)
    | inr o => (on_handle conns0 inst cached (o_conn o) (o_db o) (t ++ [EvGet (raw inst) sql params]),
                Fulfilled (head (o_rows o)))
    end.
Proof.
  intros Hc. unfold get, on_handle. simpl.
  rewrite (statement_on_handle _ c db sql params Hc).
  by destruct (step c sql params db).
Qed.

Lemma all_on_handle cached c db t sql params :
  c_open c = true →
  all inst sql params (on_handle conns0 inst cached c db t)
  = match step c sql params db with
    | inl e => (on_handle conns0 inst cached c db (t ++ [EvAll (raw inst) sql params]), Rejected e)
    | inr o => (on_handle conns0 inst cached (o_conn o) (o_db o) (t ++ [EvAll (raw inst) sql params]),
                Fulfilled (o_rows o))
    end.
Proof.
  intros Hc. unfold all, on_handle. simpl.
  rewrite (statement_on_handle _ c db sql params Hc).
  by destruct (step c sql params db).
Qed.

Lemma sqlite_exec_on_handle script : ∀ c db,
  c_open c = true →
  match script_steps c script db with
  | inr (c', db') =>
      sqlite_exec (raw inst) script (Sqlite db (<[raw inst := c]> conns0))
      = (Sqlite db' (<[raw inst := c']> conns0), None)
      ∧ c_open c' = true
  | inl e =>
      ∃ s', sqlite_exec (raw inst) script (Sqlite db (<[raw inst := c]> conns0))
            = (s', Some e)
  end.
Proof.
  induction script as [|sql rest IH]; intros c db Hc; simpl.
  - by rewrite open_conn_on_handle, Hc.
  - rewrite (statement_on_handle _ c db sql [] Hc).
    destruct (step c sql [] db) as [e|o] eqn:Hs; simpl; [by eauto|].
    apply IH. by rewrite (step_open _ _ _ _ _ Hs).
Qed.

Lemma exec_on_handle cached c db t script :
  c_open c = true →
  match script_steps c script db with
  | inr (c', db') =>
      exec inst script (on_handle conns0 inst cached c db t)
      = (on_handle conns0 inst cached c' db' (t ++ [EvExec (raw inst) script]), Fulfilled tt)
      ∧ c_open c' = true
  | inl e => (exec inst script (on_handle conns0 inst cached c db t)).2 = Rejected e
  end.
Proof.
  intros Hc. pose proof (sqlite_exec_on_handle script c db Hc) as H.
  unfold exec, on_handle. simpl.
  destruct (script_steps c script db) as [e|[c' db']].
  - destruct H as [s' ->]. done.
  - destruct H as [-> H2]. done.
Qed.
End OnHandle.

(** *** The schema script, statement by statement *)

Lemma create_table_inr n d db db' :
  create_table n d db = inr db' →
  db' = Database (ensure_table (db_tables db) (n, d)) (db_indexes db).
Proof.
  unfold create_table, ensure_table. simpl.
  destruct (db_tables db !! n) as [t|].
  - intros [= <-]. by destruct db.
  - intros H. inv_ebind H. by injection H as <-.
Qed.

Lemma create_table_present n d db :
  is_Some (db_tables db !! n) → create_table n d db = inr db.
Proof. intros [t Ht]. unfold create_table. by rewrite Ht. Qed.

Lemma ensure_tables_lookup_Some l : ∀ m n t,
  m !! n = Some t → foldl ensure_table m l !! n = Some t.
Proof.
  induction l as [|[n' d'] l IH]; intros m n t H; simpl; [done|].
  apply IH. unfold ensure_table. simpl.
  destruct (m !! n') eqn:Hn'; [done|].
  rewrite lookup_insert_ne; [done | congruence].
Qed.

Lemma ensure_tables_present l : ∀ m nd,
  nd ∈ l → is_Some (foldl ensure_table m l !! nd.1).
Proof.
  induction l as [|nd' l IH]; intros m nd Hin; [by apply elem_of_nil in Hin|].
  apply elem_of_cons in Hin as [->|Hin]; simpl; [|by apply IH].
  assert (is_Some (ensure_table m nd' !! nd'.1)) as [t Ht].
  { unfold ensure_table. destruct (m !! nd'.1) eqn:H; [by rewrite H|].
    rewrite lookup_insert_eq. by eexists. }
  exists t. by apply ensure_tables_lookup_Some.
Qed.

Lemma ensure_tables_id l : ∀ m,
  (∀ nd, nd ∈ l → is_Some (m !! nd.1)) → foldl ensure_table m l = m.
Proof.
  induction l as [|nd l IH]; intros m H; simpl; [done|].
  assert (ensure_table m nd = m) as ->.
  { unfold ensure_table. destruct (H nd) as [t ->]; [by left | done]. }
  apply IH. intros nd' Hin. apply H. by right.
Qed.

Lemma ensure_tables_other l : ∀ m n,
  n ∉ map fst l → foldl ensure_table m l !! n = m !! n.
Proof.
  induction l as [|nd l IH]; intros m n Hn; simpl; [done|].
  simpl in Hn. apply not_elem_of_cons in Hn as [Hne Hn].
  rewrite IH by done. unfold ensure_table.
  destruct (m !! nd.1); [done|]. by rewrite lookup_insert_ne.
Qed.

Lemma ensure_tables_new l : ∀ m n d,
  NoDup (map fst l) → (n, d) ∈ l → m !! n = None →
  foldl ensure_table m l !! n = Some (Table d [] 0).
Proof.
  induction l as [|[n' d'] l IH]; intros m n d Hnd Hin Hm;
    [by apply elem_of_nil in Hin|].
  simpl in Hnd. pose proof (NoDup_cons_1_1 _ _ Hnd) as Hfresh.
  apply NoDup_cons_1_2 in Hnd.
  apply elem_of_cons in Hin as [[= -> ->]|Hin]; simpl.
  - rewrite ensure_tables_other by done.
    unfold ensure_table. simpl. rewrite Hm. by rewrite lookup_insert_eq.
  - apply IH; [done | done |].
    unfold ensure_table. simpl. destruct (m !! n'); [done|].
    rewrite lookup_insert_ne; [done|].
    intros ->. apply Hfresh. by apply (list_elem_of_fmap_2 fst) in Hin.
Qed.

Lemma step_create_table c n d db :
  step c (CreateTableIfNotExists n d) [] db
  = let? db' := create_table n d db in inr (Outcome db' c []).
Proof. reflexivity. Qed.

Lemma create_tables_steps l : ∀ c db c' db',
  script_steps c (map (λ nd, CreateTableIfNotExists nd.1 nd.2) l) db = inr (c', db') →
  c' = c ∧ db' = Database (foldl ensure_table (db_tables db) l) (db_indexes db).
Proof.
  induction l as [|[n d] l IH]; intros c db c' db'; cbn [map script_steps fst snd].
  - intros [= <- <-]. by destruct db.
  - rewrite step_create_table.
    destruct (create_table n d db) as [e|db1] eqn:Hc; simpl; [discriminate|].
    apply create_table_inr in Hc as ->. intros H.
    apply IH in H as [-> ->]. done.
Qed.

Lemma schema_script_unfold c db :
  script_steps c schema_script db
  = script_steps (with_foreign_keys c)
      (map (λ nd, CreateTableIfNotExists nd.1 nd.2) schema_tables) db.
Proof. reflexivity. Qed.

Lemma schema_script_steps c db c' db' :
  script_steps c schema_script db = inr (c', db') →
  c' = with_foreign_keys c
  ∧ db' = Database (foldl ensure_table (db_tables db) schema_tables) (db_indexes db).
Proof.
  rewrite schema_script_unfold. apply create_tables_steps.
Qed.

Lemma create_tables_noop l : ∀ c db,
  (∀ nd, nd ∈ l → is_Some (db_tables db !! nd.1)) →
  script_steps c (map (λ nd, CreateTableIfNotExists nd.1 nd.2) l) db = inr (c, db).
Proof.
  induction l as [|[n d] l IH]; intros c db H; cbn [map script_steps fst snd]; [done|].
  rewrite step_create_table.
  rewrite create_table_present by (apply (H (n, d)); by left).
  simpl. apply IH. intros nd Hin. apply H. by right.
Qed.

Lemma schema_script_noop c db :
  (∀ nd, nd ∈ schema_tables → is_Some (db_tables db !! nd.1)) →
  script_steps c schema_script db = inr (with_foreign_keys c, db).
Proof. intros H. rewrite schema_script_unfold. by apply create_tables_noop. Qed.

(** *** Cells and columns *)

Lemma cell_set_cell_eq i v r : cell i (set_cell i v r) = v.
Proof.
  unfold cell, set_cell. rewrite list_lookup_insert_eq; [done|].
  rewrite length_app, length_replicate. lia.
Qed.

Lemma cell_set_cell_ne i j v r : i ≠ j → cell j (set_cell i v r) = cell j r.
Proof.
  intros Hij. unfold cell, set_cell. rewrite list_lookup_insert_ne by done.
  destruct (decide (j < length r)%nat) as [Hj|Hj].
  - by rewrite lookup_app_l.
  - rewrite lookup_app_r by lia. rewrite (lookup_ge_None_2 r j) by lia.
    destruct (replicate _ _ !! _) as [x|] eqn:Hx; [|done].
    apply lookup_replicate in Hx as [-> _]. done.
Qed.

Lemma set_cell_idem i v r : set_cell i v (set_cell i v r) = set_cell i v r.
Proof.
  unfold set_cell at 1.
  assert (Datatypes.S i - length (set_cell i v r) = 0)%nat as ->.
  { unfold set_cell. rewrite length_insert, length_app, length_replicate. lia. }
  simpl. rewrite app_nil_r. unfold set_cell. by rewrite list_insert_insert_eq.
Qed.

Lemma col_index_Some n cs i :
  col_index n cs = Some i → ∃ c, cs !! i = Some c ∧ col_name c = n.
Proof.
  revert i. induction cs as [|c cs IH]; intros i; simpl; [done|].
  destruct (String.eqb_spec (col_name c) n) as [Heq|Hne].
  - intros [= <-]. by exists c.
  - destruct (col_index n cs) as [k|]; simpl; [|done].
    intros [= <-]. by apply IH.
Qed.

Lemma col_index_distinct n1 n2 cs i j :
  n1 ≠ n2 → col_index n1 cs = Some i → col_index n2 cs = Some j → i ≠ j.
Proof.
  intros Hn H1 H2 ->.
  apply col_index_Some in H1 as (c1 & Hc1 & <-).
  apply col_index_Some in H2 as (c2 & Hc2 & <-). congruence.
Qed.

Lemma col_index_app n cs c :
  col_index n (cs ++ [c])
  = match col_index n cs with
    | Some i => Some i
    | None => if String.eqb (col_name c) n then Some (length cs) else None
    end.
Proof.
  induction cs as [|c0 cs IH]; simpl.
  - by destruct (String.eqb _ _).
  - destruct (String.eqb (col_name c0) n); [done|]. rewrite IH.
    destruct (col_index n cs); [done|]. by destruct (String.eqb _ _).
Qed.

Lemma has_column_true n cs : has_column n cs = true ↔ is_Some (col_index n cs).
Proof. unfold has_column. by rewrite bool_decide_eq_true. Qed.

Lemma has_column_false n cs : has_column n cs = false ↔ col_index n cs = None.
Proof.
  unfold has_column. rewrite bool_decide_eq_false.
  by rewrite <- eq_None_not_Some.
Qed.

(** [names.includes(k)] on the rows of PRAGMA table_info tells whether the
    table has a column called [k]. *)
Lemma includes_imap (g : nat → column → row_obj) n cs :
  (∀ i c, obj_get "name" (g i c) = Some (VText (col_name c))) →
  includes (map (obj_get "name") (imap g cs)) n = has_column n cs.
Proof.
  revert g. induction cs as [|c cs IH]; intros g Hg; [done|].
  change (includes (map (obj_get "name") (imap g (c :: cs))) n)
    with (match obj_get "name" (g 0%nat c) with
          | Some (VText s) => String.eqb s n
          | _ => false
          end || includes (map (obj_get "name") (imap (g ∘ Datatypes.S) cs)) n).
  rewrite Hg, (IH (g ∘ Datatypes.S)) by (intros; apply Hg).
  unfold has_column. simpl.
  destruct (String.eqb_spec (col_name c) n) as [Heq|Hne]; simpl.
  - done.
  - apply bool_decide_ext. by rewrite fmap_is_Some.
Qed.

Lemma includes_ledger_names db n :
  includes (ledger_names db) n
  = match db_tables db !! "points_ledger" with
    | Some tb => has_column n (td_columns (t_def tb))
    | None => false
    end.
Proof.
  unfold ledger_names, table_info.
  destruct (db_tables db !! "points_ledger") as [tb|]; [|done].
  by apply includes_imap.
Qed.

(** *** The migration and initDb as sequences of statements *)

Section Symbolic.
Variable env : environment.
Variable conns0 : list connection.
Variable inst : wrapper.
Hypothesis handle_valid : (raw inst < length conns0)%nat.

Local Notation "'here'" := (on_handle conns0 inst).

Lemma bind_run_on_handle {B} cached c db t sql params (k : run_info → async sqlite B) :
  c_open c = true →
  bind (run inst sql params) k (here cached c db t)
  = match step c sql params db with
    | inl e => (here cached c db (t ++ [EvRun (raw inst) sql params]), Rejected e)
    | inr o => k (RunInfo (c_changes (o_conn o)) (c_last_rowid (o_conn o)))
                 (here cached (o_conn o) (o_db o) (t ++ [EvRun (raw inst) sql params]))
    end.
Proof.
  intros Hc. unfold bind. rewrite (run_on_handle conns0 inst handle_valid) by done.
  by destruct (step c sql params db).
Qed.

Lemma bind_log_on_handle {B} cached c db t line (k : unit → async sqlite B) :
  bind (console_log line) k (here cached c db t)
  = k tt (here cached c db (t ++ [EvLog line])).
Proof. done. Qed.

Lemma bind_bind {A B C} (m : async sqlite A) (f : A → async sqlite B)
    (g : B → async sqlite C) w :
  bind (bind m f) g w = bind m (λ a, bind (f a) g) w.
Proof. unfold bind. by destruct (m w) as [w1 [a|e]]. Qed.

Lemma bind_ret {A B} (a : A) (k : A → async sqlite B) w : bind (ret a) k w = k a w.
Proof. done. Qed.

(** Adding a column when [names.includes] says it is missing. *)
Lemma bind_when_add {B} cached c db t (has : bool) sql line (k : unit → async sqlite B) :
  c_open c = true →
  bind (when (negb has) (bind (run inst sql []) (λ _, console_log line))) k
    (here cached c db t)
  = if has then k tt (here cached c db t)
    else match step c sql [] db with
         | inl e => (here cached c db (t ++ [EvRun (raw inst) sql []]), Rejected e)
         | inr o => k tt (here cached (o_conn o) (o_db o)
                            (t ++ [EvRun (raw inst) sql []; EvLog line]))
         end.
Proof.
  intros Hc. destruct has; simpl when; [done|].
  rewrite bind_bind, bind_run_on_handle by done.
  destruct (step c sql [] db) as [e|o]; [done|].
  rewrite bind_log_on_handle. by rewrite <- app_assoc.
Qed.

Lemma ensure_on_handle cached c db t :
  c_open c = true →
  match migrate_steps c db with
  | inr o =>
      ensurePointsLedgerSchema inst (here cached c db t)
      = (here cached (o_conn o) (o_db o)
           (t ++ migrate_trace (raw inst) (ledger_names db)),
         Fulfilled tt)
      ∧ c_open (o_conn o) = true
  | inl e => (ensurePointsLedgerSchema inst (here cached c db t)).2 = Rejected e
  end.
Proof.
  intros Hc.
  remember (ensurePointsLedgerSchema inst (here cached c db t)) as r eqn:Hr.
  unfold ensurePointsLedgerSchema in Hr. unfold bind at 1 in Hr.
  rewrite (all_on_handle conns0 inst handle_valid) in Hr by done.
  change (step c (PragmaTableInfo "points_ledger") [] db)
    with (inr (B := outcome) (A := js_error)
            (unchanged c db (table_info db "points_ledger"))) in Hr.
  cbv beta iota in Hr.
  change (o_rows (unchanged c db ?x)) with x in Hr.
  change (o_conn (unchanged c db ?x)) with c in Hr.
  change (o_db (unchanged c db ?x)) with db in Hr.
  fold (ledger_names db) in Hr.
  unfold migrate_steps, migrate_trace, add_series_id, add_match_id.
  set (ev := EvAll (raw inst) (PragmaTableInfo "points_ledger") []) in *.
  assert (∀ c1 db1 t1, c_open c1 = true →
    match (let? o3 := step c1 BackfillSeriesId [] db1 in
           let? o4 := step (o_conn o3) idx_series_user [] (o_db o3) in
           step (o_conn o4) idx_match [] (o_db o4)) with
    | inr o =>
        bind (run inst BackfillSeriesId []) (λ _,
        bind (run inst idx_series_user []) (λ _,
        bind (run inst idx_match []) (λ _,
        console_log "[Migration] points_ledger schema ensured and backfilled.")))
          (here cached c1 db1 t1)
        = (here cached (o_conn o) (o_db o)
             (t1 ++ [EvRun (raw inst) BackfillSeriesId [];
                     EvRun (raw inst) idx_series_user [];
                     EvRun (raw inst) idx_match [];
                     EvLog "[Migration] points_ledger schema ensured and backfilled."]),
           Fulfilled tt)
        ∧ c_open (o_conn o) = true
    | inl e =>
        ∃ w, bind (run inst BackfillSeriesId []) (λ _,
             bind (run inst idx_series_user []) (λ _,
             bind (run inst idx_match []) (λ _,
             console_log "[Migration] points_ledger schema ensured and backfilled.")))
               (here cached c1 db1 t1) = (w, Rejected e)
    end) as Htail.
  { intros c1 db1 t1 Hc1.
    rewrite bind_run_on_handle by done.
    destruct (step c1 BackfillSeriesId [] db1) as [e|o3] eqn:H3; [by eexists|].
    cbn [ebind]. pose proof (step_open _ _ _ _ _ H3) as O3. rewrite Hc1 in O3.
    rewrite bind_run_on_handle by done.
    destruct (step (o_conn o3) idx_series_user [] (o_db o3)) as [e|o4] eqn:H4;
      [by eexists|].
    cbn [ebind]. pose proof (step_open _ _ _ _ _ H4) as O4. rewrite O3 in O4.
    rewrite bind_run_on_handle by done.
    destruct (step (o_conn o4) idx_match [] (o_db o4)) as [e|o5] eqn:H5;
      [by eexists|].
    pose proof (step_open _ _ _ _ _ H5) as O5. rewrite O4 in O5.
    split; [|done]. unfold console_log, on_handle, emit. simpl.
    by rewrite <- !app_assoc. }
  rewrite bind_when_add in Hr by done.
  destruct (includes (ledger_names db) "series_id").
  - cbn [ebind o_db o_conn]. rewrite bind_when_add in Hr by done.
    destruct (includes (ledger_names db) "match_id").
    + cbn [ebind o_db o_conn]. specialize (Htail c db (t ++ [ev]) Hc).
      destruct (ebind _ _) as [e|o].
      * destruct Htail as [w Hw]. rewrite Hw in Hr. by rewrite Hr.
      * destruct Htail as [Hw Ho]. rewrite Hw in Hr. rewrite Hr.
        split; [|done]. simpl. by rewrite <- !app_assoc.
    + destruct (step c (AlterTableAddColumn "points_ledger" "match_id" INTEGER) [] db) as [e|o2] eqn:H2. { cbn [ebind]. by rewrite Hr. }
      cbn [ebind]. pose proof (step_open _ _ _ _ _ H2) as O2. rewrite Hc in O2.
      specialize (Htail (o_conn o2) (o_db o2)
        ((t ++ [ev]) ++ [EvRun (raw inst) (AlterTableAddColumn "points_ledger" "match_id" INTEGER) [];
           EvLog "[Migration] Added points_ledger.match_id"]) O2).
      destruct (ebind _ _) as [e|o].
      * destruct Htail as [w Hw]. rewrite Hw in Hr. by rewrite Hr.
      * destruct Htail as [Hw Ho]. rewrite Hw in Hr. rewrite Hr.
        split; [|done]. simpl. by rewrite <- !app_assoc.
  - destruct (step c (AlterTableAddColumn "points_ledger" "series_id" INTEGER) [] db) as [e|o1] eqn:H1; [cbn [ebind]; by rewrite Hr|].
    cbn [ebind]. pose proof (step_open _ _ _ _ _ H1) as O1. rewrite Hc in O1.
    rewrite bind_when_add in Hr by done.
    destruct (includes (ledger_names db) "match_id").
    + specialize (Htail (o_conn o1) (o_db o1)
        ((t ++ [ev]) ++ [EvRun (raw inst) (AlterTableAddColumn "points_ledger" "series_id" INTEGER) [];
           EvLog "[Migration] Added points_ledger.series_id"]) O1).
      destruct (ebind _ _) as [e|o].
      * destruct Htail as [w Hw]. rewrite Hw in Hr. by rewrite Hr.
      * destruct Htail as [Hw Ho]. rewrite Hw in Hr. rewrite Hr.
        split; [|done]. simpl. by rewrite <- !app_assoc.
    + destruct (step (o_conn o1) (AlterTableAddColumn "points_ledger" "match_id" INTEGER) [] (o_db o1)) as [e|o2] eqn:H2;
        [cbn [ebind]; by rewrite Hr|].
      cbn [ebind]. pose proof (step_open _ _ _ _ _ H2) as O2. rewrite O1 in O2.
      specialize (Htail (o_conn o2) (o_db o2)
        (((t ++ [ev]) ++ [EvRun (raw inst) (AlterTableAddColumn "points_ledger" "series_id" INTEGER) [];
           EvLog "[Migration] Added points_ledger.series_id"]) ++ [EvRun (raw inst) (AlterTableAddColumn "points_ledger" "match_id" INTEGER) [];
           EvLog "[Migration] Added points_ledger.match_id"]) O2).
      destruct (ebind _ _) as [e|o].
      * destruct Htail as [w Hw]. rewrite Hw in Hr. by rewrite Hr.
      * destruct Htail as [Hw Ho]. rewrite Hw in Hr. rewrite Hr.
        split; [|done]. simpl. by rewrite <- !app_assoc.
Qed.

Lemma bind_hash_on_handle {B} cached c db t p n (k : string → async sqlite B) :
  bind (hash env p n) k (here cached c db t)
  = k (bcrypt_hash env p n) (here cached c db (t ++ [EvHash p n])).
Proof. done. Qed.

Lemma bootstrap_on_handle {B} cached c db t (k : unit → async sqlite B) :
  c_open c = true →
  bind (bootstrap_admin env inst) k (here cached c db t)
  = match step c InsertUser (admin_params env) db with
    | inl e =>
        (here cached c db
           (t ++ [EvHash (env_or env "BOOTSTRAP_ADMIN_PASSWORD" "Admin@123") 10;
                  EvRun (raw inst) InsertUser (admin_params env)]),
         Rejected e)
    | inr o => k tt (here cached (o_conn o) (o_db o) (t ++ bootstrap_trace env (raw inst)))
    end.
Proof.
  intros Hc. unfold bootstrap_admin.
  rewrite bind_bind, bind_hash_on_handle, bind_bind, bind_run_on_handle by done.
  fold (admin_params env).
  destruct (step c InsertUser (admin_params env) db) as [e|o].
  - by rewrite <- app_assoc.
  - rewrite bind_log_on_handle. unfold bootstrap_trace.
    by rewrite <- !app_assoc.
Qed.

Lemma initDb_on_handle c db t :
  c_open c = true →
  match script_steps c schema_script db with
  | inl e => (initDb env (here (Some inst) c db t)).2 = Rejected e
  | inr (c1, db1) =>
      match step c1 SelectCountUsers [] db1 with
      | inl e => (initDb env (here (Some inst) c db t)).2 = Rejected e
      | inr o2 =>
          match (if no_users (head (o_rows o2))
                 then step (o_conn o2) InsertUser (admin_params env) (o_db o2)
                 else inr o2) with
          | inl e => (initDb env (here (Some inst) c db t)).2 = Rejected e
          | inr o3 =>
              match migrate_steps (o_conn o3) (o_db o3) with
              | inl e => (initDb env (here (Some inst) c db t)).2 = Rejected e
              | inr o =>
                  initDb env (here (Some inst) c db t)
                  = (here (Some inst) (o_conn o) (o_db o)
                       (t ++ [EvExec (raw inst) schema_script;
                              EvGet (raw inst) SelectCountUsers []]
                          ++ (if no_users (head (o_rows o2))
                              then bootstrap_trace env (raw inst) else [])
                          ++ migrate_trace (raw inst) (ledger_names (o_db o3))),
                     Fulfilled tt)
                  ∧ c_open (o_conn o) = true
              end
          end
      end
  end.
Proof.
  intros Hc.
  remember (initDb env (here (Some inst) c db t)) as r eqn:Hr.
  unfold initDb in Hr. rewrite (bind_getDb_cached _ _ _ inst) in Hr by done.
  unfold bind at 1 in Hr.
  pose proof (exec_on_handle conns0 inst handle_valid (Some inst) c db t schema_script Hc)
    as Hexec.
  destruct (script_steps c schema_script db) as [e|[c1 db1]].
  { destruct (exec inst schema_script _) as [w1 [[]|e1]]; simpl in Hexec;
      [done|]. injection Hexec as ->. by rewrite Hr. }
  destruct Hexec as [Hexec Hc1]. rewrite Hexec in Hr.
  unfold bind at 1 in Hr.
  rewrite (get_on_handle conns0 inst handle_valid) in Hr by done.
  destruct (step c1 SelectCountUsers [] db1) as [e|o2] eqn:H2; [by rewrite Hr|].
  pose proof (step_open _ _ _ _ _ H2) as O2. rewrite Hc1 in O2.
  destruct (no_users (head (o_rows o2))).
  - simpl when in Hr. rewrite bootstrap_on_handle in Hr by done.
    destruct (step (o_conn o2) InsertUser (admin_params env) (o_db o2)) as [e|o3] eqn:H3;
      [by rewrite Hr|].
    pose proof (step_open _ _ _ _ _ H3) as O3. rewrite O2 in O3.
    pose proof (ensure_on_handle (Some inst) (o_conn o3) (o_db o3)
                  (((t ++ [EvExec (raw inst) schema_script])
                      ++ [EvGet (raw inst) SelectCountUsers []])
                     ++ bootstrap_trace env (raw inst)) O3) as Hm.
    destruct (migrate_steps (o_conn o3) (o_db o3)) as [e|o].
    + by rewrite Hr.
    + destruct Hm as [Hm Ho]. rewrite Hm in Hr. rewrite Hr. split; [|done].
      by rewrite <- !app_assoc.
  - simpl when in Hr. rewrite bind_ret in Hr.
    pose proof (ensure_on_handle (Some inst) (o_conn o2) (o_db o2)
                  ((t ++ [EvExec (raw inst) schema_script])
                     ++ [EvGet (raw inst) SelectCountUsers []]) O2) as Hm.
    destruct (migrate_steps (o_conn o2) (o_db o2)) as [e|o].
    + by rewrite Hr.
    + destruct Hm as [Hm Ho]. rewrite Hm in Hr. rewrite Hr. split; [|done].
      by rewrite <- !app_assoc.
Qed.
End Symbolic.

(** *** What each statement does to the file *)

Lemma select_count_inr c db o :
  step c SelectCountUsers [] db = inr o →
  ∃ t, db_tables db !! "users" = Some t
       ∧ o = Outcome db c [[("c", VInt (Z.of_nat (length (t_rows t))))]].
Proof.
  simpl. intros H. inv_steps H. injection H as <-. eauto.
Qed.

Lemma no_users_count n :
  no_users (head [[("c", VInt (Z.of_nat n))]]) = bool_decide (n = 0%nat).
Proof.
  simpl. destruct n; [done|]. symmetry. by apply bool_decide_eq_false.
Qed.

Lemma insert_user_inr c params db o :
  step c InsertUser params db = inr o →
  ∃ t r seq,
    db_tables db !! "users" = Some t
    ∧ o_db o = set_table "users" (Table (t_def t) (t_rows t ++ [r]) seq) db
    ∧ c_foreign_keys (o_conn o) = c_foreign_keys c.
Proof.
  simpl. unfold insert_user. intros H. inv_steps H.
  injection H as <-. simpl. eauto 10.
Qed.

Lemma add_column_inr c t cname ty db o :
  step c (AlterTableAddColumn t cname ty) [] db = inr o →
  ∃ tb,
    db_tables db !! t = Some tb
    ∧ col_index cname (td_columns (t_def tb)) = None
    ∧ o_db o
      = set_table t
          (Table (TableDef (td_columns (t_def tb) ++ [col cname ty false])
                    (td_autoincrement (t_def tb)) (td_primary_key (t_def tb))
                    (td_foreign_keys (t_def tb)))
             (t_rows tb) (t_seq tb)) db
    ∧ o_conn o = c.
Proof.
  simpl. intros H. inv_steps H. injection H as <-.
  match goal with H : add_column _ _ _ _ = _ |- _ =>
    unfold add_column in H; inv_steps H; injection H as <- end.
  match goal with H : negb _ = true |- _ =>
    apply negb_true_iff, has_column_false in H end.
  eauto.
Qed.

Lemma add_column_run c t cname ty db tb :
  db_tables db !! t = Some tb →
  col_index cname (td_columns (t_def tb)) = None →
  step c (AlterTableAddColumn t cname ty) [] db
  = inr (Outcome
           (set_table t
              (Table (TableDef (td_columns (t_def tb) ++ [col cname ty false])
                        (td_autoincrement (t_def tb)) (td_primary_key (t_def tb))
                        (td_foreign_keys (t_def tb)))
                 (t_rows tb) (t_seq tb)) db)
           c []).
Proof.
  intros Ht Hc. simpl. unfold add_column. rewrite Ht. simpl.
  apply has_column_false in Hc. by rewrite Hc.
Qed.

Lemma create_index_inr c n t cols db o :
  step c (CreateIndexIfNotExists n t cols) [] db = inr o →
  is_Some (db_tables db !! t)
  ∧ db_tables db !! n = None
  ∧ o_db o = index_added n t cols db
  ∧ o_conn o = c.
Proof.
  simpl. intros H. inv_steps H. injection H as <-.
  match goal with H : create_index _ _ _ _ = _ |- _ =>
    unfold create_index in H; inv_steps H; rename H into Hc end.
  match goal with H : bool_decide _ = true |- _ =>
    apply bool_decide_eq_true in H end.
  unfold index_added. simpl.
  destruct (db_indexes db !! n); [injection Hc as <-; eauto|].
  inv_steps Hc. injection Hc as <-. eauto.
Qed.

Lemma create_index_present c n t cols db :
  is_Some (db_tables db !! t) → db_tables db !! n = None →
  is_Some (db_indexes db !! n) →
  step c (CreateIndexIfNotExists n t cols) [] db = inr (Outcome db c []).
Proof.
  intros [tb Ht] Hn [ix Hix]. simpl. unfold create_index.
  rewrite Ht, Hn, Hix. done.
Qed.

Lemma create_index_run c n t cols db tb :
  db_tables db !! t = Some tb → db_tables db !! n = None →
  forallb (λ cn, has_column cn (td_columns (t_def tb))) cols = true →
  step c (CreateIndexIfNotExists n t cols) [] db
  = inr (Outcome (index_added n t cols db) c []).
Proof.
  intros Ht Hn Hcols. simpl. unfold create_index, index_added.
  rewrite Ht, Hn. simpl. destruct (db_indexes db !! n); [done|].
  by rewrite Hcols.
Qed.

Lemma index_added_tables n t cols db :
  db_tables (index_added n t cols db) = db_tables db.
Proof. unfold index_added. by destruct (db_indexes db !! n). Qed.

Lemma index_added_present n t cols db :
  is_Some (db_indexes (index_added n t cols db) !! n).
Proof.
  unfold index_added. destruct (db_indexes db !! n) eqn:H; simpl.
  - by rewrite H.
  - rewrite lookup_insert_eq. by eexists.
Qed.

Lemma index_added_mono n t cols db n' :
  is_Some (db_indexes db !! n') → is_Some (db_indexes (index_added n t cols db) !! n').
Proof.
  unfold index_added. destruct (db_indexes db !! n) eqn:H; simpl; [done|].
  intros [x Hx]. rewrite lookup_insert_ne; [by eexists | congruence].
Qed.

(** *** The backfill *)

Lemma needs_backfill_spec sid mid r :
  needs_backfill sid mid r = true
  ↔ (cell sid r = VNull ∨ cell sid r = VText "") ∧ cell mid r ≠ VNull.
Proof.
  unfold needs_backfill. rewrite andb_true_iff, orb_true_iff, negb_true_iff.
  destruct (cell sid r) as [|n|q|s|b], (cell mid r); simpl;
    try (destruct (String.eqb_spec s "") as [->|Hs]);
    (split; [intros [[|] ?]; (done || (split; [auto | done]))
            | intros [[|] ?]; (done || congruence || auto)]).
Qed.

Lemma backfill_row_keeps sid mid m_id m_sid ms r :
  needs_backfill sid mid r = false → backfill_row sid mid m_id m_sid ms r = r.
Proof. intros H. unfold backfill_row. by rewrite H. Qed.

Lemma backfill_row_needed sid mid m_id m_sid ms r :
  needs_backfill sid mid (backfill_row sid mid m_id m_sid ms r) = true →
  needs_backfill sid mid r = true.
Proof.
  destruct (needs_backfill sid mid r) eqn:H; [done|].
  by rewrite backfill_row_keeps, H.
Qed.

Lemma backfill_row_idem sid mid m_id m_sid ms r :
  sid ≠ mid →
  backfill_row sid mid m_id m_sid ms (backfill_row sid mid m_id m_sid ms r)
  = backfill_row sid mid m_id m_sid ms r.
Proof.
  intros Hne. destruct (needs_backfill sid mid r) eqn:H.
  - assert (backfill_row sid mid m_id m_sid ms r
            = set_cell sid (match_series m_id m_sid ms (cell mid r)) r) as ->.
    { unfold backfill_row. by rewrite H. }
    unfold backfill_row.
    destruct (needs_backfill sid mid (set_cell sid _ r)); [|done].
    rewrite cell_set_cell_ne by done. apply set_cell_idem.
  - rewrite (backfill_row_keeps _ _ _ _ _ r) by done.
    by apply backfill_row_keeps.
Qed.

Lemma fks_ok_ext db1 db2 d on r :
  db_tables db1 = db_tables db2 → fks_ok db1 d on r = fks_ok db2 d on r.
Proof. intros H. unfold fks_ok, fk_holds. by rewrite H. Qed.

Lemma forallb_incl {A} (P : A → bool) (l1 l2 : list A) :
  (∀ x, x ∈ l2 → x ∈ l1) → forallb P l1 = true → forallb P l2 = true.
Proof.
  rewrite !forallb_forall. intros Hsub H x Hx.
  apply H, list_elem_of_In, Hsub, list_elem_of_In, Hx.
Qed.

Lemma forallb_pointwise {A} (P Q : A → bool) (l : list A) :
  (∀ x, P x = Q x) → forallb P l = forallb Q l.
Proof. intros H. induction l as [|x l IH]; simpl; [done|]. by rewrite H, IH. Qed.

Lemma set_table_id n t db : db_tables db !! n = Some t → set_table n t db = db.
Proof. intros H. destruct db as [ts ixs]. unfold set_table. simpl in *. by rewrite insert_id. Qed.

(** What a successful backfill has looked up and done. *)
Lemma backfill_inr c db o :
  step c BackfillSeriesId [] db = inr o →
  ∃ pl m sid mid m_id m_sid,
    db_tables db !! "points_ledger" = Some pl
    ∧ db_tables db !! "matches" = Some m
    ∧ col_index "series_id" (td_columns (t_def pl)) = Some sid
    ∧ col_index "match_id" (td_columns (t_def pl)) = Some mid
    ∧ col_index "id" (td_columns (t_def m)) = Some m_id
    ∧ col_index "series_id" (td_columns (t_def m)) = Some m_sid
    ∧ o_db o
      = set_table "points_ledger"
          (Table (t_def pl) (map (backfill_row sid mid m_id m_sid (t_rows m)) (t_rows pl))
             (t_seq pl)) db
    ∧ o_conn o
      = Connection (c_open c) (c_foreign_keys c)
          (Z.of_nat (length (filter (λ r, needs_backfill sid mid r = true) (t_rows pl))))
          (c_last_rowid c).
Proof.
  simpl. unfold backfill. intros H. inv_steps H. injection H as <-.
  do 6 eexists. by repeat split.
Qed.

Lemma backfill_fixed c db o c' db2 :
  step c BackfillSeriesId [] db = inr o →
  db_tables db2 = db_tables (o_db o) →
  c_foreign_keys c' = c_foreign_keys c →
  ∃ o', step c' BackfillSeriesId [] db2 = inr o'
        ∧ o_db o' = db2 ∧ c_foreign_keys (o_conn o') = c_foreign_keys c'.
Proof.
  simpl. unfold backfill. intros H Hdb Hfk. inv_steps H.
  match goal with H : db_tables db !! "points_ledger" = Some ?x |- _ =>
    rename x into pl; rename H into Hpl end.
  match goal with H : db_tables db !! "matches" = Some ?x |- _ =>
    rename x into m; rename H into Hm end.
  match goal with H : col_index "series_id" (td_columns (t_def pl)) = Some ?x |- _ =>
    rename x into sid; rename H into Hsid end.
  match goal with H : col_index "match_id" (td_columns (t_def pl)) = Some ?x |- _ =>
    rename x into mid; rename H into Hmid end.
  match goal with H : col_index "id" (td_columns (t_def m)) = Some ?x |- _ =>
    rename x into m_id; rename H into Hm_id end.
  match goal with H : col_index "series_id" (td_columns (t_def m)) = Some ?x |- _ =>
    rename x into m_sid; rename H into Hm_sid end.
  match goal with H : forallb _ _ = true |- _ => rename H into Hnn end.
  match goal with H : negb _ || _ = true |- _ => rename H into Hfks end.
  injection H as <-. simpl in Hdb.
  set (f := backfill_row sid mid m_id m_sid (t_rows m)) in *.
  assert (sid ≠ mid) as Hne by (eapply col_index_distinct; [|done..]; done).
  assert (∀ r, f (f r) = f r) as Hidem by (intros r; by apply backfill_row_idem).
  assert (db_tables db2 !! "points_ledger"
          = Some (Table (t_def pl) (map f (t_rows pl)) (t_seq pl))) as Hpl2.
  { rewrite Hdb. apply lookup_insert_eq. }
  assert (db_tables db2 !! "matches" = Some m) as Hm2.
  { rewrite Hdb. by rewrite lookup_insert_ne. }
  assert (map f (map f (t_rows pl)) = map f (t_rows pl)) as Hrows.
  { rewrite map_map. by apply map_ext. }
  assert (∀ x, x ∈ map f (filter (λ r, needs_backfill sid mid r = true) (map f (t_rows pl)))
             → x ∈ map f (filter (λ r, needs_backfill sid mid r = true) (t_rows pl)))
    as Hsub.
  { intros x Hx. apply (list_elem_of_fmap_1 f) in Hx as (r' & -> & Hr').
    apply list_elem_of_filter in Hr' as [Hneeds Hr'].
    apply (list_elem_of_fmap_1 f) in Hr' as (r & -> & Hr).
    rewrite Hidem.
    apply (list_elem_of_fmap_2 f), list_elem_of_filter. split; [|done].
    by apply backfill_row_needed in Hneeds. }
  rewrite Hpl2, Hm2. simpl. rewrite Hsid, Hm_sid, Hm_id, Hmid. simpl.
  fold f. rewrite Hrows.
  rewrite (forallb_incl _ _ _ Hsub Hnn). simpl.
  rewrite (set_table_id _ _ db2 Hpl2).
  assert (negb (c_foreign_keys c')
          || forallb (fks_ok db2 (t_def pl) (λ fk, String.eqb (fk_from fk) "series_id"))
               (map f (filter (λ r, needs_backfill sid mid r = true) (map f (t_rows pl))))
          = true) as ->.
  { rewrite Hfk. destruct (c_foreign_keys c); simpl in *; [|done].
    apply (forallb_incl _ _ _ Hsub).
    erewrite forallb_pointwise; [exact Hfks|].
    intros r. by apply fks_ok_ext. }
  simpl. by eexists.
Qed.

(** *** Adding the missing columns *)

Lemma ledger_with_has n tb : has_column n (td_columns (t_def (ledger_with n tb))) = true.
Proof.
  unfold ledger_with. destruct (has_column n (td_columns (t_def tb))) eqn:H; [done|].
  apply has_column_true. simpl. rewrite col_index_app.
  apply has_column_false in H. rewrite H. simpl. rewrite String.eqb_refl. by eexists.
Qed.

Lemma ledger_with_keeps n n' tb :
  has_column n' (td_columns (t_def tb)) = true →
  has_column n' (td_columns (t_def (ledger_with n tb))) = true.
Proof.
  intros H. unfold ledger_with. destruct (has_column n (td_columns (t_def tb))); [done|].
  apply has_column_true in H as [i Hi]. apply has_column_true. simpl.
  rewrite col_index_app, Hi. by eexists.
Qed.

Lemma ledger_with_other n n' tb :
  n ≠ n' →
  has_column n' (td_columns (t_def (ledger_with n tb)))
  = has_column n' (td_columns (t_def tb)).
Proof.
  intros Hne. unfold ledger_with. destruct (has_column n (td_columns (t_def tb))); [done|].
  unfold has_column. simpl. rewrite col_index_app.
  destruct (col_index n' _) eqn:H; [done|]. simpl.
  destruct (String.eqb_spec n n'); [done|]. done.
Qed.

Lemma ledger_with_rows n tb : t_rows (ledger_with n tb) = t_rows tb.
Proof. unfold ledger_with. by destruct (has_column n (td_columns (t_def tb))). Qed.

(** One guarded ALTER TABLE of the migration. *)
Lemma ensure_column_inr o0 n o :
  (if includes (ledger_names (o_db o0)) n then inr o0
   else step (o_conn o0) (AlterTableAddColumn "points_ledger" n INTEGER) [] (o_db o0))
  = inr o →
  ∃ tb, db_tables (o_db o0) !! "points_ledger" = Some tb
        ∧ o_db o = set_table "points_ledger" (ledger_with n tb) (o_db o0)
        ∧ o_conn o = o_conn o0.
Proof.
  rewrite includes_ledger_names.
  destruct (db_tables (o_db o0) !! "points_ledger") as [tb|] eqn:Htb.
  - destruct (has_column n (td_columns (t_def tb))) eqn:Hn.
    + intros [= <-]. exists tb. unfold ledger_with. rewrite Hn.
      by rewrite set_table_id.
    + intros H. apply add_column_inr in H as (tb' & Htb' & _ & -> & ->).
      rewrite Htb in Htb'. injection Htb' as <-. exists tb.
      unfold ledger_with. by rewrite Hn.
  - intros H. apply add_column_inr in H as (tb' & Htb' & _). congruence.
Qed.

Lemma ensure_column_run o0 n tb :
  db_tables (o_db o0) !! "points_ledger" = Some tb →
  ∃ o, (if includes (ledger_names (o_db o0)) n then inr o0
        else step (o_conn o0) (AlterTableAddColumn "points_ledger" n INTEGER) []
               (o_db o0)) = inr o
       ∧ o_db o = set_table "points_ledger" (ledger_with n tb) (o_db o0)
       ∧ o_conn o = o_conn o0.
Proof.
  intros Htb. rewrite includes_ledger_names, Htb. unfold ledger_with.
  destruct (has_column n (td_columns (t_def tb))) eqn:Hn.
  - exists o0. by rewrite set_table_id.
  - apply has_column_false in Hn. rewrite (add_column_run _ _ _ _ _ tb) by done.
    by eexists.
Qed.

Lemma set_table_twice n t1 t2 db : set_table n t2 (set_table n t1 db) = set_table n t2 db.
Proof. unfold set_table. simpl. by rewrite insert_insert_eq. Qed.

Lemma set_table_lookup n t db : db_tables (set_table n t db) !! n = Some t.
Proof. apply lookup_insert_eq. Qed.

Lemma set_table_lookup_ne n n' t db :
  n ≠ n' → db_tables (set_table n t db) !! n' = db_tables db !! n'.
Proof. intros H. by apply lookup_insert_ne. Qed.

Lemma migrate_steps_inr c db o :
  migrate_steps c db = inr o →
  ∃ tb o3,
    db_tables db !! "points_ledger" = Some tb
    ∧ step c BackfillSeriesId [] (set_table "points_ledger" (ledger_ready tb) db) = inr o3
    ∧ db_tables (o_db o3) !! "idx_points_ledger_series_user" = None
    ∧ db_tables (o_db o3) !! "idx_points_ledger_match" = None
    ∧ o_db o
      = index_added "idx_points_ledger_match" "points_ledger" ["match_id"]
          (index_added "idx_points_ledger_series_user" "points_ledger"
             ["series_id"; "user_id"] (o_db o3))
    ∧ o_conn o = o_conn o3.
Proof.
  unfold migrate_steps. intros H.
  apply ebind_inr in H as (o1 & H1 & H).
  apply (ensure_column_inr (Outcome db c [])) in H1 as (tb & Htb & Hdb1 & Hc1).
  simpl in Htb, Hdb1, Hc1.
  apply ebind_inr in H as (o2 & H2 & H).
  assert (includes (ledger_names db) "match_id"
          = includes (ledger_names (o_db o1)) "match_id") as Hinc.
  { rewrite !includes_ledger_names, Htb, Hdb1, set_table_lookup.
    by rewrite ledger_with_other. }
  rewrite Hinc in H2. unfold add_match_id in H2.
  apply ensure_column_inr in H2 as (tb1 & Htb1 & Hdb2 & Hc2).
  rewrite Hdb1, set_table_lookup in Htb1. injection Htb1 as <-.
  rewrite Hdb1, set_table_twice in Hdb2.
  apply ebind_inr in H as (o3 & H3 & H).
  apply ebind_inr in H as (o4 & H4 & H5).
  rewrite Hdb2, Hc2, Hc1 in H3.
  apply create_index_inr in H4 as (_ & Hn4 & Hdb4 & Hc4).
  apply create_index_inr in H5 as (_ & Hn5 & Hdb5 & Hc5).
  rewrite Hdb4, index_added_tables in Hn5.
  exists tb, o3. rewrite Hdb5, Hdb4, Hc5, Hc4. done.
Qed.

Lemma create_index_ok c n t cols db tb :
  db_tables db !! t = Some tb → db_tables db !! n = None →
  is_Some (db_indexes db !! n)
  ∨ forallb (λ cn, has_column cn (td_columns (t_def tb))) cols = true →
  step c (CreateIndexIfNotExists n t cols) [] db
  = inr (Outcome (index_added n t cols db) c []).
Proof.
  intros Ht Hn [[ix Hix]|Hcols].
  - rewrite create_index_present by (rewrite ?Ht, ?Hix; eauto).
    unfold index_added. by rewrite Hix.
  - by apply (create_index_run _ _ _ _ _ tb).
Qed.

Lemma index_added_id n t cols db :
  is_Some (db_indexes db !! n) → index_added n t cols db = db.
Proof. intros [ix H]. unfold index_added. by rewrite H. Qed.

Lemma ledger_ready_columns tb n :
  n = "series_id" ∨ n = "match_id" ∨ has_column n (td_columns (t_def tb)) = true →
  has_column n (td_columns (t_def (ledger_ready tb))) = true.
Proof.
  unfold ledger_ready. intros [->|[->|H]].
  - apply ledger_with_keeps, ledger_with_has.
  - apply ledger_with_has.
  - by do 2 apply ledger_with_keeps.
Qed.

Lemma ledger_ready_rows tb : t_rows (ledger_ready tb) = t_rows tb.
Proof. unfold ledger_ready. by rewrite !ledger_with_rows. Qed.

Lemma ledger_ready_id tb :
  has_column "series_id" (td_columns (t_def tb)) = true →
  has_column "match_id" (td_columns (t_def tb)) = true →
  ledger_ready tb = tb.
Proof.
  intros H1 H2. unfold ledger_ready, ledger_with. by rewrite H1, H2.
Qed.

(** When the migration goes through. *)
Lemma migrate_steps_run c db tb o3 :
  db_tables db !! "points_ledger" = Some tb →
  step c BackfillSeriesId [] (set_table "points_ledger" (ledger_ready tb) db) = inr o3 →
  db_tables db !! "idx_points_ledger_series_user" = None →
  db_tables db !! "idx_points_ledger_match" = None →
  is_Some (db_indexes db !! "idx_points_ledger_series_user")
  ∨ has_column "user_id" (td_columns (t_def tb)) = true →
  ∃ o, migrate_steps c db = inr o
       ∧ o_db o
         = index_added "idx_points_ledger_match" "points_ledger" ["match_id"]
             (index_added "idx_points_ledger_series_user" "points_ledger"
                ["series_id"; "user_id"] (o_db o3))
       ∧ o_conn o = o_conn o3.
Proof.
  intros Htb H3 Hn1 Hn2 Hix. unfold migrate_steps.
  destruct (ensure_column_run (Outcome db c []) "series_id" tb Htb)
    as (o1 & H1 & Hdb1 & Hc1). cbn [o_db o_conn] in H1, Hdb1, Hc1.
  unfold add_series_id, add_match_id. rewrite H1. cbn [ebind].
  assert (includes (ledger_names db) "match_id"
          = includes (ledger_names (o_db o1)) "match_id") as ->.
  { rewrite !includes_ledger_names, Htb, Hdb1, set_table_lookup.
    by rewrite ledger_with_other. }
  destruct (ensure_column_run o1 "match_id" (ledger_with "series_id" tb))
    as (o2 & -> & Hdb2 & Hc2); [by rewrite Hdb1, set_table_lookup|].
  cbn [ebind]. rewrite Hdb1, set_table_twice in Hdb2.
  rewrite Hdb2, Hc2, Hc1. fold (ledger_ready tb). rewrite H3. cbn [ebind].
  apply backfill_inr in H3
    as (pl & m & sid & mid & m_id & m_sid & Hpl & Hm & _ & _ & _ & _ & Hdb3 & Hc3).
  rewrite set_table_lookup in Hpl. injection Hpl as <-.
  rewrite set_table_twice in Hdb3.
  set (tb3 := Table _ _ _) in Hdb3.
  assert (db_tables (o_db o3) !! "points_ledger" = Some tb3) as Htb3
    by (by rewrite Hdb3, set_table_lookup).
  unfold idx_series_user, idx_match.
  rewrite (create_index_ok _ _ _ _ _ tb3); [| done | |].
  - cbn [ebind o_db o_conn].
    rewrite (create_index_ok _ _ _ _ _ tb3).
    + by eexists.
    + by rewrite index_added_tables.
    + by rewrite index_added_tables, Hdb3, set_table_lookup_ne.
    + right. simpl. rewrite andb_true_r. apply ledger_ready_columns. auto.
  - by rewrite Hdb3, set_table_lookup_ne.
  - destruct Hix as [Hix|Hu].
    + left. by rewrite Hdb3.
    + right. simpl. rewrite andb_true_r. apply andb_true_iff.
      split; apply ledger_ready_columns; auto.
Qed.

(** Running the migration once more changes nothing. *)
Lemma migrate_steps_again c db o c' :
  migrate_steps c db = inr o →
  c_foreign_keys c' = c_foreign_keys c →
  ∃ o', migrate_steps c' (o_db o) = inr o'
        ∧ o_db o' = o_db o
        ∧ includes (ledger_names (o_db o)) "series_id" = true
        ∧ includes (ledger_names (o_db o)) "match_id" = true.
Proof.
  intros H Hfk.
  apply migrate_steps_inr in H as (tb & o3 & Htb & H3 & Hn1 & Hn2 & Hdb & Hc).
  pose proof H3 as H3'.
  apply backfill_inr in H3'
    as (pl & m & sid & mid & m_id & m_sid & Hpl & Hm & _ & _ & _ & _ & Hdb3 & Hc3).
  rewrite set_table_lookup in Hpl. injection Hpl as <-.
  rewrite set_table_twice in Hdb3.
  set (tb3 := Table _ _ _) in Hdb3.
  assert (db_tables (o_db o) = db_tables (o_db o3)) as Htabs
    by (by rewrite Hdb, !index_added_tables).
  assert (db_tables (o_db o) !! "points_ledger" = Some tb3) as Htb3
    by (by rewrite Htabs, Hdb3, set_table_lookup).
  assert (has_column "series_id" (td_columns (t_def tb3)) = true) as Hs
    by (apply ledger_ready_columns; auto).
  assert (has_column "match_id" (td_columns (t_def tb3)) = true) as Hm3
    by (apply ledger_ready_columns; auto).
  assert (is_Some (db_indexes (o_db o) !! "idx_points_ledger_series_user")) as Hi1
    by (rewrite Hdb; apply index_added_mono, index_added_present).
  assert (is_Some (db_indexes (o_db o) !! "idx_points_ledger_match")) as Hi2
    by (rewrite Hdb; apply index_added_present).
  destruct (backfill_fixed c _ o3 c' (o_db o) H3 Htabs Hfk) as (o3' & H3'' & Hdb3' & _).
  destruct (migrate_steps_run c' (o_db o) tb3 o3') as (o' & Ho' & Hdb' & _).
  - done.
  - rewrite ledger_ready_id by done. by rewrite set_table_id.
  - by rewrite Htabs.
  - by rewrite Htabs.
  - by left.
  - exists o'. split; [done|]. rewrite !includes_ledger_names, Htb3.
    split; [|done]. rewrite Hdb', Hdb3'.
    by rewrite !index_added_id by (rewrite ?index_added_id; done).
Qed.

Lemma migrate_steps_tables c db o :
  migrate_steps c db = inr o →
  (∀ n, n ≠ "points_ledger" → db_tables (o_db o) !! n = db_tables db !! n)
  ∧ is_Some (db_tables (o_db o) !! "points_ledger")
  ∧ c_foreign_keys (o_conn o) = c_foreign_keys c.
Proof.
  intros H.
  apply migrate_steps_inr in H as (tb & o3 & Htb & H3 & Hn1 & Hn2 & Hdb & Hc).
  apply backfill_inr in H3
    as (pl & m & sid & mid & m_id & m_sid & Hpl & Hm & _ & _ & _ & _ & Hdb3 & Hc3).
  rewrite set_table_twice in Hdb3.
  rewrite Hdb, !index_added_tables, Hdb3, Hc, Hc3.
  split; [|split; [|done]].
  - intros n Hn. by rewrite set_table_lookup_ne.
  - rewrite set_table_lookup. by eexists.
Qed.

(** *** A second initDb *)

Lemma init_steps_again env c db c1 db1 o2 o3 o c' :
  script_steps c schema_script db = inr (c1, db1) →
  step c1 SelectCountUsers [] db1 = inr o2 →
  (if no_users (head (o_rows o2))
   then step (o_conn o2) InsertUser (admin_params env) (o_db o2)
   else inr o2) = inr o3 →
  migrate_steps (o_conn o3) (o_db o3) = inr o →
  ∃ o2' o',
    script_steps c' schema_script (o_db o) = inr (with_foreign_keys c', o_db o)
    ∧ step (with_foreign_keys c') SelectCountUsers [] (o_db o) = inr o2'
    ∧ no_users (head (o_rows o2')) = false
    ∧ o_db o2' = o_db o
    ∧ o_conn o2' = with_foreign_keys c'
    ∧ migrate_steps (with_foreign_keys c') (o_db o) = inr o'
    ∧ o_db o' = o_db o
    ∧ includes (ledger_names (o_db o)) "series_id" = true
    ∧ includes (ledger_names (o_db o)) "match_id" = true.
Proof.
  intros Hscript Hcount Hboot Hmig.
  apply schema_script_steps in Hscript as [-> ->].
  apply select_count_inr in Hcount as (tu & Htu & ->).
  cbn [o_rows o_db o_conn] in Hboot.
  set (db1 := Database _ _) in *.
  assert ((∀ nd, nd ∈ schema_tables → is_Some (db_tables (o_db o3) !! nd.1))
          ∧ (∃ tu3, db_tables (o_db o3) !! "users" = Some tu3 ∧ t_rows tu3 ≠ [])
          ∧ c_foreign_keys (o_conn o3) = true) as (Hall & (tu3 & Htu3 & Hrows) & Hfk).
  { rewrite no_users_count in Hboot.
    destruct (bool_decide (length (t_rows tu) = 0%nat)) eqn:Hz.
    - apply insert_user_inr in Hboot as (t & r & seq & Ht & -> & ->).
      split; [|split; [|done]].
      + intros nd Hnd. destruct (decide ("users" = nd.1)) as [<-|Hne].
        * rewrite set_table_lookup. by eexists.
        * rewrite set_table_lookup_ne by done.
          by apply ensure_tables_present.
      + eexists. rewrite set_table_lookup. split; [done|]. simpl.
        by destruct (t_rows t).
    - injection Hboot as <-. cbn [o_db o_conn]. split; [|split; [|done]].
      + intros nd Hnd. by apply ensure_tables_present.
      + exists tu. split; [done|]. apply bool_decide_eq_false in Hz.
        by destruct (t_rows tu). }
  destruct (migrate_steps_tables _ _ _ Hmig) as (Hother & Hledger & _).
  destruct (migrate_steps_again _ _ _ (with_foreign_keys c') Hmig)
    as (o' & Ho' & Hdb' & Hs & Hm); [by rewrite Hfk|].
  assert (db_tables (o_db o) !! "users" = Some tu3) as Hu
    by (by rewrite Hother).
  exists (Outcome (o_db o) (with_foreign_keys c')
            [[("c", VInt (Z.of_nat (length (t_rows tu3))))]]), o'.
  split; [|split; [|split; [|done]]].
  - apply schema_script_noop. intros nd Hnd.
    destruct (decide (nd.1 = "points_ledger")) as [->|Hne]; [done|].
    rewrite Hother by done. by apply Hall.
  - simpl. by rewrite Hu.
  - cbn [o_rows]. rewrite no_users_count. apply bool_decide_eq_false.
    by destruct (t_rows tu3).
Qed.

(** *** Arbitrary worlds *)

Lemma closed_statement {A} (res : outcome → A) h sql params s e :
  open_conn s h = inl e → sqlite_statement res h sql params s = (s, inl e).
Proof. intros H. unfold sqlite_statement. by rewrite H. Qed.

Lemma closed_exec h script s e :
  open_conn s h = inl e → sqlite_exec h script s = (s, Some e).
Proof.
  intros H. destruct script as [|sql rest]; simpl; [by rewrite H|].
  by rewrite (closed_statement _ _ _ _ _ e).
Qed.

Lemma open_conn_inr s h c :
  open_conn s h = inr c → conns s !! h = Some c ∧ c_open c = true.
Proof.
  unfold open_conn. destruct (conns s !! h) as [c0|]; [|done].
  destruct (c_open c0) eqn:Ho; [|done]. by intros [= <-].
Qed.

Lemma world_on_handle (w : world sqlite) inst c :
  conns (store w) !! raw inst = Some c →
  w = on_handle (conns (store w)) inst (dbInstance w) c (db_file (store w)) (trace w).
Proof.
  intros H. destruct w as [[db cs] cached t]. unfold on_handle. simpl in *.
  by rewrite list_insert_id.
Qed.

Lemma getDb_opens env (w : world sqlite) :
  dbInstance w = None →
  let h := length (conns (store w)) in
  getDb env w
  = (on_handle (conns (store w) ++ [Connection true false 0 0]) (wrapDb env h)
       (Some (wrapDb env h)) (Connection true true 0 0) (db_file (store w))
       (trace w ++ [EvOpen (dbPath env) h; EvExec h [PragmaForeignKeysOn]]),
     Fulfilled (wrapDb env h)).
Proof.
  intros Hw h.
  set (cs := conns (store w) ++ [Connection true false 0 0]).
  assert (cs !! h = Some (Connection true false 0 0)) as Hh.
  { subst cs h. rewrite lookup_app_r by lia. by rewrite Nat.sub_diag. }
  assert (h < length cs)%nat as Hlen by (by eapply lookup_lt_Some).
  assert (sqlite_exec h [PragmaForeignKeysOn] (Sqlite (db_file (store w)) cs)
          = (Sqlite (db_file (store w)) (<[h := Connection true true 0 0]> cs), None))
    as He.
  { pose proof (sqlite_exec_on_handle cs (wrapDb env h) Hlen [PragmaForeignKeysOn]
                  (Connection true false 0 0) (db_file (store w)) eq_refl) as He.
    destruct He as [He _]. rewrite list_insert_id in He by done. exact He. }
  unfold getDb. rewrite Hw.
  change (drv_open (dbPath env) (store w)) with (Sqlite (db_file (store w)) cs, h).
  cbv beta iota.
  change (drv_exec h [PragmaForeignKeysOn] (Sqlite (db_file (store w)) cs))
    with (sqlite_exec h [PragmaForeignKeysOn] (Sqlite (db_file (store w)) cs)).
  by rewrite He.
Qed.

(** A call of initDb that completes has run on an open handle, after at
    most the opening of the connection. *)
Lemma initDb_fulfilled_form env (w w1 : world sqlite) :
  initDb env w = (w1, Fulfilled tt) →
  ∃ conns0 inst c pre,
    (raw inst < length conns0)%nat ∧ c_open c = true
    ∧ forallb (λ e, negb (is_alter e)) pre = true
    ∧ initDb env w
      = initDb env (on_handle conns0 inst (Some inst) c (db_file (store w))
                      (trace w ++ pre)).
Proof.
  intros H. destruct (dbInstance w) as [inst|] eqn:Hw.
  - destruct (open_conn (store w) (raw inst)) as [e|c] eqn:Ho.
    + exfalso. unfold initDb in H. rewrite (bind_getDb_cached _ _ _ inst Hw) in H.
      assert ((exec inst schema_script w).2 = Rejected e) as Hx.
      { unfold exec.
        change (drv_exec (raw inst) schema_script (store w))
          with (sqlite_exec (raw inst) schema_script (store w)).
        by rewrite (closed_exec _ _ _ e Ho). }
      unfold bind at 1 in H.
      destruct (exec inst schema_script w) as [w0 [[]|e0]]; simpl in Hx; discriminate.
    + apply open_conn_inr in Ho as [Hc Hopen].
      exists (conns (store w)), inst, c, [].
      split; [by eapply lookup_lt_Some|]. split; [done|]. split; [done|].
      rewrite app_nil_r, <- Hw. by rewrite <- world_on_handle.
  - pose proof (getDb_opens env w Hw) as Hg. cbv zeta in Hg.
    exists (conns (store w) ++ [Connection true false 0 0]),
      (wrapDb env (length (conns (store w)))), (Connection true true 0 0),
      [EvOpen (dbPath env) (length (conns (store w)));
       EvExec (length (conns (store w))) [PragmaForeignKeysOn]].
    split; [rewrite length_app; simpl; lia|]. split; [done|]. split; [done|].
    unfold initDb at 1. unfold bind at 1. rewrite Hg.
    unfold initDb.
    by rewrite (bind_getDb_cached _ _ _ (wrapDb env (length (conns (store w))))).
Qed.

(** *** initDb on an empty database file *)

Lemma init_steps_empty env c :
  script_steps c schema_script empty_database = inr (with_foreign_keys c, schema_only)
  ∧ step (with_foreign_keys c) SelectCountUsers [] schema_only
    = inr (Outcome schema_only (with_foreign_keys c) [[("c", VInt 0)]])
  ∧ step (with_foreign_keys c) InsertUser (admin_params env) schema_only
    = inr (Outcome (set_table "users" (Table users_def [admin_row env] 1) schema_only)
             (Connection (c_open c) true 1 1) [])
  ∧ migrate_steps (Connection (c_open c) true 1 1)
      (set_table "users" (Table users_def [admin_row env] 1) schema_only)
    = inr (Outcome (bootstrapped_database env) (Connection (c_open c) true 0 1) []).
Proof. repeat split; by vm_compute. Qed.

(** C1: when a call of initDb has completed, the next call completes as
    well, leaves the database file exactly as it was, and issues neither an
    INSERT nor an ALTER TABLE; on a file that was empty before the first
    call, the file then holds the six tables, the two indexes and exactly
    one user, the bootstrap admin. *)
Theorem initDb_twice_idempotent env (w w1 : world sqlite) :
  initDb env w = (w1, Fulfilled tt) →
  ∃ w2 inst,
    initDb env w1 = (w2, Fulfilled tt)
    ∧ dbInstance w1 = Some inst
    ∧ dbInstance w2 = Some inst
    ∧ db_file (store w2) = db_file (store w1)
    ∧ trace w2 = trace w1 ++ repeat_trace (raw inst)
    ∧ (db_file (store w) = empty_database →
       db_file (store w2) = bootstrapped_database env).
Proof.
  intros H.
  destruct (initDb_fulfilled_form env w w1 H)
    as (conns0 & inst & c & pre & Hlen & Hc & _ & Heq).
  rewrite Heq in H. clear Heq.
  pose proof (initDb_on_handle env conns0 inst Hlen c (db_file (store w))
                (trace w ++ pre) Hc) as H1.
  destruct (script_steps c schema_script (db_file (store w))) as [e|[c1 db1]] eqn:E1;
    [rewrite H in H1; discriminate|].
  destruct (step c1 SelectCountUsers [] db1) as [e|o2] eqn:E2;
    [rewrite H in H1; discriminate|].
  destruct (if no_users (head (o_rows o2))
            then step (o_conn o2) InsertUser (admin_params env) (o_db o2)
            else inr o2) as [e|o3] eqn:E3;
    [rewrite H in H1; discriminate|].
  destruct (migrate_steps (o_conn o3) (o_db o3)) as [e|o] eqn:E4;
    [rewrite H in H1; discriminate|].
  destruct H1 as [H1 Ho]. rewrite H in H1. injection H1 as ->.
  destruct (init_steps_again env c _ c1 db1 o2 o3 o (o_conn o) E1 E2 E3 E4)
    as (o2' & o' & S1 & S2 & S3 & S4 & S5 & S6 & S7 & S8 & S9).
  match goal with |- context [on_handle conns0 inst (Some inst) (o_conn o) (o_db o) ?t1] =>
    pose proof (initDb_on_handle env conns0 inst Hlen (o_conn o) (o_db o) t1 Ho) as H2
  end.
  rewrite S1, S2, S3, S5, S4, S6 in H2. destruct H2 as [H2 Ho'].
  eexists _, inst. split; [exact H2|].
  split; [done|]. split; [done|]. split; [by simpl|]. split.
  - simpl. unfold migrate_trace. by rewrite S8, S9.
  - intros Hempty. simpl. rewrite S7.
    destruct (init_steps_empty env c) as (X1 & X2 & X3 & X4).
    rewrite Hempty, X1 in E1. injection E1 as <- <-.
    rewrite X2 in E2. injection E2 as <-.
    cbn [o_rows o_db o_conn] in E3.
    change (no_users (head [[("c", VInt 0)]])) with true in E3.
    rewrite X3 in E3. injection E3 as <-.
    cbn [o_db o_conn] in E4. rewrite X4 in E4. by injection E4 as <-.
Qed.

(** C9: when the file has no points_ledger table before initDb, the table
    that initDb leaves is the one its own CREATE TABLE declares, with
    user_id, match_id and series_id NOT NULL; PRAGMA table_info reports both
    series_id and match_id, the backfill follows it directly, and the call
    issues no ALTER TABLE.  A ledger with nullable series_id or match_id is
    therefore never one that this module created. *)
Theorem fresh_ledger_is_not_null env (w w1 : world sqlite) :
  initDb env w = (w1, Fulfilled tt) →
  db_tables (db_file (store w)) !! "points_ledger" = None →
  ∃ tb inst t0 t1,
    db_tables (db_file (store w1)) !! "points_ledger" = Some tb
    ∧ t_def tb = points_ledger_def
    ∧ declared_not_null "user_id" (t_def tb)
    ∧ declared_not_null "match_id" (t_def tb)
    ∧ declared_not_null "series_id" (t_def tb)
    ∧ includes (ledger_names (db_file (store w1))) "series_id" = true
    ∧ includes (ledger_names (db_file (store w1))) "match_id" = true
    ∧ dbInstance w1 = Some inst
    ∧ trace w1
      = trace w ++ t0
        ++ [EvAll (raw inst) (PragmaTableInfo "points_ledger") [];
            EvRun (raw inst) BackfillSeriesId []] ++ t1
    ∧ forallb (λ e, negb (is_alter e)) (t0 ++ t1) = true.
Proof.
  intros H Hfresh.
  destruct (initDb_fulfilled_form env w w1 H)
    as (conns0 & inst & c & pre & Hlen & Hc & Hpre & Heq).
  rewrite Heq in H. clear Heq.
  pose proof (initDb_on_handle env conns0 inst Hlen c (db_file (store w))
                (trace w ++ pre) Hc) as H1.
  destruct (script_steps c schema_script (db_file (store w))) as [e|[c1 db1]] eqn:E1;
    [rewrite H in H1; discriminate|].
  destruct (step c1 SelectCountUsers [] db1) as [e|o2] eqn:E2;
    [rewrite H in H1; discriminate|].
  destruct (if no_users (head (o_rows o2))
            then step (o_conn o2) InsertUser (admin_params env) (o_db o2)
            else inr o2) as [e|o3] eqn:E3;
    [rewrite H in H1; discriminate|].
  destruct (migrate_steps (o_conn o3) (o_db o3)) as [e|o] eqn:E4;
    [rewrite H in H1; discriminate|].
  destruct H1 as [H1 Ho]. rewrite H in H1. injection H1 as ->.
  apply schema_script_steps in E1 as [-> ->].
  apply select_count_inr in E2 as (tu & Htu & ->).
  cbn [o_rows o_db o_conn] in E3.
  set (db1 := Database _ _) in *.
  set (tb := Table points_ledger_def [] 0).
  assert (db_tables db1 !! "points_ledger" = Some tb) as Hl1.
  { subst db1 tb. cbn [db_tables].
    apply ensure_tables_new; [| | done].
    - apply (bool_decide_unpack _). by vm_compute.
    - apply list_elem_of_In. simpl. auto 10. }
  assert (db_tables (o_db o3) !! "points_ledger" = Some tb) as Hl3.
  { destruct (no_users _).
    - apply insert_user_inr in E3 as (t & r & seq & Ht & -> & _).
      by rewrite set_table_lookup_ne.
    - by injection E3 as <-. }
  pose proof E4 as E4'.
  apply migrate_steps_inr in E4' as (tb' & o3' & Htb' & H3 & _ & _ & Hdb & _).
  rewrite Hl3 in Htb'. injection Htb' as <-.
  rewrite (ledger_ready_id tb) in H3 by done.
  apply backfill_inr in H3
    as (pl & m & sid & mid & m_id & m_sid & Hpl & _ & _ & _ & _ & _ & Hdb3 & _).
  rewrite set_table_lookup in Hpl. injection Hpl as <-.
  rewrite set_table_twice in Hdb3. cbn [t_def t_rows t_seq tb map] in Hdb3.
  fold tb in Hdb3.
  assert (db_tables (o_db o) !! "points_ledger" = Some tb) as Hl.
  { by rewrite Hdb, !index_added_tables, Hdb3, set_table_lookup. }
  assert (includes (ledger_names (o_db o3)) "series_id" = true) as I1
    by (by rewrite includes_ledger_names, Hl3).
  assert (includes (ledger_names (o_db o3)) "match_id" = true) as I2
    by (by rewrite includes_ledger_names, Hl3).
  exists tb, inst,
    (pre ++ [EvExec (raw inst) schema_script; EvGet (raw inst) SelectCountUsers []]
       ++ (if no_users (head [[("c", VInt (Z.of_nat (length (t_rows tu))))]])
           then bootstrap_trace env (raw inst) else [])),
    [EvRun (raw inst) idx_series_user []; EvRun (raw inst) idx_match [];
     EvLog "[Migration] points_ledger schema ensured and backfilled."].
  cbn [store db_file on_handle dbInstance trace].
  split; [done|]. split; [done|].
  split; [exists (col "user_id" INTEGER true); repeat split;
          apply list_elem_of_In; simpl; auto 10|].
  split; [exists (col "match_id" INTEGER true); repeat split;
          apply list_elem_of_In; simpl; auto 10|].
  split; [exists (col "series_id" INTEGER true); repeat split;
          apply list_elem_of_In; simpl; auto 10|].
  split; [by rewrite includes_ledger_names, Hl|].
  split; [by rewrite includes_ledger_names, Hl|].
  split; [done|]. split.
  - unfold migrate_trace. rewrite I1, I2. rewrite <- !app_assoc. reflexivity.
  - rewrite !forallb_app, Hpre. destruct (no_users _); reflexivity.
Qed.

(** *** The migration on an arbitrary world *)

Lemma ensure_fulfilled_form inst (w w1 : world sqlite) :
  ensurePointsLedgerSchema inst w = (w1, Fulfilled tt) →
  ∃ c o,
    conns (store w) !! raw inst = Some c ∧ c_open c = true
    ∧ migrate_steps c (db_file (store w)) = inr o
    ∧ w1 = on_handle (conns (store w)) inst (dbInstance w) (o_conn o) (o_db o)
             (trace w ++ migrate_trace (raw inst) (ledger_names (db_file (store w)))).
Proof.
  intros H. destruct (open_conn (store w) (raw inst)) as [e|c] eqn:Ho.
  - exfalso. unfold ensurePointsLedgerSchema, bind at 1, all in H.
    change (drv_all (raw inst) (PragmaTableInfo "points_ledger") [] (store w))
      with (sqlite_statement o_rows (raw inst) (PragmaTableInfo "points_ledger") []
              (store w)) in H.
    rewrite (closed_statement _ _ _ _ _ e Ho) in H. discriminate.
  - apply open_conn_inr in Ho as [Hc Hopen].
    assert (raw inst < length (conns (store w)))%nat as Hlen
      by (by eapply lookup_lt_Some).
    rewrite (world_on_handle w inst c Hc) in H.
    pose proof (ensure_on_handle (conns (store w)) inst Hlen (dbInstance w) c
                  (db_file (store w)) (trace w) Hopen) as Hm.
    destruct (migrate_steps c (db_file (store w))) as [e|o] eqn:Hmig.
    + rewrite H in Hm. discriminate.
    + destruct Hm as [Hm _]. rewrite H in Hm. injection Hm as ->.
      by exists c, o.
Qed.

Lemma sql_true_eq a b : sql_true (sql_eq a b) = true ↔ sql_eq a b = Some true.
Proof. destruct (sql_eq a b) as [[]|]; simpl; split; congruence. Qed.


Lemma match_series_missing m_id m_sid ms v :
  (∀ m, m ∈ ms → sql_eq (cell m_id m) v ≠ Some true) →
  match_series m_id m_sid ms v = VNull.
Proof.
  intros Hnone. unfold match_series.
  destruct (List.find _ ms) as [m'|] eqn:Hf; [|done].
  apply find_some in Hf as [Hin' Heq'].
  apply list_elem_of_In in Hin'. apply sql_true_eq in Heq'.
  by destruct (Hnone m' Hin').
Qed.

(** What a completed migration did to the ledger. *)
Lemma migrate_steps_rows c db o :
  migrate_steps c db = inr o →
  ∃ pl m sid mid m_id m_sid,
    db_tables db !! "points_ledger" = Some pl
    ∧ db_tables db !! "matches" = Some m
    ∧ db_tables (o_db o) !! "matches" = Some m
    ∧ db_tables (o_db o) !! "points_ledger"
      = Some (Table (t_def (ledger_ready pl))
                (map (backfill_row sid mid m_id m_sid (t_rows m)) (t_rows pl))
                (t_seq (ledger_ready pl)))
    ∧ col_index "series_id" (td_columns (t_def (ledger_ready pl))) = Some sid
    ∧ col_index "match_id" (td_columns (t_def (ledger_ready pl))) = Some mid
    ∧ col_index "id" (td_columns (t_def m)) = Some m_id
    ∧ col_index "series_id" (td_columns (t_def m)) = Some m_sid
    ∧ c_changes (o_conn o)
      = Z.of_nat (length (filter (λ r, needs_backfill sid mid r = true) (t_rows pl))).
Proof.
  intros H.
  apply migrate_steps_inr in H as (tb & o3 & Htb & H3 & _ & _ & Hdb & Hc).
  apply backfill_inr in H3
    as (pl & m & sid & mid & m_id & m_sid & Hpl & Hm & Hsid & Hmid & Hm_id & Hm_sid
        & Hdb3 & Hc3).
  rewrite set_table_lookup in Hpl. injection Hpl as <-.
  rewrite set_table_lookup_ne in Hm by done.
  rewrite set_table_twice, ledger_ready_rows in Hdb3.
  exists tb, m, sid, mid, m_id, m_sid.
  rewrite Hdb, !index_added_tables, Hdb3, Hc, Hc3, ledger_ready_rows.
  rewrite set_table_lookup, set_table_lookup_ne by done. done.
Qed.


(** *** Rows whose match has gone *)


Lemma ledger_with_columns n tb :
  ∃ extra,
    td_columns (t_def (ledger_with n tb)) = td_columns (t_def tb) ++ extra
    ∧ Forall (λ c, col_notnull c = false) extra.
Proof.
  unfold ledger_with. destruct (has_column n (td_columns (t_def tb))).
  - exists []. by rewrite app_nil_r.
  - exists [col n INTEGER false]. split; [done|]. by repeat constructor.
Qed.

Lemma ledger_ready_columns_app tb :
  ∃ extra,
    td_columns (t_def (ledger_ready tb)) = td_columns (t_def tb) ++ extra
    ∧ Forall (λ c, col_notnull c = false) extra.
Proof.
  unfold ledger_ready.
  destruct (ledger_with_columns "series_id" tb) as (e1 & H1 & F1).
  destruct (ledger_with_columns "match_id" (ledger_with "series_id" tb)) as (e2 & H2 & F2).
  exists (e1 ++ e2). rewrite H2, H1, <- app_assoc. split; [done|].
  by apply Forall_app.
Qed.


Lemma col_index_app_ge n cs extra i :
  col_index n cs = None → col_index n (cs ++ extra) = Some i → (length cs ≤ i)%nat.
Proof.
  revert i. induction cs as [|c cs IH]; intros i; simpl; [lia|].
  destruct (String.eqb (col_name c) n); [done|].
  destruct (col_index n cs) as [k|] eqn:Hk; simpl; [done|]. intros _.
  destruct (col_index n (cs ++ extra)) as [k|]; simpl; [|done].
  intros [= <-]. specialize (IH k eq_refl eq_refl). lia.
Qed.







(** ** Foreign keys on delete *)



(** ** After close *)

Lemma close_closes inst (w w' : world sqlite) :
  close inst w = (w', Fulfilled tt) →
  open_conn (store w') (raw inst) = inl misuse_error.
Proof.
  unfold close.
  change (drv_close (raw inst) (store w)) with (sqlite_close (raw inst) (store w)).
  unfold sqlite_close.
  destruct (open_conn (store w) (raw inst)) as [e|c] eqn:Ho; [discriminate|].
  intros [= <-]. apply open_conn_inr in Ho as [Hc _].
  unfold open_conn. simpl.
  rewrite list_lookup_insert_eq by (by eapply lookup_lt_Some). done.
Qed.

Lemma closed_rejects inst op (w : world sqlite) e :
  open_conn (store w) (raw inst) = inl e → wrapped_rejection inst op w = Some e.
Proof.
  intros Ho. destruct op as [sql params|sql params|sql params|script]; simpl.
  - unfold run.
    change (drv_run (raw inst) sql params (store w))
      with (sqlite_statement
              (λ o, RunInfo (c_changes (o_conn o)) (c_last_rowid (o_conn o)))
              (raw inst) sql params (store w)).
    by rewrite (closed_statement _ _ _ _ _ e Ho).
  - unfold get.
    change (drv_get (raw inst) sql params (store w))
      with (sqlite_statement (λ o, head (o_rows o)) (raw inst) sql params (store w)).
    by rewrite (closed_statement _ _ _ _ _ e Ho).
  - unfold all.
    change (drv_all (raw inst) sql params (store w))
      with (sqlite_statement o_rows (raw inst) sql params (store w)).
    by rewrite (closed_statement _ _ _ _ _ e Ho).
  - unfold exec.
    change (drv_exec (raw inst) script (store w))
      with (sqlite_exec (raw inst) script (store w)).
    by rewrite (closed_exec _ _ _ e Ho).
Qed.

Lemma closed_api_step env (w : world sqlite) inst e c :
  dbInstance w = Some inst → open_conn (store w) (raw inst) = inl e →
  store (api_step env w c) = store w.
Proof.
  intros Hw Ho. destruct c; simpl; unfold on_instance; rewrite ?Hw.
  - by rewrite (getDb_cached _ _ _ Hw).
  - unfold initDb. rewrite (bind_getDb_cached _ _ _ inst Hw).
    unfold bind at 1, exec.
    change (drv_exec (raw inst) schema_script (store w))
      with (sqlite_exec (raw inst) schema_script (store w)).
    by rewrite (closed_exec _ _ _ e Ho).
  - unfold run.
    change (drv_run (raw inst) sql params (store w))
      with (sqlite_statement
              (λ o, RunInfo (c_changes (o_conn o)) (c_last_rowid (o_conn o)))
              (raw inst) sql params (store w)).
    by rewrite (closed_statement _ _ _ _ _ e Ho).
  - unfold get.
    change (drv_get (raw inst) sql params (store w))
      with (sqlite_statement (λ o, head (o_rows o)) (raw inst) sql params (store w)).
    by rewrite (closed_statement _ _ _ _ _ e Ho).
  - unfold all.
    change (drv_all (raw inst) sql params (store w))
      with (sqlite_statement o_rows (raw inst) sql params (store w)).
    by rewrite (closed_statement _ _ _ _ _ e Ho).
  - unfold exec.
    change (drv_exec (raw inst) script (store w))
      with (sqlite_exec (raw inst) script (store w)).
    by rewrite (closed_exec _ _ _ e Ho).
  - unfold close.
    change (drv_close (raw inst) (store w)) with (sqlite_close (raw inst) (store w)).
    unfold sqlite_close. by rewrite Ho.
Qed.

Lemma closed_api_run env cs : ∀ (w : world sqlite) inst e,
  dbInstance w = Some inst → open_conn (store w) (raw inst) = inl e →
  store (api_run env cs w) = store w.
Proof.
  induction cs as [|c cs IH]; intros w inst e Hw Ho; [done|].
  simpl. destruct (api_step_cached env w inst c Hw) as [Hw' _].
  pose proof (closed_api_step env w inst e c Hw Ho) as Hs.
  rewrite (IH _ inst e Hw') by (by rewrite Hs). done.
Qed.

(** C10: close leaves the cached instance where it is.  Whatever the
    application calls afterwards, getDb keeps answering with that same
    wrapper and no connection is opened again; on SQLite, once close has
    succeeded, the handle behind the wrapper stays closed and every wrapped
    operation on it is rejected. *)
Theorem close_keeps_cached_wrapper :
  (∀ (S : Type) (driver : Sqlite3 S) env (w : world S) inst,
     dbInstance w = Some inst →
     let w' := (close inst w).1 in
     dbInstance w' = Some inst
     ∧ getDb env w' = (w', Fulfilled inst)
     ∧ ∀ cs, let w'' := api_run env cs w' in
             getDb env w'' = (w'', Fulfilled inst)
             ∧ opens (trace w'') = opens (trace w'))
  ∧ (∀ env (w w' : world sqlite) inst cs,
       dbInstance w = Some inst →
       close inst w = (w', Fulfilled tt) →
       let w'' := api_run env cs w' in
       getDb env w'' = (w'', Fulfilled inst)
       ∧ store w'' = store w'
       ∧ ∀ op, wrapped_rejection inst op w'' = Some misuse_error).
Proof.
  split.
  - intros S driver env w inst Hw. by apply close_keeps_instance.
  - intros env w w' inst cs Hw Hclose w''.
    assert (dbInstance w' = Some inst) as Hw'.
    { destruct (quiet_close inst w) as [Hq _]. rewrite Hclose in Hq.
      simpl in Hq. congruence. }
    pose proof (close_closes inst w w' Hclose) as Ho.
    destruct (api_run_cached env cs w' inst Hw') as [Hw'' _].
    pose proof (closed_api_run env cs w' inst _ Hw' Ho) as Hs.
    split; [by apply getDb_cached|]. split; [done|].
    intros op. apply closed_rejects. subst w''. by rewrite Hs.
Qed.

(** ** More on initDb and the migration *)

Lemma on_handle_id conns0 inst cached c db t :
  conns0 !! raw inst = Some c →
  on_handle conns0 inst cached c db t = World (Sqlite db conns0) cached t.
Proof. intros H. unfold on_handle. by rewrite list_insert_id. Qed.

Section MigrationSteps.
Variable conns0 : list connection.
Variable inst : wrapper.
Hypothesis handle_valid : (raw inst < length conns0)%nat.

(** The migration once PRAGMA table_info has answered. *)
Lemma ensure_after_table_info cached c db t :
  c_open c = true →
  ensurePointsLedgerSchema inst (on_handle conns0 inst cached c db t)
  = bind (when (negb (includes (ledger_names db) "series_id"))
            (bind (run inst add_series_id [])
               (λ _, console_log "[Migration] Added points_ledger.series_id")))
      (λ _,
       bind (when (negb (includes (ledger_names db) "match_id"))
               (bind (run inst add_match_id [])
                  (λ _, console_log "[Migration] Added points_ledger.match_id")))
         (λ _,
          bind (run inst BackfillSeriesId []) (λ _,
          bind (run inst idx_series_user []) (λ _,
          bind (run inst idx_match []) (λ _,
          console_log "[Migration] points_ledger schema ensured and backfilled.")))))
      (on_handle conns0 inst cached c db
         (t ++ [EvAll (raw inst) (PragmaTableInfo "points_ledger") []])).
Proof.
  intros Hc.
  remember (ensurePointsLedgerSchema inst (on_handle conns0 inst cached c db t)) as r eqn:Hr.
  unfold ensurePointsLedgerSchema in Hr. unfold bind at 1 in Hr.
  rewrite (all_on_handle conns0 inst handle_valid) in Hr by done.
  by rewrite Hr.
Qed.
End MigrationSteps.

(** X14: on a file that has no points_ledger table, PRAGMA table_info
    answers with no row, so the migration goes for ALTER TABLE ADD COLUMN
    series_id, and SQLite refuses it: the migration is rejected with "no
    such table: points_ledger" after these two statements, the file is
    unchanged and nothing is logged. *)
Theorem migration_without_ledger_table_rejects inst (w : world sqlite) c :
  conns (store w) !! raw inst = Some c →
  c_open c = true →
  db_tables (db_file (store w)) !! "points_ledger" = None →
  ensurePointsLedgerSchema inst w
  = (World (store w) (dbInstance w)
       (trace w ++ [EvAll (raw inst) (PragmaTableInfo "points_ledger") [];
                    EvRun (raw inst) add_series_id []]),
     Rejected (sqlite_error "no such table: points_ledger")).
Proof.
  intros Hc Hopen Hmissing.
  assert (raw inst < length (conns (store w)))%nat as Hlen by (by eapply lookup_lt_Some).
  destruct w as [[db cs] cached t]. simpl in *.
  rewrite <- (on_handle_id cs inst cached c db t Hc).
  rewrite (ensure_after_table_info cs inst Hlen) by done.
  rewrite includes_ledger_names, Hmissing.
  rewrite (bind_when_add cs inst Hlen) by done. simpl negb. cbv iota.
  assert (step c add_series_id [] db = inl (sqlite_error "no such table: points_ledger"))
    as ->.
  { simpl. unfold add_column. by rewrite Hmissing. }
  rewrite !(on_handle_id cs inst cached c db) by done.
  by rewrite <- app_assoc.
Qed.

Lemma backfill_not_null_fails c db pl ms sid mid m_id m_sid cl r :
  db_tables db !! "points_ledger" = Some pl →
  db_tables db !! "matches" = Some ms →
  col_index "series_id" (td_columns (t_def pl)) = Some sid →
  col_index "match_id" (td_columns (t_def pl)) = Some mid →
  col_index "id" (td_columns (t_def ms)) = Some m_id →
  col_index "series_id" (td_columns (t_def ms)) = Some m_sid →
  td_columns (t_def pl) !! sid = Some cl →
  col_notnull cl = true →
  r ∈ t_rows pl →
  selected sid mid r →
  (∀ m, m ∈ t_rows ms → sql_eq (cell m_id m) (cell mid r) ≠ Some true) →
  step c BackfillSeriesId [] db
  = inl (constraint_error "NOT NULL constraint failed: points_ledger.series_id").
Proof.
  intros Hpl Hms Hsid Hmid Hm_id Hm_sid Hcl Hnn Hr Hsel Hnone.
  simpl. unfold backfill. rewrite Hpl, Hms. simpl.
  rewrite Hsid, Hm_sid, Hm_id, Hmid. simpl.
  set (updated := map _ (filter _ _)).
  assert (forallb (λ r, match td_columns (t_def pl) !! sid with
                        | Some cl => negb (col_notnull cl && is_null (cell sid r))
                        | None => true
                        end) updated = false) as ->; [|done].
  apply not_true_is_false. intros Hall. rewrite forallb_forall in Hall.
  apply needs_backfill_spec in Hsel.
  specialize (Hall (backfill_row sid mid m_id m_sid (t_rows ms) r)).
  rewrite Hcl, Hnn in Hall. unfold backfill_row in Hall at 2. rewrite Hsel in Hall.
  rewrite cell_set_cell_eq, match_series_missing in Hall by done.
  simpl in Hall. assert (false = true → False) as Hf by done. apply Hf, Hall.
  apply list_elem_of_In. subst updated.
  apply (list_elem_of_fmap_2 (backfill_row sid mid m_id m_sid (t_rows ms))).
  by apply list_elem_of_filter.
Qed.

(** X15: on a ledger whose series_id is declared NOT NULL (the one the
    module creates), a row that the backfill selects (series_id the empty
    string) and whose match_id is the id of no match makes the UPDATE fail:
    the sub-select yields NULL, SQLite refuses it, and the migration is
    rejected with "NOT NULL constraint failed: points_ledger.series_id";
    the file is unchanged and the indexes are not attempted. *)
Theorem backfill_null_into_not_null_rejects inst (w : world sqlite) c pl ms
    sid mid m_id m_sid cl r :
  conns (store w) !! raw inst = Some c →
  c_open c = true →
  db_tables (db_file (store w)) !! "points_ledger" = Some pl →
  db_tables (db_file (store w)) !! "matches" = Some ms →
  col_index "series_id" (td_columns (t_def pl)) = Some sid →
  col_index "match_id" (td_columns (t_def pl)) = Some mid →
  col_index "id" (td_columns (t_def ms)) = Some m_id →
  col_index "series_id" (td_columns (t_def ms)) = Some m_sid →
  td_columns (t_def pl) !! sid = Some cl →
  col_notnull cl = true →
  r ∈ t_rows pl →
  selected sid mid r →
  (∀ m, m ∈ t_rows ms → sql_eq (cell m_id m) (cell mid r) ≠ Some true) →
  ensurePointsLedgerSchema inst w
  = (World (store w) (dbInstance w)
       (trace w ++ [EvAll (raw inst) (PragmaTableInfo "points_ledger") [];
                    EvRun (raw inst) BackfillSeriesId []]),
     Rejected (constraint_error "NOT NULL constraint failed: points_ledger.series_id")).
Proof.
  intros Hc Hopen Hpl Hms Hsid Hmid Hm_id Hm_sid Hcl Hnn Hr Hsel Hnone.
  assert (raw inst < length (conns (store w)))%nat as Hlen by (by eapply lookup_lt_Some).
  destruct w as [[db cs] cached t]. simpl in *.
  rewrite <- (on_handle_id cs inst cached c db t Hc).
  rewrite (ensure_after_table_info cs inst Hlen) by done.
  rewrite !includes_ledger_names, Hpl.
  assert (has_column "series_id" (td_columns (t_def pl)) = true) as ->
    by (apply has_column_true; by eexists).
  assert (has_column "match_id" (td_columns (t_def pl)) = true) as ->
    by (apply has_column_true; by eexists).
  rewrite (bind_when_add cs inst Hlen) by done. cbv iota.
  rewrite (bind_when_add cs inst Hlen) by done. cbv iota.
  rewrite (bind_run_on_handle cs inst Hlen) by done.
  rewrite (backfill_not_null_fails c db pl ms sid mid m_id m_sid cl r) by done.
  rewrite !(on_handle_id cs inst cached c db) by done.
  by rewrite <- app_assoc.
Qed.

(** X12: the migration is idempotent.  After a migration that completed,
    the next one completes as well, leaves the file exactly as it was and
    sends only PRAGMA table_info, the backfill and the two CREATE INDEX IF
    NOT EXISTS: no ALTER TABLE. *)
Theorem migration_twice_idempotent inst (w w1 : world sqlite) :
  ensurePointsLedgerSchema inst w = (w1, Fulfilled tt) →
  ∃ w2,
    ensurePointsLedgerSchema inst w1 = (w2, Fulfilled tt)
    ∧ db_file (store w2) = db_file (store w1)
    ∧ dbInstance w2 = dbInstance w1
    ∧ trace w2
      = trace w1
        ++ [EvAll (raw inst) (PragmaTableInfo "points_ledger") [];
            EvRun (raw inst) BackfillSeriesId [];
            EvRun (raw inst) idx_series_user [];
            EvRun (raw inst) idx_match [];
            EvLog "[Migration] points_ledger schema ensured and backfilled."].
Proof.
  intros H.
  apply ensure_fulfilled_form in H as (c & o & Hc & Hopen & Hmig & ->).
  assert (raw inst < length (conns (store w)))%nat as Hlen by (by eapply lookup_lt_Some).
  pose proof (ensure_on_handle (conns (store w)) inst Hlen (dbInstance w) c
                (db_file (store w)) (trace w) Hopen) as Hfirst.
  rewrite Hmig in Hfirst. destruct Hfirst as [_ Ho].
  destruct (migrate_steps_tables _ _ _ Hmig) as (_ & _ & Hfk).
  destruct (migrate_steps_again c _ o (o_conn o) Hmig Hfk) as (o' & Ho' & Hdb' & Hs & Hm).
  match goal with |- context [on_handle _ inst _ (o_conn o) (o_db o) ?t1] =>
    pose proof (ensure_on_handle (conns (store w)) inst Hlen (dbInstance w) (o_conn o)
                  (o_db o) t1 Ho) as Hsecond
  end.
  rewrite Ho' in Hsecond. destruct Hsecond as [Hsecond _].
  eexists. split; [exact Hsecond|]. simpl. split; [done|]. split; [done|].
  unfold migrate_trace. by rewrite Hs, Hm.
Qed.

Lemma index_added_lookup n t cols db n' :
  db_indexes (index_added n t cols db) !! n'
  = if decide (n' = n)
    then Some (default (IndexDef t cols) (db_indexes db !! n))
    else db_indexes db !! n'.
Proof.
  unfold index_added. destruct (db_indexes db !! n) as [ix|] eqn:Hn; simpl.
  - destruct (decide (n' = n)) as [->|]; [by rewrite Hn | done].
  - destruct (decide (n' = n)) as [->|].
    + by rewrite lookup_insert_eq.
    + by rewrite lookup_insert_ne.
Qed.

Lemma index_added_indexes n t cols db db' :
  db_indexes db = db_indexes db' →
  db_indexes (index_added n t cols db) = db_indexes (index_added n t cols db').
Proof.
  intros H. unfold index_added. rewrite H.
  destruct (db_indexes db' !! n); simpl; by rewrite ?H.
Qed.

Lemma migrate_steps_indexes c db o :
  migrate_steps c db = inr o →
  db_indexes (o_db o)
  = db_indexes
      (index_added "idx_points_ledger_match" "points_ledger" ["match_id"]
         (index_added "idx_points_ledger_series_user" "points_ledger"
            ["series_id"; "user_id"] db)).
Proof.
  intros H.
  apply migrate_steps_inr in H as (tb & o3 & Htb & H3 & _ & _ & -> & _).
  apply backfill_inr in H3
    as (pl & m & sid & mid & m_id & m_sid & _ & _ & _ & _ & _ & _ & Hdb3 & _).
  do 2 apply index_added_indexes. by rewrite Hdb3.
Qed.

Lemma ledger_ready_def tb :
  t_def (ledger_ready tb)
  = TableDef
      (td_columns (t_def tb)
         ++ (if has_column "series_id" (td_columns (t_def tb)) then []
             else [col "series_id" INTEGER false])
         ++ (if has_column "match_id" (td_columns (t_def tb)) then []
             else [col "match_id" INTEGER false]))
      (td_autoincrement (t_def tb)) (td_primary_key (t_def tb))
      (td_foreign_keys (t_def tb))
  ∧ t_seq (ledger_ready tb) = t_seq tb.
Proof.
  split; [|unfold ledger_ready, ledger_with;
           by destruct (has_column "series_id" _), (has_column "match_id" _)].
  pose proof (ledger_with_other "series_id" "match_id" tb) as Ho.
  unfold ledger_ready. unfold ledger_with at 1. rewrite Ho by done.
  unfold ledger_with, add_col.
  destruct (has_column "match_id" (td_columns (t_def tb)));
    destruct (has_column "series_id" (td_columns (t_def tb))); simpl;
    rewrite ?app_nil_r, <- ?app_assoc; try done.
  by destruct tb as [[] ? ?].
Qed.

(** X10: what a completed migration leaves.  The ledger has both series_id
    and match_id; its declared columns are the ones it had, in place, with
    each missing one of the two appended as a nullable INTEGER without
    default or constraint; primary key, foreign keys, AUTOINCREMENT counter
    and the number of rows are as before.  Both indexes exist (one that was
    there under the name is kept as it was), no other index and no other
    table is touched. *)
Theorem migration_ensures_columns_and_indexes inst (w w1 : world sqlite) :
  ensurePointsLedgerSchema inst w = (w1, Fulfilled tt) →
  ∃ pl pl1,
    db_tables (db_file (store w)) !! "points_ledger" = Some pl
    ∧ db_tables (db_file (store w1)) !! "points_ledger" = Some pl1
    ∧ has_column "series_id" (td_columns (t_def pl1)) = true
    ∧ has_column "match_id" (td_columns (t_def pl1)) = true
    ∧ t_def pl1
      = TableDef
          (td_columns (t_def pl)
             ++ (if has_column "series_id" (td_columns (t_def pl)) then []
                 else [col "series_id" INTEGER false])
             ++ (if has_column "match_id" (td_columns (t_def pl)) then []
                 else [col "match_id" INTEGER false]))
          (td_autoincrement (t_def pl)) (td_primary_key (t_def pl))
          (td_foreign_keys (t_def pl))
    ∧ t_seq pl1 = t_seq pl
    ∧ length (t_rows pl1) = length (t_rows pl)
    ∧ (∀ n, n ≠ "points_ledger" →
            db_tables (db_file (store w1)) !! n = db_tables (db_file (store w)) !! n)
    ∧ db_indexes (db_file (store w1)) !! "idx_points_ledger_series_user"
      = Some (default (IndexDef "points_ledger" ["series_id"; "user_id"])
                (db_indexes (db_file (store w)) !! "idx_points_ledger_series_user"))
    ∧ db_indexes (db_file (store w1)) !! "idx_points_ledger_match"
      = Some (default (IndexDef "points_ledger" ["match_id"])
                (db_indexes (db_file (store w)) !! "idx_points_ledger_match"))
    ∧ (∀ n, n ≠ "idx_points_ledger_series_user" → n ≠ "idx_points_ledger_match" →
            db_indexes (db_file (store w1)) !! n = db_indexes (db_file (store w)) !! n).
Proof.
  intros H.
  apply ensure_fulfilled_form in H as (c & o & Hc & Hopen & Hmig & ->).
  cbn [store db_file on_handle].
  destruct (migrate_steps_rows _ _ _ Hmig)
    as (pl & m & sid & mid & m_id & m_sid & Hpl & _ & _ & Hpl1 & _).
  destruct (migrate_steps_tables _ _ _ Hmig) as (Hother & _ & _).
  pose proof (migrate_steps_indexes _ _ _ Hmig) as Hix.
  destruct (ledger_ready_def pl) as [Hdef Hseq].
  eexists pl, _. split; [done|]. split; [exact Hpl1|]. cbn [t_def t_rows t_seq].
  split; [apply ledger_ready_columns; auto|].
  split; [apply ledger_ready_columns; auto|].
  split; [done|]. split; [done|]. split; [by rewrite length_map|].
  split; [done|]. rewrite Hix. split; [|split].
  - rewrite !index_added_lookup. simpl. done.
  - rewrite !index_added_lookup. simpl. done.
  - intros n H1 H2. rewrite !index_added_lookup.
    by rewrite !decide_False by done.
Qed.

(** X11: the statements of a completed migration, in order: PRAGMA
    table_info; ALTER TABLE ADD COLUMN series_id and its log line exactly
    when the ledger lacks series_id; the same for match_id; the backfill;
    the two CREATE INDEX IF NOT EXISTS; the closing log line. *)
Theorem migration_alters_exactly_missing_columns inst (w w1 : world sqlite) :
  ensurePointsLedgerSchema inst w = (w1, Fulfilled tt) →
  ∃ pl,
    db_tables (db_file (store w)) !! "points_ledger" = Some pl
    ∧ trace w1
      = trace w
        ++ [EvAll (raw inst) (PragmaTableInfo "points_ledger") []]
        ++ (if has_column "series_id" (td_columns (t_def pl)) then []
            else [EvRun (raw inst) (AlterTableAddColumn "points_ledger" "series_id" INTEGER) [];
                  EvLog "[Migration] Added points_ledger.series_id"])
        ++ (if has_column "match_id" (td_columns (t_def pl)) then []
            else [EvRun (raw inst) (AlterTableAddColumn "points_ledger" "match_id" INTEGER) [];
                  EvLog "[Migration] Added points_ledger.match_id"])
        ++ [EvRun (raw inst) BackfillSeriesId [];
            EvRun (raw inst) idx_series_user [];
            EvRun (raw inst) idx_match [];
            EvLog "[Migration] points_ledger schema ensured and backfilled."].
Proof.
  intros H.
  apply ensure_fulfilled_form in H as (c & o & Hc & Hopen & Hmig & ->).
  destruct (migrate_steps_rows _ _ _ Hmig)
    as (pl & m & sid & mid & m_id & m_sid & Hpl & _).
  exists pl. split; [done|]. cbn [trace on_handle]. unfold migrate_trace.
  by rewrite !includes_ledger_names, Hpl.
Qed.

Lemma initDb_fulfilled_start env (w w1 : world sqlite) :
  initDb env w = (w1, Fulfilled tt) →
  ∃ conns0 inst c pre,
    (raw inst < length conns0)%nat ∧ c_open c = true
    ∧ (pre = []
       ∨ pre = [EvOpen (dbPath env) (raw inst); EvExec (raw inst) [PragmaForeignKeysOn]])
    ∧ initDb env w
      = initDb env (on_handle conns0 inst (Some inst) c (db_file (store w))
                      (trace w ++ pre)).
Proof.
  intros H. destruct (dbInstance w) as [inst|] eqn:Hw.
  - destruct (open_conn (store w) (raw inst)) as [e|c] eqn:Ho.
    + exfalso. unfold initDb in H. rewrite (bind_getDb_cached _ _ _ inst Hw) in H.
      assert ((exec inst schema_script w).2 = Rejected e) as Hx.
      { unfold exec.
        change (drv_exec (raw inst) schema_script (store w))
          with (sqlite_exec (raw inst) schema_script (store w)).
        by rewrite (closed_exec _ _ _ e Ho). }
      unfold bind at 1 in H.
      destruct (exec inst schema_script w) as [w0 [[]|e0]]; simpl in Hx; discriminate.
    + apply open_conn_inr in Ho as [Hc Hopen].
      exists (conns (store w)), inst, c, [].
      split; [by eapply lookup_lt_Some|]. split; [done|]. split; [by left|].
      rewrite app_nil_r, <- Hw. by rewrite <- world_on_handle.
  - pose proof (getDb_opens env w Hw) as Hg. cbv zeta in Hg.
    exists (conns (store w) ++ [Connection true false 0 0]),
      (wrapDb env (length (conns (store w)))), (Connection true true 0 0),
      [EvOpen (dbPath env) (length (conns (store w)));
       EvExec (length (conns (store w))) [PragmaForeignKeysOn]].
    split; [rewrite length_app; simpl; lia|]. split; [done|]. split; [by right|].
    unfold initDb at 1. unfold bind at 1. rewrite Hg.
    unfold initDb.
    by rewrite (bind_getDb_cached _ _ _ (wrapDb env (length (conns (store w))))).
Qed.

(** The statements a completed initDb has run, one after the other. *)
Lemma initDb_fulfilled_steps env (w w1 : world sqlite) :
  initDb env w = (w1, Fulfilled tt) →
  ∃ conns0 inst c pre tu o3 o,
    (raw inst < length conns0)%nat
    ∧ (pre = []
       ∨ pre = [EvOpen (dbPath env) (raw inst); EvExec (raw inst) [PragmaForeignKeysOn]])
    ∧ db_tables (with_schema (db_file (store w))) !! "users" = Some tu
    ∧ (if bool_decide (length (t_rows tu) = 0%nat)
       then step (with_foreign_keys c) InsertUser (admin_params env)
              (with_schema (db_file (store w))) = inr o3
       else o_db o3 = with_schema (db_file (store w)) ∧ o_conn o3 = with_foreign_keys c)
    ∧ migrate_steps (o_conn o3) (o_db o3) = inr o
    ∧ c_open (o_conn o) = true
    ∧ w1 = on_handle conns0 inst (Some inst) (o_conn o) (o_db o)
             (trace w ++ pre
                ++ [EvExec (raw inst) schema_script; EvGet (raw inst) SelectCountUsers []]
                ++ (if bool_decide (length (t_rows tu) = 0%nat)
                    then bootstrap_trace env (raw inst) else [])
                ++ migrate_trace (raw inst) (ledger_names (o_db o3))).
Proof.
  intros H.
  destruct (initDb_fulfilled_start env w w1 H)
    as (conns0 & inst & c & pre & Hlen & Hc & Hpre & Heq).
  rewrite Heq in H. clear Heq.
  pose proof (initDb_on_handle env conns0 inst Hlen c (db_file (store w))
                (trace w ++ pre) Hc) as H1.
  destruct (script_steps c schema_script (db_file (store w))) as [e|[c1 db1]] eqn:E1;
    [rewrite H in H1; discriminate|].
  destruct (step c1 SelectCountUsers [] db1) as [e|o2] eqn:E2;
    [rewrite H in H1; discriminate|].
  destruct (if no_users (head (o_rows o2))
            then step (o_conn o2) InsertUser (admin_params env) (o_db o2)
            else inr o2) as [e|o3] eqn:E3;
    [rewrite H in H1; discriminate|].
  destruct (migrate_steps (o_conn o3) (o_db o3)) as [e|o] eqn:E4;
    [rewrite H in H1; discriminate|].
  destruct H1 as [H1 Ho]. rewrite H in H1. injection H1 as ->.
  apply schema_script_steps in E1 as [-> ->].
  apply select_count_inr in E2 as (tu & Htu & ->).
  cbn [o_rows o_db o_conn] in E3. rewrite no_users_count in E3.
  exists conns0, inst, c, pre, tu, o3, o. fold (with_schema (db_file (store w))) in *.
  split; [done|]. split; [done|]. split; [done|]. split.
  { destruct (bool_decide (length (t_rows tu) = 0%nat)); [done|]. by injection E3 as <-. }
  split; [done|]. split; [done|].
  cbn [o_rows]. rewrite no_users_count. by rewrite <- !app_assoc.
Qed.

Lemma with_schema_lookup db n tb :
  db_tables db !! n = Some tb → db_tables (with_schema db) !! n = Some tb.
Proof. apply ensure_tables_lookup_Some. Qed.

Lemma no_bootstrap_in_migration h names :
  forallb (λ e, negb (is_bootstrap e)) (migrate_trace h names) = true.
Proof.
  unfold migrate_trace.
  by destruct (includes names "series_id"), (includes names "match_id").
Qed.

(** X5: when the users table holds a row already, a completed initDb
    leaves the users table exactly as it was and neither hashes a password
    nor sends an INSERT. *)
Theorem initDb_keeps_existing_users env (w w1 : world sqlite) tu :
  initDb env w = (w1, Fulfilled tt) →
  db_tables (db_file (store w)) !! "users" = Some tu →
  t_rows tu ≠ [] →
  db_tables (db_file (store w1)) !! "users" = Some tu
  ∧ ∃ t, trace w1 = trace w ++ t
         ∧ forallb (λ e, negb (is_bootstrap e)) t = true.
Proof.
  intros H Htu Hrows.
  apply initDb_fulfilled_steps in H
    as (conns0 & inst & c & pre & tu' & o3 & o & Hlen & Hpre & Htu' & H3 & Hmig & _ & ->).
  rewrite (with_schema_lookup _ _ _ Htu) in Htu'. injection Htu' as <-.
  rewrite bool_decide_eq_false_2 in * by (by destruct (t_rows tu)).
  destruct H3 as [Hdb3 Hc3].
  destruct (migrate_steps_tables _ _ _ Hmig) as (Hother & _ & _).
  cbn [store db_file on_handle trace]. split.
  - rewrite Hother, Hdb3 by done. by apply with_schema_lookup.
  - eexists. split; [done|]. rewrite !forallb_app, no_bootstrap_in_migration.
    by destruct Hpre as [->| ->].
Qed.

Lemma insert_user_row c params db o :
  step c InsertUser params db = inr o →
  ∃ t,
    let rowid := (1 + Z.max (t_seq t) (max_rowid (td_columns (t_def t)) (t_rows t)))%Z in
    db_tables db !! "users" = Some t
    ∧ forallb (λ n, has_column n (td_columns (t_def t))) insert_user_columns = true
    ∧ o_db o
      = set_table "users"
          (Table (t_def t)
             (t_rows t ++ [new_user_row (td_columns (t_def t)) params rowid])
             (if td_autoincrement (t_def t) then rowid else t_seq t)) db
    ∧ o_conn o = Connection (c_open c) (c_foreign_keys c) 1 rowid.
Proof.
  simpl. unfold insert_user. intros H. inv_steps H.
  injection H as <-. simpl. eauto 10.
Qed.

Lemma new_user_row_cell cs params rowid n i j :
  col_index n cs = Some i →
  index_of n insert_user_columns = Some j →
  cell i (new_user_row cs params rowid) = default VNull (params !! j).
Proof.
  intros Hi Hj. apply col_index_Some in Hi as (cl & Hcl & <-).
  unfold cell, new_user_row. rewrite list_lookup_fmap, Hcl.
  cbn -[index_of insert_user_columns]. by rewrite Hj.
Qed.

Lemma new_user_row_field d rows seq params rowid n j :
  has_column n (td_columns d) = true →
  index_of n insert_user_columns = Some j →
  field (Table d rows seq) n (new_user_row (td_columns d) params rowid)
  = Some (default VNull (params !! j)).
Proof.
  intros Hn Hj. apply has_column_true in Hn as [i Hi].
  unfold field. simpl. rewrite Hi. simpl. f_equal.
  by eapply new_user_row_cell.
Qed.

Lemma with_schema_users db tu :
  rows_of "users" db = [] →
  db_tables (with_schema db) !! "users" = Some tu →
  t_rows tu = []
  ∧ (db_tables db !! "users" = None → tu = Table users_def [] 0).
Proof.
  unfold rows_of. intros Hrows Htu.
  destruct (db_tables db !! "users") as [tb|] eqn:Hu.
  - rewrite (with_schema_lookup _ _ _ Hu) in Htu. injection Htu as <-. done.
  - assert (db_tables (with_schema db) !! "users" = Some (Table users_def [] 0)) as Hnew.
    { apply ensure_tables_new; [| | done].
      - apply (bool_decide_unpack _). by vm_compute.
      - apply list_elem_of_In. simpl. auto 10. }
    rewrite Hnew in Htu. injection Htu as <-. done.
Qed.

(** X6: when there is no user (no users table, or an empty one), a
    completed initDb has inserted exactly one: the users table holds one
    row, whose username, display_name and created_at are the values from
    the environment or the defaults, whose password_hash is the bcrypt hash
    (cost 10) of the password, and whose is_admin is 1;
    the hash and the INSERT occur once in the history.  On a file without a
    users table this row is the whole of the module's own users table. *)
Theorem initDb_bootstraps_admin_when_no_users env (w w1 : world sqlite) :
  initDb env w = (w1, Fulfilled tt) →
  rows_of "users" (db_file (store w)) = [] →
  ∃ inst tu1 r t0 t1,
    dbInstance w1 = Some inst
    ∧ db_tables (db_file (store w1)) !! "users" = Some tu1
    ∧ t_rows tu1 = [r]
    ∧ field tu1 "username" r
      = Some (VText (env_or env "BOOTSTRAP_ADMIN_USERNAME" "admin"))
    ∧ field tu1 "password_hash" r
      = Some (VText (bcrypt_hash env (env_or env "BOOTSTRAP_ADMIN_PASSWORD" "Admin@123") 10))
    ∧ field tu1 "display_name" r
      = Some (VText (env_or env "BOOTSTRAP_ADMIN_DISPLAY_NAME" "Admin"))
    ∧ field tu1 "is_admin" r = Some (VInt 1)
    ∧ field tu1 "created_at" r = Some (VText (now_iso env))
    ∧ (db_tables (db_file (store w)) !! "users" = None →
       tu1 = Table users_def [admin_row env] 1)
    ∧ trace w1 = trace w ++ t0 ++ bootstrap_trace env (raw inst) ++ t1
    ∧ forallb (λ e, negb (is_bootstrap e)) (t0 ++ t1) = true.
Proof.
  intros H Hrows.
  apply initDb_fulfilled_steps in H
    as (conns0 & inst & c & pre & tu & o3 & o & Hlen & Hpre & Htu & H3 & Hmig & _ & ->).
  destruct (with_schema_users _ _ Hrows Htu) as [Hempty Hfresh].
  rewrite Hempty in *. simpl bool_decide in *. cbv iota in *.
  apply insert_user_row in H3 as (t & Ht & Hcols & Hdb3 & Hc3). cbv zeta in *.
  rewrite Htu in Ht. injection Ht as <-. rewrite Hempty in Hdb3. simpl app in Hdb3.
  destruct (migrate_steps_tables _ _ _ Hmig) as (Hother & _ & _).
  simpl in Hcols. rewrite !andb_true_iff in Hcols.
  destruct Hcols as (C1 & C2 & C3 & C4 & C5 & _).
  eexists inst, _, _,
    (pre ++ [EvExec (raw inst) schema_script; EvGet (raw inst) SelectCountUsers []]),
    (migrate_trace (raw inst) (ledger_names (o_db o3))).
  cbn [store db_file on_handle trace dbInstance].
  split; [done|]. split; [rewrite Hother, Hdb3 by done; apply set_table_lookup|].
  cbn [t_rows]. split; [done|].
  split; [by apply (new_user_row_field _ _ _ (admin_params env) _ "username" 0%nat)|].
  split; [by apply (new_user_row_field _ _ _ (admin_params env) _ "password_hash" 1%nat)|].
  split; [by apply (new_user_row_field _ _ _ (admin_params env) _ "display_name" 2%nat)|].
  split; [by apply (new_user_row_field _ _ _ (admin_params env) _ "is_admin" 3%nat)|].
  split; [by apply (new_user_row_field _ _ _ (admin_params env) _ "created_at" 4%nat)|].
  split; [|split].
  - intros Hnone. by rewrite (Hfresh Hnone).
  - by rewrite <- !app_assoc.
  - rewrite !forallb_app, no_bootstrap_in_migration.
    by destruct Hpre as [->| ->].
Qed.


Lemma initDb_tables_after env (w w1 : world sqlite) :
  initDb env w = (w1, Fulfilled tt) →
  (∀ n, n ≠ "users" → n ≠ "points_ledger" →
        db_tables (db_file (store w1)) !! n
        = db_tables (with_schema (db_file (store w))) !! n)
  ∧ (∃ tu tu1 extra,
       db_tables (with_schema (db_file (store w))) !! "users" = Some tu
       ∧ db_tables (db_file (store w1)) !! "users" = Some tu1
       ∧ t_def tu1 = t_def tu
       ∧ t_rows tu1 = t_rows tu ++ extra
       ∧ t_rows tu1 ≠ [])
  ∧ (∃ pl pl1 extra,
       db_tables (with_schema (db_file (store w))) !! "points_ledger" = Some pl
       ∧ db_tables (db_file (store w1)) !! "points_ledger" = Some pl1
       ∧ td_columns (t_def pl1) = td_columns (t_def pl) ++ extra
       ∧ length (t_rows pl1) = length (t_rows pl))
  ∧ (∀ n ix, db_indexes (db_file (store w)) !! n = Some ix →
             db_indexes (db_file (store w1)) !! n = Some ix).
Proof.
  intros H.
  apply initDb_fulfilled_steps in H
    as (conns0 & inst & c & pre & tu & o3 & o & Hlen & Hpre & Htu & H3 & Hmig & Ho & ->).
  cbn [store db_file on_handle].
  destruct (migrate_steps_tables _ _ _ Hmig) as (Hother & _ & _).
  destruct (migrate_steps_rows _ _ _ Hmig)
    as (pl & m & sid & mid & m_id & m_sid & Hpl & _ & _ & Hpl1 & _).
  pose proof (migrate_steps_indexes _ _ _ Hmig) as Hix.
  destruct (ledger_ready_columns_app pl) as (extra & Hcols & _).
  assert ((∀ n, n ≠ "users" →
             db_tables (o_db o3) !! n = db_tables (with_schema (db_file (store w))) !! n)
          ∧ (∃ tu1 more, db_tables (o_db o3) !! "users" = Some tu1
                         ∧ t_def tu1 = t_def tu ∧ t_rows tu1 = t_rows tu ++ more
                         ∧ t_rows tu1 ≠ [])
          ∧ db_indexes (o_db o3) = db_indexes (db_file (store w)))
    as (H3other & (tu1 & more & Htu1 & Hdef1 & Hrows1 & Hne1) & H3ix).
  { destruct (bool_decide (length (t_rows tu) = 0%nat)) eqn:Hz.
    - apply insert_user_row in H3 as (t & Ht & _ & -> & _). cbv zeta in *.
      rewrite Htu in Ht. injection Ht as <-.
      split; [intros n Hn; by rewrite set_table_lookup_ne|]. split; [|done].
      eexists _, _. rewrite set_table_lookup. split; [done|]. split; [done|].
      split; [done|]. simpl. by destruct (t_rows tu).
    - destruct H3 as [-> _]. split; [done|]. split; [|done].
      exists tu, []. rewrite app_nil_r. repeat split; try done.
      apply bool_decide_eq_false in Hz. by destruct (t_rows tu). }
  split; [|split; [|split]].
  - intros n Hu Hl. by rewrite Hother, H3other.
  - exists tu, tu1, more. by rewrite Hother.
  - eexists pl, _, extra. rewrite <- H3other by done.
    split; [done|]. split; [exact Hpl1|]. cbn [t_def t_rows].
    split; [done|]. by rewrite length_map.
  - intros n ix Hn. rewrite Hix, !index_added_lookup, H3ix.
    repeat destruct (decide _); subst; rewrite ?Hn; done.
Qed.


(** X8: the module never reopens the database.  Once close has succeeded,
    and whatever is called in between, initDb is rejected with SQLITE_MISUSE
    by its first statement, the schema script, and a second close is
    rejected the same way; neither changes the store. *)
Theorem initDb_after_close_rejects env (w w' : world sqlite) inst cs :
  dbInstance w = Some inst →
  close inst w = (w', Fulfilled tt) →
  let w'' := api_run env cs w' in
  initDb env w''
  = (World (store w') (Some inst) (trace w'' ++ [EvExec (raw inst) schema_script]),
     Rejected misuse_error)
  ∧ close inst w''
    = (World (store w') (Some inst) (trace w'' ++ [EvClose (raw inst)]),
       Rejected misuse_error).
Proof.
  intros Hw Hclose w''.
  assert (dbInstance w' = Some inst) as Hw'.
  { destruct (quiet_close inst w) as [Hq _]. rewrite Hclose in Hq.
    simpl in Hq. congruence. }
  pose proof (close_closes inst w w' Hclose) as Ho.
  destruct (api_run_cached env cs w' inst Hw') as [Hw'' _].
  pose proof (closed_api_run env cs w' inst _ Hw' Ho) as Hs.
  fold w'' in Hw'', Hs. rewrite <- Hs in Ho. split.
  - unfold initDb. rewrite (bind_getDb_cached _ _ _ inst Hw'').
    unfold bind at 1, exec.
    change (drv_exec (raw inst) schema_script (store w''))
      with (sqlite_exec (raw inst) schema_script (store w'')).
    rewrite (closed_exec _ _ _ _ Ho). unfold emit, with_store. simpl.
    by rewrite Hw'', Hs.
  - unfold close.
    change (drv_close (raw inst) (store w'')) with (sqlite_close (raw inst) (store w'')).
    unfold sqlite_close. rewrite Ho. unfold emit, with_store. simpl.
    by rewrite Hw'', Hs.
Qed.

Lemma has_column_elem n cs :
  has_column n cs = true ↔ ∃ c, c ∈ cs ∧ col_name c = n.
Proof.
  rewrite has_column_true. split.
  - intros [i Hi]. apply col_index_Some in Hi as (c & Hc & Hn).
    exists c. split; [by eapply list_elem_of_lookup_2 | done].
  - intros (c & Hin & Hn). induction cs as [|c0 cs IH]; [by apply elem_of_nil in Hin|].
    simpl. destruct (String.eqb_spec (col_name c0) n) as [Heq|Hne]; [by eexists|].
    apply elem_of_cons in Hin as [->|Hin]; [done|].
    destruct (IH Hin) as [i ->]. by eexists.
Qed.

Lemma names_imap (g : nat → column → row_obj) cs :
  (∀ i c, obj_get "name" (g i c) = Some (VText (col_name c))) →
  map (obj_get "name") (imap g cs) = map (λ c, Some (VText (col_name c))) cs.
Proof.
  revert g. induction cs as [|c cs IH]; intros g Hg; [done|].
  change (imap g (c :: cs)) with (g 0%nat c :: imap (g ∘ Datatypes.S) cs).
  cbn [map]. rewrite Hg. f_equal. apply IH. intros i c'. apply Hg.
Qed.

(** X9: the rows of PRAGMA table_info carry the column names in column
    order, so [names.includes(k)] in the migration is true exactly when the
    table exists and has a column called [k]; for a table that does not
    exist there is no row and the answer is false. *)
Theorem table_info_names_the_columns db t :
  map (obj_get "name") (table_info db t)
  = match db_tables db !! t with
    | Some tb => map (λ c, Some (VText (col_name c))) (td_columns (t_def tb))
    | None => []
    end
  ∧ ∀ n, includes (map (obj_get "name") (table_info db t)) n = true
         ↔ ∃ tb c, db_tables db !! t = Some tb
                   ∧ c ∈ td_columns (t_def tb) ∧ col_name c = n.
Proof.
  unfold table_info. destruct (db_tables db !! t) as [tb|]; split; try done.
  - by apply names_imap.
  - intros n. rewrite includes_imap by done. rewrite has_column_elem.
    split; [intros (c & H1 & H2); by exists tb, c|].
    intros (tb' & c & [= <-] & H1 & H2). by exists c.
  - intros n. split; [done|]. by intros (tb & c & H & _).
Qed.

Lemma backfill_selects_none sid mid m_id m_sid ms rows :
  Forall (λ r, needs_backfill sid mid r = false) rows →
  map (backfill_row sid mid m_id m_sid ms) rows = rows
  ∧ filter (λ r, needs_backfill sid mid r = true) rows = [].
Proof.
  induction 1 as [|r rows Hr _ [IH1 IH2]]; [done|]. split.
  - simpl. by rewrite backfill_row_keeps, IH1.
  - rewrite filter_cons_False; [done | congruence].
Qed.

(** X13: on a ledger that had no match_id column, where every stored row
    then reads NULL in the added column, the backfill selects nothing: a
    completed migration has added the column, reports 0 changed rows and
    leaves every row as it was. *)
Theorem migration_without_match_id_changes_no_row inst (w w1 : world sqlite) pl :
  ensurePointsLedgerSchema inst w = (w1, Fulfilled tt) →
  db_tables (db_file (store w)) !! "points_ledger" = Some pl →
  has_column "match_id" (td_columns (t_def pl)) = false →
  Forall (λ r, (length r ≤ length (td_columns (t_def pl)))%nat) (t_rows pl) →
  ∃ pl1 c1,
    db_tables (db_file (store w1)) !! "points_ledger" = Some pl1
    ∧ has_column "match_id" (td_columns (t_def pl1)) = true
    ∧ t_rows pl1 = t_rows pl
    ∧ conns (store w1) !! raw inst = Some c1
    ∧ c_changes c1 = 0%Z.
Proof.
  intros H Hpl Hno Hlen.
  apply ensure_fulfilled_form in H as (c & o & Hc & Hopen & Hmig & ->).
  destruct (migrate_steps_rows _ _ _ Hmig)
    as (pl' & m & sid & mid & m_id & m_sid & Hpl' & _ & _ & Hpl1 & _ & Hmid & _ & _ & Hch).
  rewrite Hpl in Hpl'. injection Hpl' as <-.
  destruct (ledger_ready_columns_app pl) as (extra & Hcols & _).
  rewrite Hcols in Hmid. apply has_column_false in Hno.
  pose proof (col_index_app_ge _ _ _ _ Hno Hmid) as Hge.
  assert (Forall (λ r, needs_backfill sid mid r = false) (t_rows pl)) as Hnone.
  { eapply Forall_impl; [|exact Hlen]. intros r Hr. simpl in Hr.
    unfold needs_backfill, cell. rewrite (lookup_ge_None_2 r mid) by lia.
    simpl. by rewrite andb_false_r. }
  eexists _, (o_conn o). cbn [store db_file conns on_handle].
  split; [exact Hpl1|]. cbn [t_def t_rows].
  destruct (backfill_selects_none sid mid m_id m_sid (t_rows m) _ Hnone) as [Hsame Hnil].
  split; [apply ledger_ready_columns; auto|]. split; [done|]. split.
  - apply list_lookup_insert_eq. by eapply lookup_lt_Some.
  - by rewrite Hch, Hnil.
Qed.

(** X7: after a completed initDb the users table is not empty: the count
    that the wrapper's get then reads back is positive, and the test of
    initDb on it ([!count || count.c === 0]) is false. *)
Theorem initDb_leaves_a_user env (w w1 : world sqlite) :
  initDb env w = (w1, Fulfilled tt) →
  ∃ inst tu n,
    dbInstance w1 = Some inst
    ∧ db_tables (db_file (store w1)) !! "users" = Some tu
    ∧ length (t_rows tu) = Datatypes.S n
    ∧ (get inst SelectCountUsers [] w1).2
      = Fulfilled (Some [("c", VInt (Z.of_nat (Datatypes.S n)))])
    ∧ no_users (Some [("c", VInt (Z.of_nat (Datatypes.S n)))]) = false.
Proof.
  intros H.
  destruct (initDb_tables_after env w w1 H)
    as (_ & (tu & tu1 & more & _ & Htu1 & _ & _ & Hne) & _).
  apply initDb_fulfilled_steps in H
    as (conns0 & inst & c & pre & tu' & o3 & o & Hlen & _ & _ & _ & _ & Ho & ->).
  cbn [store db_file on_handle] in Htu1.
  destruct (t_rows tu1) as [|r rows] eqn:Hrows; [done|].
  exists inst, tu1, (length rows). cbn [store db_file on_handle dbInstance].
  split; [done|]. split; [done|]. split; [by rewrite Hrows|].
  rewrite (get_on_handle conns0 inst Hlen) by done.
  simpl step. rewrite Htu1. simpl. by rewrite Hrows.
Qed.

(** ** Instances of the theorems *)

(** C2 as stated fails: on a just-opened empty file the driver answers the
    user count with "no such table", and the promise of [get] is rejected
    with that error itself, not with a DatabaseError around it. *)
Lemma wrapped_get_DatabaseError_counterexample :
  driver_error (wrapDb test_env 0) (OpGet SelectCountUsers []) (store opened_world)
  = Some (sqlite_error "no such table: users")
  ∧ wrapped_rejection (wrapDb test_env 0) (OpGet SelectCountUsers []) opened_world
    = Some (sqlite_error "no such table: users")
  ∧ ¬ ∃ cause,
        wrapped_rejection (wrapDb test_env 0) (OpGet SelectCountUsers []) opened_world
        = Some (DatabaseError cause).
Proof.
  split; [reflexivity|]. split; [reflexivity|].
  intros [cause H]. vm_compute in H. discriminate.
Qed.

Lemma wrapped_operation_rejects_with_driver_error_witness :
  wrapped_rejection (wrapDb test_env 0) (OpGet SelectCountUsers []) opened_world
  = Some (sqlite_error "no such table: users").
Proof.
  apply (wrapped_operation_rejects_with_driver_error
           (wrapDb test_env 0) (OpGet SelectCountUsers []) opened_world).
  reflexivity.
Defined.



Lemma initDb_twice_idempotent_witness :
  ∃ w1 w2,
    initDb test_env fresh_world = (w1, Fulfilled tt)
    ∧ initDb test_env w1 = (w2, Fulfilled tt)
    ∧ db_file (store w2) = bootstrapped_database test_env
    ∧ rows_of "users" (db_file (store w2)) = [admin_row test_env].
Proof.
  destruct (initDb_twice_idempotent test_env fresh_world (initDb test_env fresh_world).1)
    as (w2 & inst & H2 & _ & _ & _ & _ & Hdb).
  { vm_compute. reflexivity. }
  exists (initDb test_env fresh_world).1, w2.
  split; [vm_compute; reflexivity|]. split; [exact H2|].
  rewrite (Hdb eq_refl). split; reflexivity.
Defined.

Lemma fresh_ledger_is_not_null_witness :
  ∃ tb,
    db_tables (db_file (store (initDb test_env fresh_world).1)) !! "points_ledger" = Some tb
    ∧ t_def tb = points_ledger_def.
Proof.
  destruct (fresh_ledger_is_not_null test_env fresh_world (initDb test_env fresh_world).1)
    as (tb & inst & t0 & t1 & Htb & Hdef & _).
  { vm_compute. reflexivity. }
  { reflexivity. }
  by exists tb.
Defined.



Lemma close_keeps_cached_wrapper_witness :
  let w' := (close (wrapDb test_env 0) opened_world).1 in
  let w'' := api_run test_env [CallGetDb; CallInitDb; CallExec schema_script] w' in
  getDb test_env w'' = (w'', Fulfilled (wrapDb test_env 0))
  ∧ store w'' = store w'
  ∧ ∀ op, wrapped_rejection (wrapDb test_env 0) op w'' = Some misuse_error.
Proof.
  apply (proj2 close_keeps_cached_wrapper test_env opened_world
           (close (wrapDb test_env 0) opened_world).1 (wrapDb test_env 0)
           [CallGetDb; CallInitDb; CallExec schema_script]).
  - reflexivity.
  - reflexivity.
Defined.


Lemma migration_ensures_columns_and_indexes_witness :
  ∃ pl1,
    db_tables (db_file (store (ensurePointsLedgerSchema (wrapDb test_env 0) legacy_world).1))
      !! "points_ledger" = Some pl1
    ∧ td_columns (t_def pl1)
      = td_columns legacy_ledger_def ++ [col "series_id" INTEGER false].
Proof.
  destruct (migration_ensures_columns_and_indexes (wrapDb test_env 0) legacy_world
              (ensurePointsLedgerSchema (wrapDb test_env 0) legacy_world).1)
    as (pl & pl1 & Hpl & Hpl1 & _ & _ & Hdef & _).
  { vm_compute. reflexivity. }
  exists pl1. split; [exact Hpl1|]. rewrite Hdef.
  vm_compute in Hpl. injection Hpl as <-. reflexivity.
Defined.

Lemma migration_alters_exactly_missing_columns_witness :
  trace (ensurePointsLedgerSchema (wrapDb test_env 0) legacy_world).1
  = [EvAll 0%nat (PragmaTableInfo "points_ledger") [];
     EvRun 0%nat (AlterTableAddColumn "points_ledger" "series_id" INTEGER) [];
     EvLog "[Migration] Added points_ledger.series_id";
     EvRun 0%nat BackfillSeriesId [];
     EvRun 0%nat idx_series_user [];
     EvRun 0%nat idx_match [];
     EvLog "[Migration] points_ledger schema ensured and backfilled."].
Proof.
  destruct (migration_alters_exactly_missing_columns (wrapDb test_env 0) legacy_world
              (ensurePointsLedgerSchema (wrapDb test_env 0) legacy_world).1)
    as (pl & Hpl & Ht).
  { vm_compute. reflexivity. }
  rewrite Ht. vm_compute in Hpl. injection Hpl as <-. reflexivity.
Defined.

Lemma migration_twice_idempotent_witness :
  ∃ w2,
    ensurePointsLedgerSchema (wrapDb test_env 0)
      (ensurePointsLedgerSchema (wrapDb test_env 0) legacy_world).1
    = (w2, Fulfilled tt)
    ∧ db_file (store w2)
      = db_file (store (ensurePointsLedgerSchema (wrapDb test_env 0) legacy_world).1).
Proof.
  destruct (migration_twice_idempotent (wrapDb test_env 0) legacy_world
              (ensurePointsLedgerSchema (wrapDb test_env 0) legacy_world).1)
    as (w2 & H2 & Hdb & _).
  { vm_compute. reflexivity. }
  by exists w2.
Defined.

Lemma migration_without_ledger_table_rejects_witness :
  ensurePointsLedgerSchema (wrapDb test_env 0) opened_world
  = (World (store opened_world) (dbInstance opened_world)
       (trace opened_world
          ++ [EvAll 0%nat (PragmaTableInfo "points_ledger") [];
              EvRun 0%nat add_series_id []]),
     Rejected (sqlite_error "no such table: points_ledger")).
Proof.
  apply (migration_without_ledger_table_rejects (wrapDb test_env 0) opened_world
           (Connection true true 0 0)); reflexivity.
Defined.

Lemma backfill_null_into_not_null_rejects_witness :
  ensurePointsLedgerSchema (wrapDb test_env 0) stale_world
  = (World (store stale_world) (dbInstance stale_world)
       (trace stale_world
          ++ [EvAll 0%nat (PragmaTableInfo "points_ledger") [];
              EvRun 0%nat BackfillSeriesId []]),
     Rejected (constraint_error "NOT NULL constraint failed: points_ledger.series_id")).
Proof.
  apply (backfill_null_into_not_null_rejects (wrapDb test_env 0) stale_world enforcing
           (Table points_ledger_def [stale_entry] 0)
           (Table matches_def
              [[VInt 3; VInt 7; VText "Final"; VText "cricket"; VText "X"; VText "Y";
                VText "2024-01-03T00:00:00.000Z"; VInt 30; VReal (Qc_of_Z 50);
                VText "scheduled"; VNull; VNull]] 0)
           3%nat 2%nat 0%nat 1%nat (col "series_id" INTEGER true) stale_entry).
  - reflexivity.
  - reflexivity.
  - vm_compute. reflexivity.
  - vm_compute. reflexivity.
  - reflexivity.
  - reflexivity.
  - reflexivity.
  - reflexivity.
  - reflexivity.
  - reflexivity.
  - apply list_elem_of_In. simpl. auto.
  - split; [by right | discriminate].
  - intros m Hin. apply list_elem_of_In in Hin. simpl in Hin. destruct Hin as [<-|[]].
    vm_compute. discriminate.
Defined.

Lemma migration_without_match_id_changes_no_row_witness :
  ∃ pl1,
    db_tables (db_file (store (ensurePointsLedgerSchema (wrapDb test_env 0) oldest_world).1))
      !! "points_ledger" = Some pl1
    ∧ t_rows pl1 = t_rows oldest_ledger.
Proof.
  destruct (migration_without_match_id_changes_no_row (wrapDb test_env 0) oldest_world
              (ensurePointsLedgerSchema (wrapDb test_env 0) oldest_world).1 oldest_ledger)
    as (pl1 & c1 & Hpl1 & _ & Hrows & _).
  - vm_compute. reflexivity.
  - vm_compute. reflexivity.
  - reflexivity.
  - repeat constructor.
  - by exists pl1.
Defined.

Lemma initDb_keeps_existing_users_witness :
  db_tables (db_file (store (initDb test_env initialised_world).1)) !! "users"
  = Some (Table users_def [admin_row test_env] 1).
Proof.
  apply (initDb_keeps_existing_users test_env initialised_world
           (initDb test_env initialised_world).1 (Table users_def [admin_row test_env] 1)).
  - vm_compute. reflexivity.
  - vm_compute. reflexivity.
  - discriminate.
Defined.

Lemma initDb_bootstraps_admin_when_no_users_witness :
  ∃ tu1,
    db_tables (db_file (store initialised_world)) !! "users" = Some tu1
    ∧ tu1 = Table users_def [admin_row test_env] 1.
Proof.
  destruct (initDb_bootstraps_admin_when_no_users test_env fresh_world initialised_world)
    as (inst & tu1 & r & t0 & t1 & _ & Htu1 & _ & _ & _ & _ & _ & _ & Hfresh & _).
  - vm_compute. reflexivity.
  - reflexivity.
  - exists tu1. split; [exact Htu1|]. apply Hfresh. reflexivity.
Defined.

Lemma rejection_is_last_driver_error_witness :
  ∃ db op w0 t,
    dbInstance (@initDb unit unopenable_driver test_env (World tt None [])).1 = Some db
    ∧ trace w0 = [] ++ t
    ∧ @driver_error unit unopenable_driver db op (store w0) = Some cantopen_error
    ∧ (@initDb unit unopenable_driver test_env (World tt None [])).1
      = @perform unit unopenable_driver db op w0
    ∧ trace (@initDb unit unopenable_driver test_env (World tt None [])).1
      = [] ++ t ++ [event_of db op].
Proof.
  apply (proj1 (proj2 (@rejection_is_last_driver_error unit unopenable_driver test_env))
           (World tt None [])).
  reflexivity.
Defined.

Lemma initDb_after_close_rejects_witness :
  let w' := (close (wrapDb test_env 0) opened_world).1 in
  initDb test_env w'
  = (World (store w') (Some (wrapDb test_env 0))
       (trace w' ++ [EvExec 0%nat schema_script]),
     Rejected misuse_error)
  ∧ close (wrapDb test_env 0) w'
    = (World (store w') (Some (wrapDb test_env 0)) (trace w' ++ [EvClose 0%nat]),
       Rejected misuse_error).
Proof.
  apply (initDb_after_close_rejects test_env opened_world
           (close (wrapDb test_env 0) opened_world).1 (wrapDb test_env 0) []).
  - reflexivity.
  - reflexivity.
Defined.



Lemma table_info_names_the_columns_witness :
  includes (map (obj_get "name") (table_info (bootstrapped_database test_env) "points_ledger"))
    "series_id" = true.
Proof.
  apply (proj2 (table_info_names_the_columns (bootstrapped_database test_env)
                  "points_ledger") "series_id").
  exists (Table points_ledger_def [] 0), (col "series_id" INTEGER true).
  split; [reflexivity|]. split; [|reflexivity].
  apply list_elem_of_In. simpl. auto 10.
Defined.

Lemma initDb_leaves_a_user_witness :
  (get (wrapDb test_env 0) SelectCountUsers [] initialised_world).2
  = Fulfilled (Some [("c", VInt 1)]).
Proof.
  destruct (initDb_leaves_a_user test_env fresh_world initialised_world)
    as (inst & tu & n & Hi & Htu & Hn & Hget & _).
  { vm_compute. reflexivity. }
  vm_compute in Hi. injection Hi as <-.
  vm_compute in Htu. injection Htu as <-.
  simpl in Hn. injection Hn as <-. exact Hget.
Defined.
